(** * Task analyzer: the scoring and ranking engine

    A shallow embedding of [src/tasks/scoring.py] (normaliser, factor
    scorers, dependency graph builder, cycle detector, strategy combiner and
    ranker), of [src/tasks/serializers.py] and of the two views of
    [src/tasks/views.py], with their properties.

    Conventions of the embedding.

    - Python floats are exact rationals ([Q]): the arithmetic of the scorers
      is carried out without rounding, and there is no NaN, infinity or
      overflow.  Comparisons of rationals are up to [Qeq] ([==]).  The
      interpreter computes in binary64, so a value of the exact arithmetic
      can differ from the float in the last place, and [round(score, 2)] can
      fall on the other side of a tie.  What is stated of the reported
      scores is therefore a bound, or a comparison between the scores of
      one call; where the rounding itself is the question, the strategy
      combiner is also given on binary64 floats ([Binary64]).
    - The exceptions of the interpreter that the engine does not raise
      itself are outside the embedding: [OverflowError] when [float] is
      applied to an integer beyond the range of a double (see
      [in_float_range]), [ValueError] when [str] prints an integer of more
      than 4300 digits, [RecursionError] when the cycle detector exceeds
      the recursion limit, [TypeError] for an unhashable identifier.
      Statements about what a call returns are conditional on its
      returning, or restricted to inputs on which it does.
    - A calendar date is its proleptic ordinal, an integer number of days
      ([Z]); [(due - today).days] is a subtraction.  The reference date
      [today], which the source reads from the clock, is a parameter.
    - Identifiers and dependency entries are the hashable JSON scalars
      ([atom]).  Dictionaries and sets keyed by them are association lists
      and lists over [hkey], the class of a scalar under Python's [==] and
      [hash] (so that [1], [1.0] and [True] are one key).
    - A raw record is the JSON object as [raw.get] reads it: each field is
      absent or present with a value.
    - The library functions [str], [float], [int] on values that need
      printing or parsing, and [datetime.strptime], are the fields of the
      class [PyRuntime]; every general result holds for all instances.
    - The rationale strings that the scorers return next to the score, and
      the [explanation] field built from them, are not part of the model:
      no score and no ordering depends on them.  The one exception is the
      rationale of the dependency scorer ([_dependency_note]), which says
      what the dependents count is meant to count.
    - The recursion of the cycle detector is bounded by a fuel argument that
      is shown to suffice; the recursion limit of the interpreter is not
      modelled. *)

From Stdlib Require Import ZArith QArith Qround Lqa Lia.
From Stdlib Require Import List String Ascii Bool DecimalString.
From Stdlib Require Import Permutation Sorted Relations.
From Stdlib Require PrimFloat.
Import ListNotations.

Local Open Scope string_scope.
Local Open Scope list_scope.
Local Open Scope Z_scope.

(** ** Python values *)

(** The hashable JSON scalars: [None], booleans, integers, floats, strings. *)
Inductive atom : Type :=
| ANone
| ABool (b : bool)
| AInt (z : Z)
| AFloat (q : Q)
| AStr (s : string).

(** A JSON value as [json.loads] returns it. *)
#[warnings="-register-all"]
Inductive value : Type :=
| VAtom (a : atom)
| VList (l : list value)
| VDict (d : list (string * value)).

(** The key of a scalar in a [dict] or a [set]: numbers are compared by
    value, whatever their type, so a number is kept as its reduced
    fraction. *)
Inductive hkey : Type :=
| KNone
| KNum (n : Z) (d : positive)
| KStr (s : string).

Definition key_of_Q (q : Q) : hkey :=
  let r := Qred q in KNum (Qnum r) (Qden r).

Definition key_of (a : atom) : hkey :=
  match a with
  | ANone => KNone
  | ABool b => KNum (if b then 1 else 0) 1
  | AInt z => KNum z 1
  | AFloat q => key_of_Q q
  | AStr s => KStr s
  end.

Definition hkey_eqb (a b : hkey) : bool :=
  match a, b with
  | KNone, KNone => true
  | KNum n d, KNum n' d' => Z.eqb n n' && Pos.eqb d d'
  | KStr s, KStr s' => String.eqb s s'
  | _, _ => false
  end.

(** [x is None] *)
Definition is_None (a : atom) : bool :=
  match a with ANone => true | _ => false end.

(** Truth value of a JSON value ([not v], [v or d]). *)
Definition truthy (v : value) : bool :=
  match v with
  | VAtom ANone => false
  | VAtom (ABool b) => b
  | VAtom (AInt z) => negb (Z.eqb z 0)
  | VAtom (AFloat q) => negb (Qeq_bool q 0)
  | VAtom (AStr s) => negb (String.eqb s "")
  | VList l => match l with [] => false | _ => true end
  | VDict d => match d with [] => false | _ => true end
  end.

(** ** Strings: [str.strip] and [str.split] *)

(** The ASCII characters that [str.isspace] accepts. *)
Definition is_space (c : ascii) : bool :=
  let n := nat_of_ascii c in
  (Nat.leb 9 n && Nat.leb n 13) || (Nat.leb 28 n && Nat.leb n 32).

Fixpoint lstrip (s : string) : string :=
  match s with
  | EmptyString => EmptyString
  | String c r => if is_space c then lstrip r else s
  end.

Fixpoint rstrip (s : string) : string :=
  match s with
  | EmptyString => EmptyString
  | String c r =>
      match rstrip r with
      | EmptyString => if is_space c then EmptyString else String c EmptyString
      | r' => String c r'
      end
  end.

Definition strip (s : string) : string := rstrip (lstrip s).

(** [s.split(sep)] for a one-character separator: never empty. *)
Fixpoint split (sep : ascii) (s : string) : list string :=
  match s with
  | EmptyString => [EmptyString]
  | String c r =>
      if Ascii.eqb c sep then EmptyString :: split sep r
      else match split sep r with
           | [] => [String c EmptyString]
           | p :: ps => String c p :: ps
           end
  end.

(** [s or d] on strings *)
Definition str_or (s d : string) : string :=
  if String.eqb s "" then d else s.

(** ** The library functions the engine calls *)

(** [float(z)] on an integer rounds to the nearest double and raises
    [OverflowError] when that is beyond the largest one,
    [2^1024 - 2^971]: from [2^1024 - 2^970] on. *)
Definition float_max_int : Z := 2 ^ 1024 - 2 ^ 970.

(** [float(z)] returns. *)
Definition in_float_range (z : Z) : Prop :=
  - float_max_int < z < float_max_int.

(** [str(z)] on an integer, as an f-string prints it. *)
Definition str_of_int (z : Z) : string := NilZero.string_of_int (Z.to_int z).

Class PyRuntime : Type := {
  (** [str(v)] for a value that is not already a string *)
  repr : value -> string;
  (** [float(s)] on a string; [None] for [ValueError] *)
  float_of_string : string -> option Q;
  (** [int(s)] on a string; [None] for [ValueError] *)
  int_of_string : string -> option Z;
  (** [datetime.strptime(s, "%Y-%m-%d").date()]; [None] for any exception *)
  strptime_ymd : string -> option Z
}.

Section Builtins.
Context {R : PyRuntime}.

Definition py_str (v : value) : string :=
  match v with
  | VAtom (AStr s) => s
  | _ => repr v
  end.

(** [float(v)], [None] standing for [TypeError] or [ValueError]. *)
Definition py_float (v : value) : option Q :=
  match v with
  | VAtom (ABool b) => Some (if b then 1%Q else 0%Q)
  | VAtom (AInt z) => Some (inject_Z z)
  | VAtom (AFloat q) => Some q
  | VAtom (AStr s) => float_of_string s
  | _ => None
  end.

(** [int(v)]: a float is truncated towards zero. *)
Definition py_int (v : value) : option Z :=
  match v with
  | VAtom (ABool b) => Some (if b then 1 else 0)
  | VAtom (AInt z) => Some z
  | VAtom (AFloat q) => Some (Z.quot (Qnum q) (Zpos (Qden q)))
  | VAtom (AStr s) => int_of_string s
  | _ => None
  end.

End Builtins.

(** ** Data model *)

Record TaskInput : Type := mkTaskInput {
  id : atom;
  title : string;
  due_date : option Z;
  estimated_hours : option Q;
  importance : option Z;
  dependencies : list atom
}.

(** The [dependencies] field of a raw record, by the [isinstance] tests the
    normaliser makes on it. *)
Inductive raw_deps : Type :=
| DepsStr (s : string)
| DepsList (l : list atom)
| DepsOther.

(** A raw record: what [raw.get] finds under each key ([None]: no such
    key). *)
Record raw_record : Type := mkRaw {
  raw_id : option atom;
  raw_title : option value;
  raw_due_date : option value;
  raw_estimated_hours : option value;
  raw_importance : option value;
  raw_dependencies : option raw_deps
}.

(** An entry of the raw input: [isinstance(raw, dict)] or not. *)
Inductive raw_entry : Type :=
| NotDict
| IsDict (r : raw_record).

(** [raw.get(k)]: [None] when the key is absent. *)
Definition get (o : option value) : value :=
  match o with Some v => v | None => VAtom ANone end.

Inductive exn : Type :=
| StrategyError (msg : string).

Inductive result (A : Type) : Type :=
| Ok (a : A)
| Raise (e : exn).
Arguments Ok {A} a.
Arguments Raise {A} e.

Definition bind {A B : Type} (r : result A) (f : A -> result B) : result B :=
  match r with
  | Ok a => f a
  | Raise e => Raise e
  end.

Fixpoint mapM {A B : Type} (f : A -> result B) (l : list A) : result (list B) :=
  match l with
  | [] => Ok []
  | x :: l' => bind (f x) (fun y => bind (mapM f l') (fun ys => Ok (y :: ys)))
  end.

(** ** Factor scorers *)

Section Scoring.
Context {R : PyRuntime}.

Local Open Scope Q_scope.

(** A JSON value is never a [date] already, so the [isinstance] branch is
    not taken; every exception of the parse gives [None]. *)
Definition _parse_date (v : value) : option Z :=
  if truthy v then strptime_ymd (py_str v) else None.

(** [min(a, b)] and [max(a, b)] return [a] unless [b] is strictly better. *)
Definition py_min (a b : Q) : Q := if Qle_bool a b then a else b.
Definition py_max (a b : Q) : Q := if Qle_bool b a then a else b.

Definition _clamp (v min_value max_value : Q) : Q :=
  py_max min_value (py_min max_value v).

(** [rank_tasks] always passes [today]. *)
Definition _urgency_score (due : option Z) (today : Z) : Q :=
  match due with
  | None => 50.0
  | Some d =>
      let delta_days := (d - today)%Z in
      if (delta_days <? 0)%Z then 100.0
      else if (delta_days =? 0)%Z then 95.0
      else if (delta_days <=? 30)%Z then
        30.0 + inject_Z (30 - delta_days) * (60.0 / 30.0)
      else 20.0
  end.

Definition _importance_score (imp : option Z) : Q :=
  match imp with
  | None => 50.0
  | Some i =>
      let imp := _clamp (inject_Z i) 1.0 10.0 in
      imp / 10.0 * 100.0
  end.

Definition _effort_score (hours : option Q) : Q :=
  match hours with
  | None => 50.0
  | Some hrs =>
      let h := py_max 0.0 hrs in
      if Qeq_bool h 0 then 100.0
      else if Qle_bool h 1 then 95.0
      else if Qle_bool h 4 then 95.0 - (h - 1.0) * (35.0 / 3.0)
      else if Qle_bool h 8 then 60.0 - (h - 4.0) * (30.0 / 4.0)
      else 20.0
  end.

End Scoring.

(** ** Dictionaries and sets keyed by identifiers *)

Section Assoc.
Context {V : Type}.

(** [d.get(k)] *)
Fixpoint assoc_get (k : hkey) (m : list (hkey * V)) : option V :=
  match m with
  | [] => None
  | (k', v) :: m' => if hkey_eqb k' k then Some v else assoc_get k m'
  end.

(** [k in d] *)
Definition has_key (k : hkey) (m : list (hkey * V)) : bool :=
  match assoc_get k m with Some _ => true | None => false end.

(** [d[k] = v]: an existing key keeps its place, a new one goes last. *)
Fixpoint assoc_set (k : hkey) (v : V) (m : list (hkey * V)) : list (hkey * V) :=
  match m with
  | [] => [(k, v)]
  | (k', v') :: m' =>
      if hkey_eqb k' k then (k', v) :: m' else (k', v') :: assoc_set k v m'
  end.

(** [d.setdefault(k, v)] *)
Definition setdefault (k : hkey) (v : V) (m : list (hkey * V)) : list (hkey * V) :=
  if has_key k m then m else assoc_set k v m.

End Assoc.

(** [k in s] *)
Definition mem (k : hkey) (s : list hkey) : bool := existsb (hkey_eqb k) s.

(** [s.add(k)] *)
Definition set_add (k : hkey) (s : list hkey) : list hkey :=
  if mem k s then s else k :: s.

(** [s.update(t)] *)
Definition set_update (s t : list hkey) : list hkey := fold_right set_add s t.

(** [s.remove(k)] *)
Definition set_remove (k : hkey) (s : list hkey) : list hkey :=
  filter (fun x => negb (hkey_eqb k x)) s.

(** ** Dependency graph builder *)

Definition graph : Type := list (hkey * list hkey).
Definition counts : Type := list (hkey * Z).

(** [dependents_count.get(k, 0)] *)
Definition count_get (k : hkey) (c : counts) : Z :=
  match assoc_get k c with Some n => n | None => 0 end.

(** First loop of [_build_graph]: every identified task becomes a node. *)
Fixpoint declare_nodes (tasks : list TaskInput) (g : graph) (c : counts)
  : graph * counts :=
  match tasks with
  | [] => (g, c)
  | t :: ts =>
      if is_None (id t) then declare_nodes ts g c
      else declare_nodes ts (setdefault (key_of (id t)) [] g)
                            (setdefault (key_of (id t)) 0 c)
  end.

(** Inner loop: the dependencies of one task. *)
Fixpoint collect_deps (g : graph) (ds : list atom) (deps : list hkey) (c : counts)
  : list hkey * counts :=
  match ds with
  | [] => (deps, c)
  | dep :: ds' =>
      if has_key (key_of dep) g then
        collect_deps g ds' (deps ++ [key_of dep])
          (assoc_set (key_of dep) (count_get (key_of dep) c + 1) c)
      else collect_deps g ds' deps c
  end.

(** Second loop of [_build_graph]. *)
Fixpoint link_tasks (tasks : list TaskInput) (g : graph) (c : counts)
  : graph * counts :=
  match tasks with
  | [] => (g, c)
  | t :: ts =>
      if is_None (id t) then link_tasks ts g c
      else
        let '(deps, c') := collect_deps g (dependencies t) [] c in
        link_tasks ts (assoc_set (key_of (id t)) deps g) c'
  end.

Definition _build_graph (tasks : list TaskInput) : graph * counts :=
  let '(g, c) := declare_nodes tasks [] [] in
  link_tasks tasks g c.

(** ** Cycle detector *)

Record dfs_state : Type := mkDfs {
  visited : list hkey;
  stack : list hkey;
  in_cycle : list hkey
}.

(** [graph.get(node, [])] *)
Definition neighbours (g : graph) (node : hkey) : list hkey :=
  match assoc_get node g with Some l => l | None => [] end.

(** A loop whose body may run out of fuel. *)
Fixpoint for_each {A S : Type} (body : A -> S -> option S) (l : list A) (st : S)
  : option S :=
  match l with
  | [] => Some st
  | x :: l' =>
      match body x st with
      | Some st' => for_each body l' st'
      | None => None
      end
  end.

(** The inner function [visit]; [fuel] bounds the depth of the recursion
    and [None] is an exhausted bound. *)
Fixpoint visit (fuel : nat) (g : graph) (node : hkey) (st : dfs_state)
  : option dfs_state :=
  match fuel with
  | O => None
  | S fuel' =>
      if mem node (stack st) then
        Some (mkDfs (visited st) (stack st) (set_update (in_cycle st) (stack st)))
      else if mem node (visited st) then Some st
      else
        let st1 := mkDfs (set_add node (visited st)) (set_add node (stack st))
                         (in_cycle st) in
        match for_each (visit fuel' g) (neighbours g node) st1 with
        | Some st2 =>
            Some (mkDfs (visited st2) (set_remove node (stack st2)) (in_cycle st2))
        | None => None
        end
  end.

(** The loop over the nodes of the graph. *)
Definition visit_root (fuel : nat) (g : graph) (node : hkey) (st : dfs_state)
  : option dfs_state :=
  if mem node (visited st) then Some st else visit fuel g node st.

Definition detect_cycles_fuel (fuel : nat) (g : graph) : option (list hkey) :=
  option_map in_cycle
    (for_each (visit_root fuel g) (map fst g) (mkDfs [] [] [])).

(** Every node the traversal can reach: the keys and all their neighbours. *)
Definition all_nodes (g : graph) : list hkey :=
  map fst g ++ List.concat (map snd g).

(** The recursion is never deeper than the number of nodes, see
    [detect_cycles_fuel_enough]. *)
Definition _detect_cycles (g : graph) : list hkey :=
  match detect_cycles_fuel (S (List.length (all_nodes g))) g with
  | Some s => s
  | None => []
  end.

(** ** Dependency scorer and strategy combiner *)

Section Combining.
Local Open Scope Q_scope.

Definition _dependency_score (task : TaskInput) (dependents_count : counts)
    (in_cycle : list hkey) : Q :=
  if is_None (id task) then 40.0
  else
    let dependents := count_get (key_of (id task)) dependents_count in
    let base := 40.0 + py_min (inject_Z dependents * 15.0) 45.0 in
    if mem (key_of (id task)) in_cycle then base * 0.75 else base.

(** The rationale that [_dependency_score] returns with the score. *)
Definition _dependency_note (task : TaskInput) (dependents_count : counts)
    (in_cycle : list hkey) : string :=
  if is_None (id task) then "no explicit ID (dependency impact limited)"
  else
    let dependents := count_get (key_of (id task)) dependents_count in
    let explanation :=
      if (dependents =? 0)%Z then "no tasks directly depend on this"
      else ("unblocks " ++ str_of_int dependents ++ " other task(s)")%string in
    if mem (key_of (id task)) in_cycle
    then (explanation ++ ", part of a circular dependency (penalised)")%string
    else explanation.

Definition _compute_score_for_strategy
    (urgency importance effort dependency : Q) (strategy : string) : result Q :=
  let strategy := str_or strategy "smart_balance" in
  if String.eqb strategy "fastest_wins" then
    Ok (0.60 * effort + 0.25 * importance + 0.15 * urgency)
  else if String.eqb strategy "high_impact" then
    Ok (0.70 * importance + 0.20 * urgency + 0.10 * dependency)
  else if String.eqb strategy "deadline_driven" then
    Ok (0.70 * urgency + 0.20 * importance + 0.10 * dependency)
  else if String.eqb strategy "smart_balance" then
    Ok (0.35 * importance + 0.30 * urgency + 0.20 * dependency + 0.15 * effort)
  else Raise (StrategyError ("Unknown strategy: " ++ strategy)%string).

(** The four names the combiner accepts. *)
Definition recognized (strategy : string) : bool :=
  String.eqb strategy "fastest_wins" || String.eqb strategy "high_impact"
  || String.eqb strategy "deadline_driven" || String.eqb strategy "smart_balance".

(** The weight the combiner gives a factor is the composite of the unit
    score of that factor alone. *)
Definition weight_of (strategy : string) (u i e d : Q) : Q :=
  match _compute_score_for_strategy u i e d strategy with
  | Ok w => w
  | Raise _ => 0
  end.

Definition urgency_weight (s : string) : Q := weight_of s 1 0 0 0.
Definition importance_weight (s : string) : Q := weight_of s 0 1 0 0.
Definition effort_weight (s : string) : Q := weight_of s 0 0 1 0.
Definition dependency_weight (s : string) : Q := weight_of s 0 0 0 1.

End Combining.

(** ** The strategy combiner on binary64 floats

    The same four expressions as the interpreter evaluates them: every
    constant is the nearest double and every product and sum is rounded to
    the nearest double, left to right. *)

Module Binary64.
Import PrimFloat.
Local Open Scope float_scope.

#[warnings="-inexact-float"]
Definition _compute_score_for_strategy
    (urgency importance effort dependency : float) (strategy : string)
  : result float :=
  let strategy := str_or strategy "smart_balance" in
  if String.eqb strategy "fastest_wins" then
    Ok (0.60 * effort + 0.25 * importance + 0.15 * urgency)
  else if String.eqb strategy "high_impact" then
    Ok (0.70 * importance + 0.20 * urgency + 0.10 * dependency)
  else if String.eqb strategy "deadline_driven" then
    Ok (0.70 * urgency + 0.20 * importance + 0.10 * dependency)
  else if String.eqb strategy "smart_balance" then
    Ok (0.35 * importance + 0.30 * urgency + 0.20 * dependency + 0.15 * effort)
  else Raise (StrategyError ("Unknown strategy: " ++ strategy)%string).

End Binary64.

(** ** Input normaliser *)

Section Normalising.
Context {R : PyRuntime}.

Definition value_is_None (v : value) : bool :=
  match v with VAtom ANone => true | _ => false end.

(** [v or d] *)
Definition value_or (v d : value) : value := if truthy v then v else d.

Definition normalise_title (r : raw_record) : string :=
  str_or (strip (py_str (value_or (get (raw_title r))
                                  (VAtom (AStr "Untitled task")))))
         "Untitled task".

Definition normalise_hours (r : raw_record) : option Q :=
  let est_hours_raw := get (raw_estimated_hours r) in
  if value_is_None est_hours_raw then None else py_float est_hours_raw.

Definition normalise_importance (r : raw_record) : option Z :=
  let imp_raw := get (raw_importance r) in
  if value_is_None imp_raw then None else py_int imp_raw.

Definition normalise_deps (r : raw_record) : list atom :=
  match raw_dependencies r with
  | Some (DepsStr s) =>
      if String.eqb s "" then []
      else
        map (fun d => AStr (strip d))
            (filter (fun d => negb (String.eqb (strip d) "")) (split "," s))
  | Some (DepsList l) => l
  | Some DepsOther | None => []
  end.

(** The body of the loop for a record met at index [idx]. *)
Definition normalise_record (idx : Z) (r : raw_record) : TaskInput :=
  let task_id := match raw_id r with Some a => a | None => AInt idx end in
  mkTaskInput task_id (normalise_title r)
    (_parse_date (get (raw_due_date r)))
    (normalise_hours r) (normalise_importance r) (normalise_deps r).

(** [for idx, raw in enumerate(raw_tasks, start=idx)] *)
Fixpoint normalise_from (idx : Z) (raw_tasks : list raw_entry) : list TaskInput :=
  match raw_tasks with
  | [] => []
  | NotDict :: rest => normalise_from (idx + 1) rest
  | IsDict r :: rest => normalise_record idx r :: normalise_from (idx + 1) rest
  end.

Definition normalise_tasks (raw_tasks : list raw_entry) : list TaskInput :=
  normalise_from 1 raw_tasks.

End Normalising.

(** ** Ranker *)

(** [list.sort(key=...)]: a stable sort that compares keys with [<] only.
    Insertion from the right keeps an element before the equal ones that
    followed it. *)
Section ListSort.
Context {A K : Type}.
Variable key : A -> K.
Variable lt : K -> K -> bool.

Fixpoint insert (x : A) (l : list A) : list A :=
  match l with
  | [] => [x]
  | y :: l' => if lt (key y) (key x) then y :: insert x l' else x :: y :: l'
  end.

Fixpoint list_sort (l : list A) : list A :=
  match l with
  | [] => []
  | x :: l' => insert x (list_sort l')
  end.

(** [x] may stand before [y]: the key of [y] is not below the key of [x]. *)
Definition key_le (x y : A) : Prop := lt (key y) (key x) = false.

(** [a] and [x] have identical keys: neither key is below the other. *)
Definition key_same (a x : A) : bool :=
  negb (lt (key a) (key x)) && negb (lt (key x) (key a)).

End ListSort.

(** A record of the output.  [out_due_date] stands for the ISO string of
    the date, which [sort_key] parses back to the same date. *)
Record ranked_task : Type := mkRanked {
  out_id : atom;
  out_title : string;
  out_due_date : option Z;
  out_estimated_hours : option Q;
  out_importance : option Z;
  out_dependencies : list atom;
  score : Q
}.

Section Ranking.
Context {R : PyRuntime}.
Local Open Scope Q_scope.

(** [round(x)]: to the nearest integer, a tie to the even one. *)
Definition round_half_even (x : Q) : Z :=
  let f := Qfloor x in
  match Qcompare (x - inject_Z f) (1 # 2) with
  | Lt => f
  | Gt => (f + 1)%Z
  | Eq => if Z.even f then f else (f + 1)%Z
  end.

(** [round(x, 2)] *)
Definition round2 (x : Q) : Q := inject_Z (round_half_even (x * 100)) / 100.

Definition Qlt_bool (a b : Q) : bool := negb (Qle_bool b a).

(** [a < b] on tuples of three numbers: decided at the first position
    where they differ. *)
Definition tuple_lt (a b : Q * Q * Q) : bool :=
  let '(a1, a2, a3) := a in
  let '(b1, b2, b3) := b in
  if negb (Qeq_bool a1 b1) then Qlt_bool a1 b1
  else if negb (Qeq_bool a2 b2) then Qlt_bool a2 b2
  else if negb (Qeq_bool a3 b3) then Qlt_bool a3 b3
  else false.

Definition sort_key (today : Z) (item : ranked_task) : Q * Q * Q :=
  let score := if Qeq_bool (score item) 0 then 0.0 else score item in
  let due_weight :=
    match out_due_date item with
    | None => 99999.0
    | Some due => inject_Z (due - today)
    end in
  let importance_val :=
    match out_importance item with
    | None => 0%Z
    | Some i => i
    end in
  (- score, due_weight, - inject_Z importance_val).

(** The body of the scoring loop of [rank_tasks]. *)
Definition score_task (today : Z) (dependents_count : counts)
    (in_cycle : list hkey) (strategy : string) (t : TaskInput)
  : result ranked_task :=
  let urgency := _urgency_score (due_date t) today in
  let importance_s := _importance_score (importance t) in
  let effort := _effort_score (estimated_hours t) in
  let dependency := _dependency_score t dependents_count in_cycle in
  bind (_compute_score_for_strategy urgency importance_s effort dependency strategy)
    (fun s =>
       Ok (mkRanked (id t) (title t) (due_date t) (estimated_hours t)
             (importance t) (dependencies t) (round2 s))).

(** The list [results] before it is sorted. *)
Definition score_tasks (today : Z) (raw_tasks : list raw_entry) (strategy : string)
  : result (list ranked_task) :=
  let tasks := normalise_tasks raw_tasks in
  let '(g, dependents_count) := _build_graph tasks in
  let in_cycle := _detect_cycles g in
  mapM (score_task today dependents_count in_cycle strategy) tasks.

Definition rank_tasks (today : Z) (raw_tasks : list raw_entry) (strategy : string)
  : result (list ranked_task) :=
  bind (score_tasks today raw_tasks strategy)
    (fun results => Ok (list_sort (sort_key today) tuple_lt results)).

End Ranking.

(** ** A runtime for the worked examples

    Decimal integers and fractions in ASCII, and the calendar of
    [datetime.date]: enough of [str], [int], [float] and [strptime] to run
    the engine on concrete inputs.  Exponents, underscores, [inf], [nan] and
    digits outside ASCII are not read. *)

Module PlainRuntime.
Local Open Scope Z_scope.

Definition digits_value (s : string) : option Z :=
  if String.eqb s "" then None
  else option_map Z.of_uint (NilZero.uint_of_string s).

Definition plain_int (s : string) : option Z :=
  match strip s with
  | String "-" r => option_map Z.opp (digits_value r)
  | String "+" r => digits_value r
  | t => digits_value t
  end.

Definition unsigned_decimal (s : string) : option Q :=
  match split "." s with
  | [i] => option_map inject_Z (digits_value i)
  | [i; f] =>
      if String.eqb i "" && String.eqb f "" then None
      else
        match (if String.eqb i "" then Some 0 else digits_value i),
              (if String.eqb f "" then Some 0 else digits_value f) with
        | Some iv, Some fv =>
            Some (inject_Z iv + inject_Z fv / inject_Z (10 ^ Z.of_nat (String.length f)))%Q
        | _, _ => None
        end
  | _ => None
  end.

Definition plain_float (s : string) : option Q :=
  match strip s with
  | String "-" r => option_map Qopp (unsigned_decimal r)
  | String "+" r => unsigned_decimal r
  | t => unsigned_decimal t
  end.

Definition is_leap (y : Z) : bool :=
  (y mod 4 =? 0) && (negb (y mod 100 =? 0) || (y mod 400 =? 0)).

Definition days_in_month (y m : Z) : Z :=
  if m =? 2 then (if is_leap y then 29 else 28)
  else if (m =? 4) || (m =? 6) || (m =? 9) || (m =? 11) then 30
  else 31.

Fixpoint days_before_month (y : Z) (m : nat) : Z :=
  match m with
  | O => 0
  | S m' => days_in_month y (Z.of_nat m') + days_before_month y m'
  end.

(** [date(y, m, d).toordinal()] *)
Definition ordinal (y m d : Z) : Z :=
  let y' := y - 1 in
  y' * 365 + y' / 4 - y' / 100 + y' / 400
  + (days_before_month y (Z.to_nat m) - days_in_month y 0) + d.

(** One or two digits, or for a day a space and a digit. *)
Definition short_field (allow_space : bool) (s : string) : option Z :=
  match s with
  | String " " r =>
      if allow_space && Nat.eqb (String.length r) 1 then
        match digits_value r with
        | Some v => if v =? 0 then None else Some v
        | None => None
        end
      else None
  | _ =>
      if Nat.leb (String.length s) 2 then digits_value s else None
  end.

Definition plain_strptime (s : string) : option Z :=
  match split "-" s with
  | [ys; ms; ds] =>
      if Nat.eqb (String.length ys) 4 then
        match digits_value ys, short_field false ms, short_field true ds with
        | Some y, Some m, Some d =>
            if (1 <=? y) && (1 <=? m) && (m <=? 12) && (1 <=? d)
               && (d <=? days_in_month y m)
            then Some (ordinal y m d) else None
        | _, _, _ => None
        end
      else None
  | _ => None
  end.

Definition plain_repr (v : value) : string :=
  match v with
  | VAtom ANone => "None"
  | VAtom (ABool true) => "True"
  | VAtom (ABool false) => "False"
  | VAtom (AInt z) => NilZero.string_of_int (Z.to_int z)
  | VAtom (AStr s) => s
  | VList [] => "[]"
  | VDict [] => "{}"
  | _ => "..."
  end.

#[export] Instance runtime : PyRuntime := {
  repr := plain_repr;
  float_of_string := plain_float;
  int_of_string := plain_int;
  strptime_ymd := plain_strptime
}.

End PlainRuntime.

(** ** Notions the properties are stated with *)

(** Number of entries of [l] equal to the key [k]. *)
Fixpoint count_key (k : hkey) (l : list hkey) : Z :=
  match l with
  | [] => 0
  | x :: l' => (if hkey_eqb x k then 1 else 0) + count_key k l'
  end.

(** Occurrences of [k] in the dependencies lists of the tasks that have an
    identifier: the tasks the builder does not skip. *)
Fixpoint edge_occurrences (k : hkey) (tasks : list TaskInput) : Z :=
  match tasks with
  | [] => 0
  | t :: ts =>
      (if is_None (id t) then 0 else count_key k (map key_of (dependencies t)))
      + edge_occurrences k ts
  end.


(** [u] depends on [t]: the identifier of [t] is among the dependencies
    of [u]. *)
Definition depends_on (u t : TaskInput) : bool :=
  mem (key_of (id t)) (map key_of (dependencies u)).

(** How many of the tasks [others] depend on [t]. *)
Definition dependers (t : TaskInput) (others : list TaskInput) : Z :=
  Z.of_nat (List.length (filter (fun u => depends_on u t) others)).

(** The dependency factor of a task within one ranking call. *)
Definition ranking_dependency_score (tasks : list TaskInput) (t : TaskInput) : Q :=
  let '(g, dependents_count) := _build_graph tasks in
  _dependency_score t dependents_count (_detect_cycles g).

(** The rationale of the dependency factor within one ranking call. *)
Definition ranking_dependency_note (tasks : list TaskInput) (t : TaskInput)
  : string :=
  let '(g, dependents_count) := _build_graph tasks in
  _dependency_note t dependents_count (_detect_cycles g).

(** A key is a node of the graph exactly when a task carries it as its
    identifier. *)
Definition is_node (tasks : list TaskInput) (k : hkey) : Prop :=
  exists t, In t tasks /\ is_None (id t) = false /\ key_of (id t) = k.

(** The task that decides the edges of the node [k]: the last task that
    carries [k] as its identifier, since [graph[t.id] = deps] overwrites. *)
Fixpoint last_with_key (k : hkey) (tasks : list TaskInput) : option TaskInput :=
  match tasks with
  | [] => None
  | t :: ts =>
      match last_with_key k ts with
      | Some u => Some u
      | None =>
          if negb (is_None (id t)) && hkey_eqb (key_of (id t)) k
          then Some t else None
      end
  end.

(** A node the traversal has left: visited and no longer on the stack. *)
Definition finished (st : dfs_state) (x : hkey) : Prop :=
  In x (visited st) /\ ~ In x (stack st).

(** Every finished node that lies on a cycle of length one or two is
    flagged together with the other node of the cycle. *)
Definition short_cycles_flagged (g : graph) (st : dfs_state) : Prop :=
  forall x y, finished st x ->
    In y (neighbours g x) -> In x (neighbours g y) ->
    In x (in_cycle st) /\ In y (in_cycle st).

(** What one call [visit(node)] guarantees, from the state [st] at the call
    to the state [st'] at the return. *)
Definition visit_post (g : graph) (node : hkey) (st st' : dfs_state) : Prop :=
  stack st' = stack st
  /\ incl (visited st) (visited st')
  /\ incl (in_cycle st) (in_cycle st')
  /\ (In node (stack st) -> incl (stack st) (in_cycle st'))
  /\ (~ In node (stack st) -> In node (visited st'))
  /\ (short_cycles_flagged g st -> short_cycles_flagged g st').

(** What the loop over the neighbours [l] guarantees. *)
Definition loop_post (g : graph) (l : list hkey) (st st' : dfs_state) : Prop :=
  stack st' = stack st
  /\ incl (visited st) (visited st')
  /\ incl (in_cycle st) (in_cycle st')
  /\ (forall y, In y l ->
        (In y (stack st) -> incl (stack st) (in_cycle st'))
        /\ (~ In y (stack st) -> In y (visited st')))
  /\ (short_cycles_flagged g st -> short_cycles_flagged g st').

(** Nodes of [g] that are not yet visited. *)
Definition unvisited (g : graph) (vis : list hkey) : nat :=
  List.length (filter (fun x => negb (mem x vis)) (all_nodes g)).


(** Days until due as the ranker orders them: a task with no due date
    counts as due in 99999 days. *)
Definition days_until_due (today : Z) (item : ranked_task) : Z :=
  match out_due_date item with
  | Some due => due - today
  | None => 99999
  end.

(** Importance as the ranker orders it: missing importance counts as 0. *)
Definition importance_or_zero (item : ranked_task) : Z :=
  match out_importance item with
  | Some i => i
  | None => 0
  end.

(** The order of the output in words: higher score first, then fewer days
    until due, then higher importance. *)
Definition ranks_before (today : Z) (a b : ranked_task) : Prop :=
  (score b < score a)%Q
  \/ ((score a == score b)%Q
      /\ (days_until_due today a < days_until_due today b
          \/ (days_until_due today a = days_until_due today b
              /\ importance_or_zero b <= importance_or_zero a))).

(** The two tasks have identical sort keys. *)
Definition same_key (today : Z) (a b : ranked_task) : bool :=
  Qeq_bool (score a) (score b)
  && (days_until_due today a =? days_until_due today b)
  && (importance_or_zero a =? importance_or_zero b).

(** ** A worked example

    Four raw entries on 2026-11-03: a book to read, an entry that is not a
    record, an overdue invoice, and a record with no id and a blank title
    that names itself and the invoice as dependencies. *)

Definition example_today : Z := 739923.

Definition example_raw : list raw_entry :=
  [IsDict (mkRaw (Some (AInt 2)) (Some (VAtom (AStr "Read book")))
             (Some (VAtom ANone)) (Some (VAtom (AInt 10)))
             (Some (VAtom (AInt 2))) None);
   NotDict;
   IsDict (mkRaw (Some (AInt 1)) (Some (VAtom (AStr "Pay invoice")))
             (Some (VAtom (AStr "2026-11-01"))) (Some (VAtom (AFloat 0.5)))
             (Some (VAtom (AInt 9))) (Some (DepsStr "2, 3, 2")));
   IsDict (mkRaw None (Some (VAtom (AStr "  ")))
             (Some (VAtom (AStr "2026-11-10"))) (Some (VAtom (AStr "3")))
             (Some (VAtom (AStr "x"))) (Some (DepsList [AInt 4; AInt 1])))].

(** ** Notions for the further properties *)

(** The task a ranked record was made from: the record without its
    score. *)
Definition task_of_ranked (r : ranked_task) : TaskInput :=
  mkTaskInput (out_id r) (out_title r) (out_due_date r)
    (out_estimated_hours r) (out_importance r) (out_dependencies r).

Definition is_dict (e : raw_entry) : bool :=
  match e with IsDict _ => true | NotDict => false end.

(** Number of entries of the raw input that are records. *)
Definition count_records (raw : list raw_entry) : nat :=
  List.length (filter is_dict raw).



(** The task has an identifier: the builder does not skip it. *)
Definition identified (t : TaskInput) : bool := negb (is_None (id t)).

(** [k] is the identifier of one of the tasks. *)
Definition is_task_key (tasks : list TaskInput) (k : hkey) : bool :=
  existsb (fun t => identified t && hkey_eqb (key_of (id t)) k) tasks.

(** Number of edges of the graph that end in [k]. *)
Fixpoint in_degree (k : hkey) (g : graph) : Z :=
  match g with
  | [] => 0
  | (_, deps) :: g' => count_key k deps + in_degree k g'
  end.

(** [x] depends on [y] in the graph. *)
Definition edge (g : graph) (x y : hkey) : Prop := In y (neighbours g x).

(** The graph has no directed cycle. *)
Definition acyclic (g : graph) : Prop :=
  forall x, ~ clos_trans hkey (edge g) x x.

(** From [x] the edges lead to a node that lies on a directed cycle. *)
Definition reaches_cycle (g : graph) (x : hkey) : Prop :=
  exists c, clos_refl_trans hkey (edge g) x c /\ clos_trans hkey (edge g) c c.

(** The stack, newest node first, is a path of the graph: each node is a
    dependency of the one pushed before it. *)
Fixpoint is_chain (g : graph) (s : list hkey) : Prop :=
  match s with
  | [] => True
  | x :: s' =>
      match s' with
      | [] => True
      | y :: _ => edge g y x /\ is_chain g s'
      end
  end.

(** [visit(node)] is called from the loop over the nodes, or for a
    dependency of the node on top of the stack. *)
Definition called_from (g : graph) (s : list hkey) (node : hkey) : Prop :=
  match s with
  | [] => True
  | top :: _ => edge g top node
  end.

(** The character [c] occurs in [s]. *)
Fixpoint occurs (c : ascii) (s : string) : bool :=
  match s with
  | EmptyString => false
  | String c' r => Ascii.eqb c' c || occurs c r
  end.

(** [sep.join(l)] for a one-character separator. *)
Fixpoint join (sep : ascii) (l : list string) : string :=
  match l with
  | [] => EmptyString
  | [s] => s
  | s :: l' => (s ++ String sep (join sep l'))%string
  end.

(** The composite score of a task within one ranking call, before it is
    rounded. *)
Definition composite (today : Z) (tasks : list TaskInput) (strategy : string)
    (t : TaskInput) : result Q :=
  _compute_score_for_strategy
    (_urgency_score (due_date t) today)
    (_importance_score (importance t))
    (_effort_score (estimated_hours t))
    (ranking_dependency_score tasks t)
    strategy.


(** Every flagged node leads to a directed cycle. *)
Definition flags_sound (g : graph) (st : dfs_state) : Prop :=
  forall x, In x (in_cycle st) -> reaches_cycle g x.

(** As long as nothing is flagged, the finished nodes are closed under the
    edges and none of them lies on a directed cycle. *)
Definition acyclic_so_far (g : graph) (st : dfs_state) : Prop :=
  in_cycle st = [] ->
  (forall x y, finished st x -> edge g x y -> finished st y)
  /\ (forall x, finished st x -> ~ clos_trans hkey (edge g) x x).

(** ** Payload extraction ([src/tasks/serializers.py])

    A JSON object is the list of its members; [dict_get] is [payload.get].
    The call ends in a pair, in a [PayloadError], or in the
    [AttributeError] of [.strip()] on a strategy that is not a string,
    which the function does not catch. *)

Fixpoint dict_get (k : string) (d : list (string * value)) : option value :=
  match d with
  | [] => None
  | (k', v) :: d' => if String.eqb k' k then Some v else dict_get k d'
  end.

Inductive extraction : Type :=
| Extracted (tasks_raw : list value) (strategy : string)
| PayloadError (msg : string)
| AttributeError.

Definition extract_tasks_and_strategy (payload : value) : extraction :=
  match payload with
  | VList l => Extracted l "smart_balance"
  | VDict d =>
      let tasks_raw := value_or (get (dict_get "tasks" d)) (VList []) in
      match value_or (get (dict_get "strategy" d))
              (VAtom (AStr "smart_balance")) with
      | VAtom (AStr s) =>
          let strategy := strip s in
          match tasks_raw with
          | VList l => Extracted l strategy
          | _ => PayloadError "`tasks` must be a JSON array of task objects"
          end
      | _ => AttributeError
      end
  | VAtom _ => PayloadError "Payload must be a JSON object or array"
  end.

(** ** The HTTP views ([src/tasks/views.py])

    A request is its method, its body decoded as UTF-8 ([None] when the
    decoding raises) and its query parameters, each name bound to the
    value that [request.GET.get] gives for it.  A response is a status, the
    data given to [JsonResponse] and the headers.  A view answers with a
    response or lets an exception escape that it does not catch; the
    exceptions that are outside the embedding escape the views as well, so
    what is stated of a response is stated for a view that responds.
    [json.loads], the reading of the members of a task object and the
    reference date are parameters of the views. *)

Record http_request : Type := mkRequest {
  method : string;
  body : option string;
  query : list (string * string)
}.

Inductive content : Type :=
| Detail (message : string)
| EmptyObject
| RankedList (items : list ranked_task).

Record http_response : Type := mkResponse {
  status : Z;
  data : content;
  headers : list (string * string)
}.

Inductive served : Type :=
| Responds (response : http_response)
| Escapes.

(** [request.GET.get(k)] and [response[k]] *)
Fixpoint param_get (k : string) (l : list (string * string)) : option string :=
  match l with
  | [] => None
  | (k', v) :: l' => if String.eqb k' k then Some v else param_get k l'
  end.

(** [response[k] = v] *)
Fixpoint header_set (k v : string) (l : list (string * string))
  : list (string * string) :=
  match l with
  | [] => [(k, v)]
  | (k', v') :: l' =>
      if String.eqb k' k then (k', v) :: l' else (k', v') :: header_set k v l'
  end.

Definition JsonResponse (d : content) (st : Z) : http_response :=
  mkResponse st d [("Content-Type", "application/json")].

Definition _add_cors_headers (response : http_response) : http_response :=
  mkResponse (status response) (data response)
    (header_set "Access-Control-Allow-Headers" "Content-Type"
       (header_set "Access-Control-Allow-Methods" "GET, POST, OPTIONS"
          (header_set "Access-Control-Allow-Origin" "*" (headers response)))).

Definition _json_error (message : string) (st : Z) : http_response :=
  _add_cors_headers (JsonResponse (Detail message) st).

Section Views.
Context {R : PyRuntime}.

(** [json.loads]; [None] for [JSONDecodeError] *)
Variable json_loads : string -> option value.
(** The members of a task object as [raw.get] finds them. *)
Variable read_record : list (string * value) -> raw_record.
(** [date.today()] *)
Variable today : Z.

Definition read_entry (v : value) : raw_entry :=
  match v with
  | VDict d => IsDict (read_record d)
  | _ => NotDict
  end.

(** The call [rank_tasks(tasks_raw, strategy)] and the handler of
    [StrategyError] after it; [finish] makes the data of the answer. *)
Definition answer_ranking (tasks_raw : list value) (strategy : string)
    (finish : list ranked_task -> list ranked_task) : served :=
  match rank_tasks today (map read_entry tasks_raw) strategy with
  | Raise (StrategyError msg) => Responds (_json_error msg 400)
  | Ok ranked =>
      Responds (_add_cors_headers (JsonResponse (RankedList (finish ranked)) 200))
  end.

Definition analyze_tasks (request : http_request) : served :=
  if String.eqb (method request) "OPTIONS" then
    Responds (_add_cors_headers (JsonResponse EmptyObject 200))
  else if negb (String.eqb (method request) "POST") then
    Responds (_json_error "Method not allowed" 405)
  else
    match body request with
    | None => Escapes
    | Some text =>
        let raw_body := str_or text "{}" in
        match json_loads raw_body with
        | None => Responds (_json_error "Invalid JSON payload" 400)
        | Some payload =>
            match extract_tasks_and_strategy payload with
            | PayloadError msg => Responds (_json_error msg 400)
            | AttributeError => Escapes
            | Extracted tasks_raw strategy =>
                answer_ranking tasks_raw strategy (fun ranked => ranked)
            end
        end
    end.

Definition suggest_tasks (request : http_request) : served :=
  if String.eqb (method request) "OPTIONS" then
    Responds (_add_cors_headers (JsonResponse EmptyObject 200))
  else if negb (String.eqb (method request) "GET") then
    Responds (_json_error "Method not allowed" 405)
  else
    let strategy :=
      strip (match param_get "strategy" (query request) with
             | Some s => str_or s "smart_balance"
             | None => "smart_balance"
             end) in
    match param_get "tasks" (query request) with
    | None | Some EmptyString =>
        Responds
          (_json_error
             "No tasks provided. Pass a `tasks` query parameter containing a JSON array."
             400)
    | Some raw_tasks_param =>
        match json_loads raw_tasks_param with
        | None =>
            Responds (_json_error "`tasks` query parameter must be valid JSON" 400)
        | Some (VList tasks_raw) =>
            answer_ranking tasks_raw strategy (firstn 3)
        | Some _ => Responds (_json_error "`tasks` must be a JSON array" 400)
        end
    end.

End Views.

(** ** A reading of task objects for the worked examples

    Identifiers that are scalars and dependencies that are a string or a
    list of scalars; a few JSON texts with their values. *)

Module PlainReading.

Definition read_id (o : option value) : option atom :=
  match o with
  | Some (VAtom a) => Some a
  | _ => None
  end.

Fixpoint atoms (l : list value) : list atom :=
  match l with
  | [] => []
  | VAtom a :: l' => a :: atoms l'
  | _ :: l' => atoms l'
  end.

Definition read_deps (o : option value) : option raw_deps :=
  match o with
  | None => None
  | Some (VAtom (AStr s)) => Some (DepsStr s)
  | Some (VList l) => Some (DepsList (atoms l))
  | Some _ => Some DepsOther
  end.

Definition read_record (d : list (string * value)) : raw_record :=
  mkRaw (read_id (dict_get "id" d)) (dict_get "title" d)
    (dict_get "due_date" d) (dict_get "estimated_hours" d)
    (dict_get "importance" d) (read_deps (dict_get "dependencies" d)).

(** [json.loads] on the texts the examples send. *)
Definition loads (s : string) : option value :=
  if String.eqb s "{}" then Some (VDict [])
  else if String.eqb s "[]" then Some (VList [])
  else if String.eqb s "[{}, {}, {}, {}]" then
    Some (VList [VDict []; VDict []; VDict []; VDict []])
  else if String.eqb s "[1, 2]" then Some (VList [VAtom (AInt 1); VAtom (AInt 2)])
  else if String.eqb s "7" then Some (VAtom (AInt 7))
  else None.

End PlainReading.

(** The answers a view can give. *)
Inductive view_answer : http_response -> Prop :=
| answer_ok_empty :
    view_answer (_add_cors_headers (JsonResponse EmptyObject 200))
| answer_ok_ranked items :
    view_answer (_add_cors_headers (JsonResponse (RankedList items) 200))
| answer_bad_request message :
    view_answer (_json_error message 400)
| answer_not_allowed :
    view_answer (_json_error "Method not allowed" 405).

(** * Properties *)

Section FactorScores.
Local Open Scope Q_scope.

Lemma Qle_bool_false (a b : Q) : Qle_bool a b = false <-> b < a.
Proof.
  split; intro H.
  - apply Qnot_le_lt. intro Hle. apply Qle_bool_iff in Hle. congruence.
  - destruct (Qle_bool a b) eqn:E; [|reflexivity].
    apply Qle_bool_iff in E. lra.
Qed.

Lemma py_max_zero (h : Q) :
  (h <= 0 /\ py_max 0.0 h == 0) \/ (0 < h /\ py_max 0.0 h == h).
Proof.
  unfold py_max. destruct (Qle_bool h 0.0) eqn:E.
  - left. apply Qle_bool_iff in E. split; [lra|reflexivity].
  - right. apply Qle_bool_false in E. split; [lra|reflexivity].
Qed.

(** The urgency score as a function of the days until due. *)
Lemma urgency_by_delta (d today : Z) :
  let delta := (d - today)%Z in
  ((delta < 0)%Z /\ _urgency_score (Some d) today == 100)
  \/ (delta = 0%Z /\ _urgency_score (Some d) today == 95)
  \/ ((1 <= delta <= 30)%Z
      /\ _urgency_score (Some d) today == 30 + (30 - inject_Z delta) * 2)
  \/ ((30 < delta)%Z /\ _urgency_score (Some d) today == 20).
Proof.
  intros delta. unfold _urgency_score. fold delta.
  destruct (Z.ltb_spec delta 0); [left; split; [lia|reflexivity]|].
  destruct (Z.eqb_spec delta 0); [right; left; split; [lia|reflexivity]|].
  destruct (Z.leb_spec delta 30).
  - right; right; left. split; [lia|].
    replace (30 - delta)%Z with (30 + - delta)%Z by lia.
    rewrite inject_Z_plus, inject_Z_opp. change (inject_Z 30) with 30. field.
  - right; right; right. split; [lia|reflexivity].
Qed.

Lemma urgency_monotone (today d1 d2 : Z) :
  (d1 <= d2)%Z -> _urgency_score (Some d2) today <= _urgency_score (Some d1) today.
Proof.
  intros Hle.
  pose proof (urgency_by_delta d1 today) as H1.
  pose proof (urgency_by_delta d2 today) as H2.
  cbv zeta in H1, H2.
  assert (Hd : inject_Z (d1 - today) <= inject_Z (d2 - today))
    by (rewrite <- Zle_Qle; lia).
  assert (B1 : (1 <= d1 - today)%Z -> 1 <= inject_Z (d1 - today))
    by (intro; change 1 with (inject_Z 1); rewrite <- Zle_Qle; lia).
  assert (B2 : (d2 - today <= 30)%Z -> inject_Z (d2 - today) <= 30)
    by (intro; change 30 with (inject_Z 30); rewrite <- Zle_Qle; lia).
  assert (B3 : (1 <= d2 - today)%Z -> 1 <= inject_Z (d2 - today))
    by (intro; change 1 with (inject_Z 1); rewrite <- Zle_Qle; lia).
  assert (B4 : (d1 - today <= 30)%Z -> inject_Z (d1 - today) <= 30)
    by (intro; change 30 with (inject_Z 30); rewrite <- Zle_Qle; lia).
  destruct H1 as [[C1 E1]|[[C1 E1]|[[C1 E1]|[C1 E1]]]];
  destruct H2 as [[C2 E2]|[[C2 E2]|[[C2 E2]|[C2 E2]]]];
  try lia; rewrite E1, E2; try lra;
  try (specialize (B1 ltac:(lia))); try (specialize (B2 ltac:(lia)));
  try (specialize (B3 ltac:(lia))); try (specialize (B4 ltac:(lia))); lra.
Qed.

(** The effort score as a function of the hours. *)
Lemma effort_by_hours (h : Q) :
  (h <= 0 /\ _effort_score (Some h) == 100)
  \/ (0 < h <= 1 /\ _effort_score (Some h) == 95)
  \/ (1 < h <= 4 /\ _effort_score (Some h) == 95 - (h - 1) * (35 # 3))
  \/ (4 < h <= 8 /\ _effort_score (Some h) == 60 - (h - 4) * (15 # 2))
  \/ (8 < h /\ _effort_score (Some h) == 20).
Proof.
  unfold _effort_score, py_max.
  destruct (Qle_bool h 0.0) eqn:E0.
  - apply Qle_bool_iff in E0. left. split; [lra | first [reflexivity | field]].
  - apply Qle_bool_false in E0. right.
    destruct (Qeq_bool h 0) eqn:Ez.
    { apply Qeq_bool_iff in Ez. lra. }
    destruct (Qle_bool h 1) eqn:E1.
    { apply Qle_bool_iff in E1. left. split; [lra | first [reflexivity | field]]. }
    apply Qle_bool_false in E1. right.
    destruct (Qle_bool h 4) eqn:E4.
    { apply Qle_bool_iff in E4. left. split; [lra | first [reflexivity | field]]. }
    apply Qle_bool_false in E4. right.
    destruct (Qle_bool h 8) eqn:E8.
    { apply Qle_bool_iff in E8. left. split; [lra | first [reflexivity | field]]. }
    apply Qle_bool_false in E8. right. split; [lra | first [reflexivity | field]].
Qed.

Lemma effort_monotone (h1 h2 : Q) :
  h1 <= h2 -> _effort_score (Some h2) <= _effort_score (Some h1).
Proof.
  intros Hle.
  destruct (effort_by_hours h1) as [[C1 E1]|[[C1 E1]|[[C1 E1]|[[C1 E1]|[C1 E1]]]]];
  destruct (effort_by_hours h2) as [[C2 E2]|[[C2 E2]|[[C2 E2]|[[C2 E2]|[C2 E2]]]]];
  rewrite E1, E2; lra.
Qed.

End FactorScores.

(** C7: for a fixed reference date the urgency score never increases with
    the days until due, from overdue to far future; no due date scores 50;
    among overdue tasks the more overdue one scores at least as much; from
    1 to 30 days until due the score is 30 + (30 - days) * 2, and 20 beyond
    30 days. *)
Theorem urgency_score_shape (today : Z) :
  (_urgency_score None today == 50)%Q
  /\ (forall d1 d2, d1 - today <= d2 - today ->
        (_urgency_score (Some d2) today <= _urgency_score (Some d1) today)%Q)
  /\ (forall d1 d2, d1 < today -> d2 < today -> today - d2 <= today - d1 ->
        (_urgency_score (Some d2) today <= _urgency_score (Some d1) today)%Q)
  /\ (forall d, 1 <= d - today <= 30 ->
        (_urgency_score (Some d) today == 30 + (30 - inject_Z (d - today)) * 2.0)%Q)
  /\ (forall d, 30 < d - today -> (_urgency_score (Some d) today == 20.0)%Q).
Proof.
  split; [reflexivity|].
  split; [intros; apply urgency_monotone; lia|].
  split; [intros; apply urgency_monotone; lia|].
  split; intros d Hd;
    destruct (urgency_by_delta d today) as [[C E]|[[C E]|[[C E]|[C E]]]];
    try lia; rewrite E; first [reflexivity | field].
Qed.

Lemma urgency_score_shape_witness :
  (_urgency_score (Some 739930%Z) 739923%Z == 30 + (30 - inject_Z 7) * 2.0)%Q
  /\ (_urgency_score (Some 739930%Z) 739923%Z
      <= _urgency_score (Some 739920%Z) 739923%Z)%Q.
Proof.
  destruct (urgency_score_shape 739923) as (_ & Hmono & _ & Hlin & _).
  split.
  - apply (Hlin 739930). lia.
  - apply (Hmono 739920 739930). lia.
Defined.

(** C8: the effort score never increases with the hours, negative hours
    counting as zero, and follows the piecewise shape: 100 at 0 hours, 95
    on (0,1], the line from 95 down to 60 on (1,4], the line from 60 down
    to 30 on (4,8], and 20 above 8 hours. *)
Theorem effort_score_shape :
  (forall h1 h2 : Q, h1 <= h2 ->
     _effort_score (Some h2) <= _effort_score (Some h1))%Q
  /\ (forall h : Q, h <= 0 -> _effort_score (Some h) == 100.0)%Q
  /\ (forall h : Q, 0 < h <= 1 -> _effort_score (Some h) == 95.0)%Q
  /\ (forall h : Q, 1 < h <= 4 ->
        _effort_score (Some h) == 95.0 + (h - 1) / (4 - 1) * (60.0 - 95.0))%Q
  /\ (forall h : Q, 4 < h <= 8 ->
        _effort_score (Some h) == 60.0 + (h - 4) / (8 - 4) * (30.0 - 60.0))%Q
  /\ (forall h : Q, 8 < h -> _effort_score (Some h) == 20.0)%Q.
Proof.
  split; [exact effort_monotone|].
  repeat split; intros h Hh;
    destruct (effort_by_hours h) as [[C E]|[[C E]|[[C E]|[[C E]|[C E]]]]];
    try lra; rewrite E; try reflexivity; field.
Qed.

Lemma effort_score_shape_witness :
  (_effort_score (Some 4) == 60.0 /\ _effort_score (Some 8) == 30.0
   /\ _effort_score (Some 8) <= _effort_score (Some 2.5))%Q.
Proof.
  destruct effort_score_shape as (Hmono & _ & _ & H14 & H48 & _).
  split; [|split].
  - rewrite (H14 4%Q); [reflexivity | split; reflexivity || discriminate].
  - rewrite (H48 8%Q); [reflexivity | split; reflexivity || discriminate].
  - apply (Hmono 2.5%Q 8%Q). discriminate.
Defined.


Section StrategyCombiner.
Local Open Scope Q_scope.

Lemma recognized_cases (s : string) :
  recognized s = true ->
  s = "fastest_wins" \/ s = "high_impact" \/ s = "deadline_driven"
  \/ s = "smart_balance".
Proof.
  unfold recognized. rewrite !orb_true_iff, !String.eqb_eq. tauto.
Qed.

Lemma str_or_nonempty (s d : string) : s <> "" -> str_or s d = s.
Proof.
  intros Hs. unfold str_or. destruct (String.eqb_spec s ""); congruence.
Qed.

Lemma unrecognized_raises (u i e d : Q) (s : string) :
  s <> "" -> recognized s = false ->
  _compute_score_for_strategy u i e d s
  = Raise (StrategyError ("Unknown strategy: " ++ s)%string).
Proof.
  intros Hs Hr. unfold recognized in Hr.
  rewrite !orb_false_iff in Hr. destruct Hr as (((H1 & H2) & H3) & H4).
  unfold _compute_score_for_strategy. rewrite (str_or_nonempty _ _ Hs).
  now rewrite H1, H2, H3, H4.
Qed.


Lemma mapM_ext {A B : Type} (f g : A -> result B) (l : list A) :
  (forall x, f x = g x) -> mapM f l = mapM g l.
Proof.
  intros H. induction l as [|x l IH]; simpl; [reflexivity|].
  now rewrite H, IH.
Qed.

End StrategyCombiner.

Section WeightsInBinary64.
Import PrimFloat.

(** C2, as the code has it: for each of the four recognized strategies the
    weights the combiner applies are non-negative, and the composite of
    factor scores in [0,100] lies in [0,100] before rounding, with 0 for
    all scores 0 and 100 for all scores 100 also in binary64.  The sum of
    the weights, as the combiner adds them in binary64 at unit scores, is
    1.0 for [fastest_wins] only; for the other three strategies it is
    0.9999999999999999, the double below 1. *)
#[warnings="-inexact-float"]
Theorem strategy_weights_bound (s : string) :
  recognized s = true ->
  (0 <= urgency_weight s /\ 0 <= importance_weight s
   /\ 0 <= effort_weight s /\ 0 <= dependency_weight s)%Q
  /\ (forall u i e d : Q,
        exists c : Q,
          _compute_score_for_strategy u i e d s = Ok c
          /\ ((0 <= u <= 100)%Q -> (0 <= i <= 100)%Q -> (0 <= e <= 100)%Q ->
              (0 <= d <= 100)%Q -> (0 <= c <= 100)%Q))
  /\ Binary64._compute_score_for_strategy 1 1 1 1 s
     = Ok (if String.eqb s "fastest_wins" then 1 else 0.9999999999999999)%float
  /\ Binary64._compute_score_for_strategy 0 0 0 0 s = Ok 0%float
  /\ Binary64._compute_score_for_strategy 100 100 100 100 s = Ok 100%float.
Proof.
  intros Hs.
  destruct (recognized_cases s Hs) as [-> | [-> | [-> | ->]]];
    (split; [repeat split; vm_compute; discriminate|]);
    (split; [intros u i e d; eexists; (split; [reflexivity|]); intros; lra|]);
    (split; [vm_compute; reflexivity|]);
    (split; vm_compute; reflexivity).
Qed.

Lemma strategy_weights_bound_witness :
  exists c : Q,
    _compute_score_for_strategy 100.0 50.0 95.0 41.25 "high_impact" = Ok c
    /\ (0 <= c <= 100)%Q.
Proof.
  destruct (strategy_weights_bound "high_impact" eq_refl) as (_ & H & _).
  destruct (H 100.0 50.0 95.0 41.25)%Q as (c & Hc & Hb).
  exists c. split; [exact Hc|].
  apply Hb; split; discriminate.
Defined.

(** C2 on the code: under [smart_balance], [high_impact] and
    [deadline_driven] the weights do not sum to 1.0: the combiner at unit
    scores, which adds the weights themselves, returns a double strictly
    below 1. *)
#[warnings="-inexact-float"]
Lemma weights_sum_below_one_in_binary64 :
  Binary64._compute_score_for_strategy 1 1 1 1 "smart_balance"
  = Ok (0.35 + 0.30 + 0.20 + 0.15)%float
  /\ Binary64._compute_score_for_strategy 1 1 1 1 "high_impact"
     = Ok (0.70 + 0.20 + 0.10)%float
  /\ Binary64._compute_score_for_strategy 1 1 1 1 "deadline_driven"
     = Ok (0.70 + 0.20 + 0.10)%float
  /\ (0.35 + 0.30 + 0.20 + 0.15 <? 1)%float = true
  /\ (0.70 + 0.20 + 0.10 <? 1)%float = true
  /\ (0.35 + 0.30 + 0.20 + 0.15)%float <> 1%float
  /\ (0.70 + 0.20 + 0.10)%float <> 1%float.
Proof.
  repeat (split; [vm_compute; reflexivity|]).
  split; intros H; apply (f_equal (fun x => (x <? 1)%float)) in H;
    vm_compute in H; discriminate H.
Qed.

End WeightsInBinary64.

Section StrategyInRanking.
Context {R : PyRuntime}.

Lemma score_tasks_unrecognized (today : Z) (raw : list raw_entry) (s : string) :
  s <> "" -> recognized s = false -> normalise_tasks raw <> [] ->
  score_tasks today raw s
  = Raise (StrategyError ("Unknown strategy: " ++ s)%string).
Proof.
  intros Hs Hr Hne. unfold score_tasks.
  destruct (_build_graph (normalise_tasks raw)) as [g c].
  destruct (normalise_tasks raw) as [|t ts]; [congruence|].
  simpl. unfold score_task at 1.
  now rewrite (unrecognized_raises _ _ _ _ s Hs Hr).
Qed.

Lemma score_tasks_empty_strategy (today : Z) (raw : list raw_entry) :
  score_tasks today raw "" = score_tasks today raw "smart_balance".
Proof.
  unfold score_tasks.
  destruct (_build_graph (normalise_tasks raw)) as [g c].
  apply mapM_ext. intros t. reflexivity.
Qed.

End StrategyInRanking.

(** No score is computed for an empty task list, so no name is rejected
    there. *)
Lemma rank_tasks_without_tasks {R : PyRuntime} (today : Z) (s : string) :
  rank_tasks today [] s = Ok [].
Proof. reflexivity. Qed.



Section NormaliserFacts.
Context {R : PyRuntime}.

Lemma normalise_from_app (idx : Z) (l1 l2 : list raw_entry) :
  normalise_from idx (l1 ++ l2)
  = normalise_from idx l1 ++ normalise_from (idx + Z.of_nat (List.length l1)) l2.
Proof.
  revert idx. induction l1 as [|e l1 IH]; intros idx.
  - simpl. now rewrite Z.add_0_r.
  - cbn [List.app normalise_from List.length]. rewrite !IH.
    replace (idx + 1 + Z.of_nat (List.length l1))
      with (idx + Z.of_nat (S (List.length l1))) by lia.
    destruct e; reflexivity.
Qed.

Lemma normalise_from_In (idx : Z) (raw : list raw_entry) (t : TaskInput) :
  In t (normalise_from idx raw) ->
  exists (i : Z) (r : raw_record),
    In (IsDict r) raw /\ idx <= i /\ t = normalise_record i r.
Proof.
  revert idx. induction raw as [|e raw IH]; intros idx Hin; [destruct Hin|].
  destruct e as [|r]; cbn [normalise_from] in Hin.
  - destruct (IH _ Hin) as (i & r & Hr & Hi & Ht).
    exists i, r. split; [now right|]. split; [lia|exact Ht].
  - destruct Hin as [<-|Hin].
    + exists idx, r. split; [now left|]. split; [lia|reflexivity].
    + destruct (IH _ Hin) as (i & r' & Hr & Hi & Ht).
      exists i, r'. split; [now right|]. split; [lia|exact Ht].
Qed.

Lemma str_or_not_empty (s d : string) : d <> "" -> str_or s d <> "".
Proof.
  intros Hd. unfold str_or. destruct (String.eqb_spec s ""); congruence.
Qed.

Lemma normalise_title_not_empty (r : raw_record) : normalise_title r <> "".
Proof.
  unfold normalise_title. apply str_or_not_empty. discriminate.
Qed.

Lemma normalise_title_blank (r : raw_record) :
  (raw_title r = None -> normalise_title r = "Untitled task")
  /\ (forall s, raw_title r = Some (VAtom (AStr s)) -> strip s = "" ->
      normalise_title r = "Untitled task").
Proof.
  unfold normalise_title. split.
  - intros ->. reflexivity.
  - intros s -> Hs. unfold value_or, get, truthy.
    destruct (String.eqb_spec s "") as [->|Hne]; cbn [negb]; [reflexivity|].
    cbn [py_str]. now rewrite Hs.
Qed.

Lemma normalise_record_id (idx : Z) (r : raw_record) :
  id (normalise_record idx r)
  = match raw_id r with Some a => a | None => AInt idx end.
Proof. reflexivity. Qed.

End NormaliserFacts.

(** C3, as the code has it: a record with no [id] field gets as its id its
    1-based position in the raw input sequence, skipped entries included;
    the tasks keep the order of their records. *)
Theorem default_id_is_raw_position {R : PyRuntime}
    (pre post : list raw_entry) (r : raw_record) :
  raw_id r = None ->
  exists (t : TaskInput) (rest : list TaskInput),
    normalise_tasks (pre ++ IsDict r :: post) = normalise_tasks pre ++ t :: rest
    /\ id t = AInt (Z.of_nat (List.length pre) + 1).
Proof.
  intros Hid. unfold normalise_tasks. rewrite normalise_from_app.
  cbn [normalise_from]. eexists. eexists. split; [reflexivity|].
  rewrite normalise_record_id, Hid. f_equal. lia.
Qed.

Lemma default_id_is_raw_position_witness :
  exists (t : TaskInput) (rest : list TaskInput),
    normalise_tasks (R := PlainRuntime.runtime)
      ([NotDict] ++ IsDict (mkRaw None (Some (VAtom (AStr "X"))) None None None None) :: [])
    = [] ++ t :: rest
    /\ id t = AInt 2.
Proof.
  exact (default_id_is_raw_position (R := PlainRuntime.runtime) [NotDict] []
           (mkRaw None (Some (VAtom (AStr "X"))) None None None None) eq_refl).
Defined.

(** The example of C3 on the code: the input ["not a record", {"title": "X"}]
    yields one task, and its id is 2. *)
Lemma default_id_counts_skipped_entries :
  normalise_tasks (R := PlainRuntime.runtime)
    [NotDict; IsDict (mkRaw None (Some (VAtom (AStr "X"))) None None None None)]
  = [mkTaskInput (AInt 2) "X" None None None []]
  /\ AInt 2 <> AInt 1.
Proof.
  split; [reflexivity|discriminate].
Qed.

(** C4, as the code has it: every task the normaliser produces has a
    non-empty title, the placeholder when the raw title is missing or
    blank; its id is null exactly when the raw record carries an [id] field
    whose value is null. *)
Theorem normalised_title_and_id {R : PyRuntime}
    (raw : list raw_entry) (t : TaskInput) :
  In t (normalise_tasks raw) ->
  title t <> ""
  /\ exists (idx : Z) (r : raw_record),
       In (IsDict r) raw /\ t = normalise_record idx r
       /\ (id t = ANone <-> raw_id r = Some ANone)
       /\ (raw_title r = None -> title t = "Untitled task")
       /\ (forall s, raw_title r = Some (VAtom (AStr s)) -> strip s = "" ->
           title t = "Untitled task").
Proof.
  intros Hin. destruct (normalise_from_In _ _ _ Hin) as (i & r & Hr & _ & ->).
  split; [apply normalise_title_not_empty|].
  exists i, r. split; [exact Hr|]. split; [reflexivity|].
  split; [|exact (normalise_title_blank r)].
  rewrite normalise_record_id. destruct (raw_id r) as [a|].
  - split; [now intros ->|now intros [= ->]].
  - split; discriminate.
Qed.

Lemma normalised_title_and_id_witness :
  title (mkTaskInput (AInt 1) "Untitled task" None None None []) <> "".
Proof.
  apply (normalised_title_and_id (R := PlainRuntime.runtime)
           [IsDict (mkRaw None (Some (VAtom (AStr "   "))) None None None None)]).
  left. reflexivity.
Defined.

(** The case C4 names, on the code: a raw record with an explicit null
    [id] yields a task whose id is null. *)
Lemma explicit_null_id_is_kept :
  exists t : TaskInput,
    In t (normalise_tasks (R := PlainRuntime.runtime)
            [IsDict (mkRaw (Some ANone) (Some (VAtom (AStr "X"))) None None None None)])
    /\ id t = ANone.
Proof.
  eexists. split; [left; reflexivity|reflexivity].
Qed.

(** ** Keys, dictionaries and sets *)

Lemma hkey_eqb_eq (a b : hkey) : hkey_eqb a b = true <-> a = b.
Proof.
  destruct a, b; simpl; try (split; [discriminate|congruence]).
  - split; reflexivity.
  - rewrite andb_true_iff, Z.eqb_eq, Pos.eqb_eq.
    split; [intros [-> ->]; reflexivity|intros [= -> ->]; split; reflexivity].
  - rewrite String.eqb_eq. split; [now intros ->|now intros [= ->]].
Qed.

Lemma hkey_eqb_refl (a : hkey) : hkey_eqb a a = true.
Proof. now apply hkey_eqb_eq. Qed.

Lemma hkey_eqb_spec (a b : hkey) : reflect (a = b) (hkey_eqb a b).
Proof.
  apply iff_reflect. symmetry. apply hkey_eqb_eq.
Qed.

Lemma hkey_eqb_sym (a b : hkey) : hkey_eqb a b = hkey_eqb b a.
Proof.
  destruct (hkey_eqb_spec a b) as [->|Hne]; [now rewrite hkey_eqb_refl|].
  destruct (hkey_eqb_spec b a); congruence.
Qed.

Section AssocFacts.
Context {V : Type}.
Implicit Types (m : list (hkey * V)) (k : hkey) (v : V).

Lemma assoc_get_set k k' v m :
  assoc_get k' (assoc_set k v m)
  = if hkey_eqb k k' then Some v else assoc_get k' m.
Proof.
  induction m as [|[k0 v0] m IH]; simpl.
  - now rewrite hkey_eqb_sym.
  - destruct (hkey_eqb_spec k0 k) as [->|Hne]; simpl.
    + destruct (hkey_eqb k k'); reflexivity.
    + rewrite IH. destruct (hkey_eqb_spec k0 k') as [->|Hne'];
        [|reflexivity].
      destruct (hkey_eqb_spec k k'); congruence.
Qed.

Lemma has_key_set k k' v m :
  has_key k' (assoc_set k v m) = hkey_eqb k k' || has_key k' m.
Proof.
  unfold has_key. rewrite assoc_get_set. now destruct (hkey_eqb k k').
Qed.

Lemma has_key_set_present k k' v m :
  has_key k m = true -> has_key k' (assoc_set k v m) = has_key k' m.
Proof.
  intros Hk. rewrite has_key_set.
  destruct (hkey_eqb_spec k k') as [<-|]; [now rewrite Hk|reflexivity].
Qed.

Lemma has_key_setdefault k k' v m :
  has_key k' (setdefault k v m) = hkey_eqb k k' || has_key k' m.
Proof.
  unfold setdefault. destruct (has_key k m) eqn:Hk.
  - destruct (hkey_eqb_spec k k') as [<-|]; [now rewrite Hk|reflexivity].
  - apply has_key_set.
Qed.

End AssocFacts.

Lemma count_get_set (k k' : hkey) (n : Z) (c : counts) :
  count_get k' (assoc_set k n c) = if hkey_eqb k k' then n else count_get k' c.
Proof.
  unfold count_get. rewrite assoc_get_set. now destruct (hkey_eqb k k').
Qed.

Lemma count_get_setdefault_zero (k k' : hkey) (c : counts) :
  count_get k' (setdefault k 0 c) = count_get k' c.
Proof.
  unfold setdefault, has_key. destruct (assoc_get k c) eqn:Hk; [reflexivity|].
  rewrite count_get_set. destruct (hkey_eqb_spec k k') as [<-|]; [|reflexivity].
  unfold count_get. now rewrite Hk.
Qed.

(** ** The graph builder *)

Lemma declare_nodes_keys (tasks : list TaskInput) (g : graph) (c : counts) (k : hkey) :
  has_key k (fst (declare_nodes tasks g c)) = true
  <-> has_key k g = true \/ is_node tasks k.
Proof.
  revert g c. induction tasks as [|t ts IH]; intros g c; simpl.
  - split; [now left|]. intros [H|(t & [] & _)]. exact H.
  - destruct (is_None (id t)) eqn:Hn.
    + rewrite IH. split; (intros [H|(u & Hu & Hun & Hk)]; [now left|right]).
      * exists u. split; [now right|]. now split.
      * destruct Hu as [<-|Hu]; [congruence|]. exists u. now repeat split.
    + rewrite IH, has_key_setdefault, orb_true_iff, hkey_eqb_eq.
      split.
      * intros [[Hk|Hk]|(u & Hu & Hun & Hk)].
        -- right. exists t. split; [now left|]. now split.
        -- now left.
        -- right. exists u. split; [now right|]. now split.
      * intros [Hk|(u & [<-|Hu] & Hun & Hk)].
        -- left. now right.
        -- left. now left.
        -- right. exists u. now repeat split.
Qed.

Lemma declare_nodes_counts (tasks : list TaskInput) (g : graph) (c : counts) (k : hkey) :
  count_get k (snd (declare_nodes tasks g c)) = count_get k c.
Proof.
  revert g c. induction tasks as [|t ts IH]; intros g c; simpl; [reflexivity|].
  destruct (is_None (id t)); [apply IH|].
  rewrite IH. apply count_get_setdefault_zero.
Qed.

Lemma collect_deps_counts (g : graph) (ds : list atom) (deps : list hkey)
    (c : counts) (k : hkey) :
  count_get k (snd (collect_deps g ds deps c))
  = count_get k c
    + if has_key k g then count_key k (map key_of ds) else 0.
Proof.
  revert deps c. induction ds as [|dep ds IH]; intros deps c; simpl.
  - destruct (has_key k g); lia.
  - destruct (has_key (key_of dep) g) eqn:Hd.
    + rewrite IH, count_get_set.
      destruct (hkey_eqb_spec (key_of dep) k) as [<-|Hne].
      * rewrite Hd. lia.
      * destruct (has_key k g); lia.
    + rewrite IH. destruct (hkey_eqb_spec (key_of dep) k) as [<-|Hne].
      * rewrite Hd. lia.
      * destruct (has_key k g); lia.
Qed.

Lemma collect_deps_deps (g : graph) (ds : list atom) (deps : list hkey) (c : counts) :
  fst (collect_deps g ds deps c)
  = deps ++ filter (fun d => has_key d g) (map key_of ds).
Proof.
  revert deps c. induction ds as [|dep ds IH]; intros deps c; simpl.
  - now rewrite app_nil_r.
  - destruct (has_key (key_of dep) g) eqn:Hd; rewrite IH; [|reflexivity].
    now rewrite <- app_assoc.
Qed.

Lemma link_tasks_counts (tasks : list TaskInput) (g : graph) (c : counts) (k : hkey) :
  (forall t, In t tasks -> is_None (id t) = false -> has_key (key_of (id t)) g = true) ->
  count_get k (snd (link_tasks tasks g c))
  = count_get k c + if has_key k g then edge_occurrences k tasks else 0.
Proof.
  revert g c. induction tasks as [|t ts IH]; intros g c Hnodes; simpl.
  - destruct (has_key k g); lia.
  - destruct (is_None (id t)) eqn:Hn.
    + rewrite IH by (intros; apply Hnodes; [now right|assumption]).
      destruct (has_key k g); lia.
    + pose proof (collect_deps_counts g (dependencies t) [] c k) as Hc.
      destruct (collect_deps g (dependencies t) [] c) as [deps c'].
      simpl in Hc.
      assert (Ht : has_key (key_of (id t)) g = true)
        by (apply Hnodes; [now left|assumption]).
      rewrite IH.
      * rewrite (has_key_set_present _ _ _ _ Ht), Hc.
        destruct (has_key k g); lia.
      * intros u Hu Hun. rewrite (has_key_set_present _ _ _ _ Ht).
        apply Hnodes; [now right|assumption].
Qed.

Lemma link_tasks_keys (tasks : list TaskInput) (g : graph) (c : counts) (k : hkey) :
  (forall t, In t tasks -> is_None (id t) = false -> has_key (key_of (id t)) g = true) ->
  has_key k (fst (link_tasks tasks g c)) = has_key k g.
Proof.
  revert g c. induction tasks as [|t ts IH]; intros g c Hnodes; simpl; [reflexivity|].
  destruct (is_None (id t)) eqn:Hn.
  - apply IH. intros; apply Hnodes; [now right|assumption].
  - destruct (collect_deps g (dependencies t) [] c) as [deps c'].
    assert (Ht : has_key (key_of (id t)) g = true)
      by (apply Hnodes; [now left|assumption]).
    rewrite IH.
    + apply (has_key_set_present _ _ _ _ Ht).
    + intros u Hu Hun. rewrite (has_key_set_present _ _ _ _ Ht).
      apply Hnodes; [now right|assumption].
Qed.

Lemma count_get_nil (k : hkey) : count_get k [] = 0.
Proof. reflexivity. Qed.

(** The nodes of the graph are the identifiers of the tasks, and the count
    of a node is the number of times it is listed by the identified
    tasks. *)
Lemma build_graph_counts (tasks : list TaskInput) (k : hkey) :
  (has_key k (fst (_build_graph tasks)) = true <-> is_node tasks k)
  /\ count_get k (snd (_build_graph tasks))
     = if has_key k (fst (_build_graph tasks)) then edge_occurrences k tasks else 0.
Proof.
  unfold _build_graph.
  pose proof (declare_nodes_keys tasks [] [] k) as Hkeys.
  pose proof (declare_nodes_counts tasks [] [] k) as Hzero.
  assert (Hnodes : forall t, In t tasks -> is_None (id t) = false ->
            has_key (key_of (id t)) (fst (declare_nodes tasks [] [])) = true).
  { intros t Ht Hn. apply declare_nodes_keys. right. exists t. now repeat split. }
  destruct (declare_nodes tasks [] []) as [g c]. simpl in *.
  rewrite (link_tasks_keys tasks g c k Hnodes).
  rewrite (link_tasks_counts tasks g c k Hnodes), Hzero, count_get_nil.
  split; [|lia].
  rewrite Hkeys. split; [intros [H|H]; [discriminate H|exact H]|now right].
Qed.

Lemma count_key_nonneg (k : hkey) (l : list hkey) : 0 <= count_key k l.
Proof.
  induction l as [|x l IH]; simpl; [lia|]. destruct (hkey_eqb x k); lia.
Qed.

Lemma edge_occurrences_nonneg (k : hkey) (tasks : list TaskInput) :
  0 <= edge_occurrences k tasks.
Proof.
  induction tasks as [|t ts IH]; simpl; [lia|].
  pose proof (count_key_nonneg k (map key_of (dependencies t))).
  destruct (is_None (id t)); lia.
Qed.



Lemma dependents_count_of_node (tasks : list TaskInput) (t : TaskInput) :
  In t tasks -> is_None (id t) = false ->
  count_get (key_of (id t)) (snd (_build_graph tasks))
  = edge_occurrences (key_of (id t)) tasks.
Proof.
  intros Hin Hn.
  destruct (build_graph_counts tasks (key_of (id t))) as [Hnode Hcount].
  rewrite Hcount.
  replace (has_key (key_of (id t)) (fst (_build_graph tasks))) with true;
    [reflexivity|].
  symmetry. apply Hnode. exists t. now repeat split.
Qed.




Section DependencyScore.
Local Open Scope Q_scope.

Lemma py_min_spec (a b : Q) :
  (a <= b /\ py_min a b == a) \/ (b < a /\ py_min a b == b).
Proof.
  unfold py_min. destruct (Qle_bool a b) eqn:E.
  - left. apply Qle_bool_iff in E. split; [exact E|reflexivity].
  - right. apply Qle_bool_false in E. split; [exact E|reflexivity].
Qed.

(** The base score of a task that [n] entries name. *)
Lemma dependency_base_bounds (n : Z) :
  (0 <= n)%Z ->
  40 <= 40.0 + py_min (inject_Z n * 15.0) 45.0 <= 85.
Proof.
  intros Hn. assert (0 <= inject_Z n)
    by (change 0 with (inject_Z 0); rewrite <- Zle_Qle; exact Hn).
  destruct (py_min_spec (inject_Z n * 15.0) 45.0) as [[H1 ->]|[H1 ->]]; lra.
Qed.

Lemma dependency_score_cases (t : TaskInput) (c : counts) (s : list hkey) :
  is_None (id t) = false ->
  let base := 40.0 + py_min (inject_Z (count_get (key_of (id t)) c) * 15.0) 45.0 in
  (mem (key_of (id t)) s = false -> _dependency_score t c s == base)
  /\ (mem (key_of (id t)) s = true -> _dependency_score t c s == base * 0.75).
Proof.
  intros Hn base. unfold _dependency_score. rewrite Hn. fold base.
  split; intros ->; reflexivity.
Qed.

End DependencyScore.

(** X23: a task whose id is named [n] times in the dependencies lists of
    the identified tasks scores at most 40 + min(15 n, 45), hence at most
    85; outside the cycle set the score is that base, inside it is the
    base times 0.75, which is strictly lower. *)
Theorem dependency_score_bound (tasks : list TaskInput) (t : TaskInput) :
  In t tasks -> is_None (id t) = false ->
  let n := edge_occurrences (key_of (id t)) tasks in
  let base := (40.0 + py_min (inject_Z n * 15.0) 45.0)%Q in
  let flagged := mem (key_of (id t)) (_detect_cycles (fst (_build_graph tasks))) in
  (ranking_dependency_score tasks t <= base)%Q
  /\ (base <= 85)%Q
  /\ (flagged = false -> (ranking_dependency_score tasks t == base)%Q)
  /\ (flagged = true ->
      (ranking_dependency_score tasks t == base * 0.75)%Q
      /\ (ranking_dependency_score tasks t < base)%Q)
  /\ (forall (c : counts) (inside outside : list hkey),
        0 <= count_get (key_of (id t)) c ->
        mem (key_of (id t)) inside = true ->
        mem (key_of (id t)) outside = false ->
        (_dependency_score t c inside == _dependency_score t c outside * 0.75)%Q
        /\ (_dependency_score t c inside < _dependency_score t c outside)%Q).
Proof.
  intros Hin Hn n base flagged.
  pose proof (dependents_count_of_node tasks t Hin Hn) as Hc. fold n in Hc.
  pose proof (dependency_base_bounds n (edge_occurrences_nonneg _ _)) as Hb.
  fold base in Hb.
  unfold ranking_dependency_score. subst flagged.
  destruct (_build_graph tasks) as [g c]. simpl in Hc |- *.
  destruct (dependency_score_cases t c (_detect_cycles g) Hn) as [Hout Hins].
  cbv zeta in Hout, Hins. rewrite Hc in Hout, Hins. fold n base in Hout, Hins.
  split; [|split; [lra|split; [exact Hout|split]]].
  - destruct (mem (key_of (id t)) (_detect_cycles g)).
    + rewrite (Hins eq_refl). lra.
    + rewrite (Hout eq_refl). lra.
  - intros Hf. rewrite (Hins Hf). split; [reflexivity|lra].
  - intros c' inside outside Hpos Hi Ho.
    destruct (dependency_score_cases t c' inside Hn) as [_ Hi'].
    destruct (dependency_score_cases t c' outside Hn) as [Ho' _].
    cbv zeta in Hi', Ho'. rewrite (Hi' Hi), (Ho' Ho).
    pose proof (dependency_base_bounds _ Hpos). split; [reflexivity|lra].
Qed.

Lemma dependency_score_bound_witness :
  (ranking_dependency_score
     [mkTaskInput (AInt 1) "A" None None None [AInt 2];
      mkTaskInput (AInt 2) "B" None None None [AInt 1]]
     (mkTaskInput (AInt 2) "B" None None None [AInt 1])
   <= 40.0 + py_min (inject_Z 1 * 15.0) 45.0)%Q.
Proof.
  destruct (dependency_score_bound
              [mkTaskInput (AInt 1) "A" None None None [AInt 2];
               mkTaskInput (AInt 2) "B" None None None [AInt 1]]
              (mkTaskInput (AInt 2) "B" None None None [AInt 1]))
    as [H _]; [right; left; reflexivity | reflexivity | exact H].
Defined.

(** C5 on the code: one other task names the id 2, twice, and the task
    with id 2 scores 70, above 40 + min(1 * 15, 45) = 55, with the
    rationale that it unblocks 2 other tasks; a task that names only
    itself is counted once and scores 41.25 (55 times 0.75 for the cycle
    it forms), above 40 + min(0 * 15, 45) = 40, with the rationale that it
    unblocks 1 other task. *)
Theorem duplicate_listing_exceeds_bound :
  let a := mkTaskInput (AInt 1) "Untitled task" None None None [AInt 2; AInt 2] in
  let b := mkTaskInput (AInt 2) "Untitled task" None None None [] in
  let c := mkTaskInput (AInt 3) "Untitled task" None None None [AInt 3] in
  normalise_tasks (R := PlainRuntime.runtime)
    [IsDict (mkRaw (Some (AInt 1)) None None None None
               (Some (DepsList [AInt 2; AInt 2])));
     IsDict (mkRaw (Some (AInt 2)) None None None None None)]
  = [a; b]
  /\ dependers b [a] = 1
  /\ count_get (key_of (id b)) (snd (_build_graph [a; b])) = 2
  /\ (ranking_dependency_score [a; b] b == 70)%Q
  /\ ~ (ranking_dependency_score [a; b] b
        <= 40.0 + py_min (inject_Z (dependers b [a]) * 15.0) 45.0)%Q
  /\ ranking_dependency_note [a; b] b = "unblocks 2 other task(s)"
  /\ normalise_tasks (R := PlainRuntime.runtime)
       [IsDict (mkRaw (Some (AInt 3)) None None None None
                  (Some (DepsList [AInt 3])))]
     = [c]
  /\ dependers c [] = 0
  /\ count_get (key_of (id c)) (snd (_build_graph [c])) = 1
  /\ (ranking_dependency_score [c] c == 41.25)%Q
  /\ ~ (ranking_dependency_score [c] c
        <= 40.0 + py_min (inject_Z (dependers c []) * 15.0) 45.0)%Q
  /\ ranking_dependency_note [c] c
     = "unblocks 1 other task(s), part of a circular dependency (penalised)".
Proof.
  split; [vm_compute; reflexivity|].
  split; [reflexivity|]. split; [vm_compute; reflexivity|].
  split; [vm_compute; reflexivity|].
  split; [vm_compute; intros H; apply H; reflexivity|].
  split; [vm_compute; reflexivity|].
  split; [vm_compute; reflexivity|].
  split; [reflexivity|]. split; [vm_compute; reflexivity|].
  split; [vm_compute; reflexivity|].
  split; [vm_compute; intros H; apply H; reflexivity|].
  vm_compute; reflexivity.
Qed.

(** ** Sets of keys *)

Lemma mem_In (k : hkey) (s : list hkey) : mem k s = true <-> In k s.
Proof.
  unfold mem. rewrite existsb_exists. split.
  - intros (x & Hx & He). apply hkey_eqb_eq in He. now subst.
  - intros H. exists k. split; [exact H|apply hkey_eqb_refl].
Qed.

Lemma mem_false (k : hkey) (s : list hkey) : mem k s = false <-> ~ In k s.
Proof.
  rewrite <- mem_In. destruct (mem k s); split; congruence.
Qed.

Lemma set_add_In (x k : hkey) (s : list hkey) :
  In x (set_add k s) <-> x = k \/ In x s.
Proof.
  unfold set_add. destruct (mem k s) eqn:E; simpl.
  - apply mem_In in E. split; [now right|]. intros [->|H]; assumption.
  - split; intros [H|H]; auto.
Qed.

Lemma set_update_In (x : hkey) (s t : list hkey) :
  In x (set_update s t) <-> In x s \/ In x t.
Proof.
  unfold set_update. induction t as [|y t IH]; simpl.
  - tauto.
  - rewrite set_add_In, IH. split.
    + intros [->|[H|H]]; auto.
    + intros [H|[->|H]]; auto.
Qed.

Lemma set_remove_In (x k : hkey) (s : list hkey) :
  In x (set_remove k s) <-> x <> k /\ In x s.
Proof.
  unfold set_remove. rewrite filter_In, negb_true_iff.
  destruct (hkey_eqb_spec k x) as [->|Hne]; split.
  - intros [_ H]. discriminate.
  - intros [H _]. congruence.
  - intros [H _]. split; [congruence|exact H].
  - intros [_ H]. now split.
Qed.

Lemma set_remove_fresh (k : hkey) (s : list hkey) :
  ~ In k s -> set_remove k s = s.
Proof.
  unfold set_remove. induction s as [|x s IH]; simpl; [reflexivity|].
  intros Hn. destruct (hkey_eqb_spec k x) as [->|Hne]; simpl.
  - exfalso. apply Hn. now left.
  - f_equal. apply IH. intros H. apply Hn. now right.
Qed.

Lemma set_remove_add (k : hkey) (s : list hkey) :
  ~ In k s -> set_remove k (set_add k s) = s.
Proof.
  intros Hn. unfold set_add. rewrite (proj2 (mem_false k s) Hn).
  unfold set_remove. simpl. rewrite hkey_eqb_refl. simpl.
  now apply set_remove_fresh.
Qed.

(** ** The traversal *)

Lemma for_each_post (g : graph) (body : hkey -> dfs_state -> option dfs_state) :
  (forall node st st', body node st = Some st' -> visit_post g node st st') ->
  forall l st st', for_each body l st = Some st' -> loop_post g l st st'.
Proof.
  intros Hbody. induction l as [|x l IH]; intros st st' Hrun; simpl in Hrun.
  - injection Hrun as <-. unfold loop_post.
    split; [reflexivity|]. split; [apply incl_refl|]. split; [apply incl_refl|].
    split; [intros y []|tauto].
  - destruct (body x st) as [s1|] eqn:Hx; [|discriminate].
    destruct (Hbody _ _ _ Hx) as (Hs1 & Hv1 & Hc1 & Hin1 & Hout1 & Hf1).
    destruct (IH _ _ Hrun) as (Hs2 & Hv2 & Hc2 & Hl2 & Hf2).
    unfold loop_post. split; [congruence|].
    split; [eapply incl_tran; eassumption|].
    split; [eapply incl_tran; eassumption|].
    split; [|tauto].
    intros y [<-|Hy].
    + split.
      * intros H. eapply incl_tran; [apply (Hin1 H)|exact Hc2].
      * intros H. apply Hv2. now apply Hout1.
    + destruct (Hl2 y Hy) as [Ha Hb]. rewrite Hs1 in Ha, Hb. now split.
Qed.

Lemma visit_spec (fuel : nat) (g : graph) :
  forall node st st', visit fuel g node st = Some st' -> visit_post g node st st'.
Proof.
  induction fuel as [|fuel IH]; intros node st st' Hrun; [discriminate|].
  cbn [visit] in Hrun.
  destruct (mem node (stack st)) eqn:Hstack.
  { (* the node is on the stack: the whole stack is flagged *)
    injection Hrun as <-. unfold visit_post. cbn [visited stack in_cycle].
    split; [reflexivity|]. split; [apply incl_refl|].
    split; [intros x Hx; apply set_update_In; now left|].
    split; [intros _ x Hx; apply set_update_In; now right|].
    split; [intros H; apply mem_In in Hstack; contradiction|].
    intros Hf x y Hfin Hxy Hyx.
    destruct (Hf x y Hfin Hxy Hyx) as [Hx Hy].
    split; apply set_update_In; now left. }
  destruct (mem node (visited st)) eqn:Hvis.
  { (* already explored *)
    injection Hrun as <-. unfold visit_post.
    split; [reflexivity|]. split; [apply incl_refl|]. split; [apply incl_refl|].
    split; [intros H; apply mem_false in Hstack; contradiction|].
    split; [intros _; now apply mem_In|tauto]. }
  (* a new node: push, explore the neighbours, pop *)
  apply mem_false in Hstack, Hvis.
  set (st1 := mkDfs (set_add node (visited st)) (set_add node (stack st))
                    (in_cycle st)) in Hrun.
  destruct (for_each (visit fuel g) (neighbours g node) st1) as [st2|] eqn:Hloop;
    [|discriminate].
  injection Hrun as <-.
  destruct (for_each_post g (visit fuel g) IH _ _ _ Hloop)
    as (Hs2 & Hv2 & Hc2 & Hl2 & Hf2).
  cbn [stack visited in_cycle st1] in Hs2, Hv2, Hc2.
  unfold visit_post. cbn [visited stack in_cycle].
  split; [rewrite Hs2; now apply set_remove_add|].
  split; [intros x Hx; apply Hv2, set_add_In; now right|].
  split; [exact Hc2|].
  split; [intros H; contradiction|].
  split; [intros _; apply Hv2, set_add_In; now left|].
  intros Hf.
  assert (Hf1 : short_cycles_flagged g st1).
  { intros x y [Hxv Hxs] Hxy Hyx. cbn [st1 visited stack in_cycle] in *.
    apply Hf; [|assumption|assumption].
    rewrite set_add_In in Hxv, Hxs. split; [|tauto].
    destruct Hxv as [->|H]; [exfalso; apply Hxs; now left|exact H]. }
  specialize (Hf2 Hf1).
  intros x y [Hxv Hxs] Hxy Hyx. cbn [visited stack in_cycle] in *.
  rewrite Hs2, (set_remove_add _ _ Hstack) in Hxs.
  destruct (hkey_eqb_spec x node) as [->|Hne].
  - (* the node that has just been left *)
    destruct (Hl2 y Hxy) as [Hon Hoff]. cbn [st1 stack] in Hon, Hoff.
    destruct (mem y (set_add node (stack st))) eqn:Hy.
    + apply mem_In in Hy. specialize (Hon Hy).
      split; apply Hon; [apply set_add_In; now left|exact Hy].
    + apply mem_false in Hy. specialize (Hoff Hy).
      assert (Hfin : finished st2 y) by (split; [exact Hoff|now rewrite Hs2]).
      destruct (Hf2 y node Hfin Hyx Hxy) as [Hy' Hn']. now split.
  - apply Hf2; [|assumption|assumption].
    split; [exact Hxv|]. rewrite Hs2, set_add_In. intros [H|H]; contradiction.
Qed.

(** ** The recursion is bounded by the number of nodes *)

Lemma filter_length_mono {A : Type} (p q : A -> bool) (l : list A) :
  (forall x, In x l -> p x = true -> q x = true) ->
  (List.length (filter p l) <= List.length (filter q l))%nat.
Proof.
  induction l as [|x l IH]; intros H; simpl; [lia|].
  assert (IH' : (List.length (filter p l) <= List.length (filter q l))%nat)
    by (apply IH; intros y Hy; apply H; now right).
  specialize (H x (or_introl eq_refl)).
  destruct (p x), (q x); simpl; try lia.
  all: specialize (H eq_refl); discriminate.
Qed.

Lemma filter_length_strict {A : Type} (p q : A -> bool) (l : list A) (a : A) :
  (forall x, In x l -> p x = true -> q x = true) ->
  In a l -> p a = false -> q a = true ->
  (List.length (filter p l) < List.length (filter q l))%nat.
Proof.
  induction l as [|x l IH]; intros H Ha Hp Hq; [destruct Ha|]. simpl.
  assert (Hle : (List.length (filter p l) <= List.length (filter q l))%nat)
    by (apply filter_length_mono; intros y Hy; apply H; now right).
  destruct Ha as [->|Ha].
  - rewrite Hp, Hq. simpl. lia.
  - assert (IH' : (List.length (filter p l) < List.length (filter q l))%nat)
      by (apply IH; [intros y Hy; apply H; now right|assumption..]).
    specialize (H x (or_introl eq_refl)).
    destruct (p x), (q x); simpl; try lia.
    all: specialize (H eq_refl); discriminate.
Qed.

Lemma unvisited_mono (g : graph) (vis vis' : list hkey) :
  incl vis vis' -> (unvisited g vis' <= unvisited g vis)%nat.
Proof.
  intros Hincl. apply filter_length_mono. intros x _.
  rewrite !negb_true_iff, !mem_false. intros Hn Hx. apply Hn, Hincl, Hx.
Qed.

Lemma unvisited_decrease (g : graph) (vis : list hkey) (node : hkey) :
  In node (all_nodes g) -> ~ In node vis ->
  (unvisited g (set_add node vis) < unvisited g vis)%nat.
Proof.
  intros Hnode Hvis. apply (filter_length_strict _ _ _ node).
  - intros x _. rewrite !negb_true_iff, !mem_false, set_add_In. tauto.
  - exact Hnode.
  - rewrite negb_false_iff, mem_In, set_add_In. now left.
  - now rewrite negb_true_iff, mem_false.
Qed.

Lemma assoc_get_In {V : Type} (k : hkey) (m : list (hkey * V)) (v : V) :
  assoc_get k m = Some v -> In (k, v) m.
Proof.
  induction m as [|[k0 v0] m IH]; simpl; [discriminate|].
  destruct (hkey_eqb_spec k0 k) as [->|Hne].
  - intros [= ->]. now left.
  - intros H. right. now apply IH.
Qed.

Lemma neighbours_key (g : graph) (x y : hkey) :
  In y (neighbours g x) -> In x (map fst g).
Proof.
  unfold neighbours. destruct (assoc_get x g) as [l|] eqn:E; [|intros []].
  intros _. apply assoc_get_In in E. now apply (in_map fst) in E.
Qed.

Lemma neighbours_all_nodes (g : graph) (x y : hkey) :
  In y (neighbours g x) -> In y (all_nodes g).
Proof.
  unfold neighbours, all_nodes. destruct (assoc_get x g) as [l|] eqn:E; [|intros []].
  intros Hy. apply in_or_app. right. apply in_concat. exists l. split; [|exact Hy].
  apply assoc_get_In in E. now apply (in_map snd) in E.
Qed.

Lemma visit_total (fuel : nat) (g : graph) :
  forall node st,
    (unvisited g (visited st) < fuel)%nat ->
    In node (all_nodes g) ->
    exists st', visit fuel g node st = Some st'.
Proof.
  induction fuel as [|fuel IH]; intros node st Hfuel Hnode; [lia|].
  cbn [visit].
  destruct (mem node (stack st)) eqn:Hstack; [eexists; reflexivity|].
  destruct (mem node (visited st)) eqn:Hvis; [eexists; reflexivity|].
  apply mem_false in Hvis.
  set (st1 := mkDfs (set_add node (visited st)) (set_add node (stack st))
                    (in_cycle st)).
  assert (H1 : (unvisited g (visited st1) < fuel)%nat).
  { pose proof (unvisited_decrease g (visited st) node Hnode Hvis). cbn. lia. }
  assert (Hloop : forall l s,
             (forall y, In y l -> In y (all_nodes g)) ->
             (unvisited g (visited s) < fuel)%nat ->
             exists s', for_each (visit fuel g) l s = Some s').
  { induction l as [|y l IHl]; intros s Hl Hs; simpl; [eexists; reflexivity|].
    destruct (IH y s Hs (Hl y (or_introl eq_refl))) as [s1 Hy].
    rewrite Hy. apply IHl; [intros z Hz; apply Hl; now right|].
    destruct (visit_spec _ _ _ _ _ Hy) as (_ & Hv & _).
    pose proof (unvisited_mono g _ _ Hv). lia. }
  destruct (Hloop (neighbours g node) st1 (neighbours_all_nodes g node) H1)
    as [st2 H2].
  rewrite H2. eexists; reflexivity.
Qed.

Lemma unvisited_bound (g : graph) (vis : list hkey) :
  (unvisited g vis <= List.length (all_nodes g))%nat.
Proof.
  unfold unvisited. apply List.filter_length_le.
Qed.

(** The loop over the nodes of the graph, started with an empty stack. *)
Lemma visit_roots_spec (fuel : nat) (g : graph) :
  forall l st st',
    stack st = [] ->
    for_each (visit_root fuel g) l st = Some st' ->
    stack st' = []
    /\ incl (visited st) (visited st')
    /\ (forall y, In y l -> In y (visited st'))
    /\ (short_cycles_flagged g st -> short_cycles_flagged g st').
Proof.
  induction l as [|x l IH]; intros st st' Hempty Hrun; simpl in Hrun.
  - injection Hrun as <-. split; [exact Hempty|]. split; [apply incl_refl|].
    split; [intros y []|tauto].
  - destruct (visit_root fuel g x st) as [s1|] eqn:Hx; [|discriminate].
    assert (H1 : stack s1 = [] /\ incl (visited st) (visited s1)
                 /\ In x (visited s1)
                 /\ (short_cycles_flagged g st -> short_cycles_flagged g s1)).
    { unfold visit_root in Hx. destruct (mem x (visited st)) eqn:Hv.
      - injection Hx as <-. apply mem_In in Hv.
        split; [exact Hempty|]. split; [apply incl_refl|]. split; [exact Hv|tauto].
      - destruct (visit_spec _ _ _ _ _ Hx) as (Hs & Hvis & _ & _ & Hnew & Hf).
        split; [congruence|]. split; [exact Hvis|]. split; [|exact Hf].
        apply Hnew. rewrite Hempty. intros []. }
    destruct H1 as (Hs1 & Hv1 & Hx1 & Hf1).
    destruct (IH _ _ Hs1 Hrun) as (Hs2 & Hv2 & Hl2 & Hf2).
    split; [exact Hs2|]. split; [eapply incl_tran; eassumption|].
    split; [|tauto].
    intros y [<-|Hy]; [now apply Hv2|now apply Hl2].
Qed.

Lemma visit_roots_total (fuel : nat) (g : graph) :
  (List.length (all_nodes g) < fuel)%nat ->
  forall l st,
    (forall y, In y l -> In y (all_nodes g)) ->
    exists st', for_each (visit_root fuel g) l st = Some st'.
Proof.
  intros Hfuel. induction l as [|x l IH]; intros st Hl; simpl;
    [eexists; reflexivity|].
  assert (Hx : exists s1, visit_root fuel g x st = Some s1).
  { unfold visit_root. destruct (mem x (visited st)); [eexists; reflexivity|].
    apply visit_total; [|apply Hl; now left].
    pose proof (unvisited_bound g (visited st)). lia. }
  destruct Hx as [s1 ->]. apply IH. intros y Hy. apply Hl. now right.
Qed.

(** The bound that [_detect_cycles] gives the traversal is enough, and the
    result flags every cycle of length one or two. *)
Lemma detect_cycles_fuel_enough (g : graph) :
  exists s, detect_cycles_fuel (S (List.length (all_nodes g))) g = Some s
            /\ _detect_cycles g = s
            /\ forall a b, In b (neighbours g a) -> In a (neighbours g b) ->
                           In a s /\ In b s.
Proof.
  unfold _detect_cycles, detect_cycles_fuel.
  destruct (visit_roots_total (S (List.length (all_nodes g))) g (Nat.lt_succ_diag_r _)
              (map fst g) (mkDfs [] [] []))
    as [stf Hrun].
  { intros y Hy. apply in_or_app. now left. }
  rewrite Hrun. simpl. exists (in_cycle stf). split; [reflexivity|].
  split; [reflexivity|].
  destruct (visit_roots_spec _ _ _ (mkDfs [] [] []) _ eq_refl Hrun)
    as (Hs & _ & Hall & Hf).
  intros a b Hab Hba. apply Hf.
  - intros x y [[] _].
  - split; [apply Hall; eapply neighbours_key; eassumption|].
    rewrite Hs. intros [].
  - exact Hab.
  - exact Hba.
Qed.

(** C6: the cycle detector flags both nodes of a direct 2-cycle, and a
    node that is among its own dependencies. *)
Theorem short_cycles_detected (g : graph) :
  (forall a b : hkey,
     In b (neighbours g a) -> In a (neighbours g b) ->
     mem a (_detect_cycles g) = true /\ mem b (_detect_cycles g) = true)
  /\ (forall a : hkey,
        In a (neighbours g a) -> mem a (_detect_cycles g) = true).
Proof.
  destruct (detect_cycles_fuel_enough g) as (s & _ & -> & Hs).
  split.
  - intros a b Hab Hba. rewrite !mem_In. now apply Hs.
  - intros a Ha. rewrite mem_In. now apply (Hs a a).
Qed.

Lemma short_cycles_detected_witness :
  mem (KStr "A") (_detect_cycles [(KStr "A", [KStr "B"]); (KStr "B", [KStr "A"])]) = true
  /\ mem (KStr "B") (_detect_cycles [(KStr "A", [KStr "B"]); (KStr "B", [KStr "A"])]) = true.
Proof.
  apply (short_cycles_detected [(KStr "A", [KStr "B"]); (KStr "B", [KStr "A"])]);
    left; reflexivity.
Defined.

(** ** The stable sort *)

Section ListSortFacts.
Context {A K : Type}.
Variable key : A -> K.
Variable lt : K -> K -> bool.

Hypothesis lt_irrefl : forall a, lt a a = false.
Hypothesis lt_trans :
  forall a b c, lt a b = true -> lt b c = true -> lt a c = true.
Hypothesis le_trans :
  forall a b c, lt b a = false -> lt c b = false -> lt c a = false.

Local Abbreviation le := (key_le key lt).
Local Abbreviation same := (key_same key lt).
Local Abbreviation sort := (list_sort key lt).

Lemma lt_asym (a b : K) : lt a b = true -> lt b a = false.
Proof.
  intros Hab. destruct (lt b a) eqn:Hba; [|reflexivity].
  pose proof (lt_trans _ _ _ Hab Hba) as H. now rewrite lt_irrefl in H.
Qed.

Lemma le_total (x y : A) : le x y \/ le y x.
Proof.
  unfold key_le. destruct (lt (key y) (key x)) eqn:E; [right|left; reflexivity].
  now apply lt_asym.
Qed.

Lemma insert_perm (x : A) (l : list A) : Permutation (x :: l) (insert key lt x l).
Proof.
  induction l as [|y l IH]; simpl; [apply Permutation_refl|].
  destruct (lt (key y) (key x)); [|apply Permutation_refl].
  eapply Permutation_trans; [apply perm_swap|]. now apply perm_skip.
Qed.

Lemma list_sort_perm (l : list A) : Permutation l (sort l).
Proof.
  induction l as [|x l IH]; simpl; [apply Permutation_refl|].
  eapply Permutation_trans; [apply perm_skip, IH|apply insert_perm].
Qed.

Lemma insert_sorted (x : A) (l : list A) :
  StronglySorted le l -> StronglySorted le (insert key lt x l).
Proof.
  induction 1 as [|y l Hl IH Hy]; simpl.
  - constructor; constructor.
  - destruct (lt (key y) (key x)) eqn:E.
    + constructor; [exact IH|].
      rewrite Forall_forall in *. intros z Hz.
      apply (Permutation_in _ (Permutation_sym (insert_perm x l))) in Hz.
      destruct Hz as [<-|Hz]; [|now apply Hy].
      unfold key_le. now apply lt_asym.
    + constructor; [now constructor|].
      constructor; [exact E|].
      rewrite Forall_forall in *. intros z Hz. unfold key_le.
      eapply le_trans; [exact E|]. now apply Hy.
Qed.

Lemma list_sort_sorted (l : list A) : StronglySorted le (sort l).
Proof.
  induction l as [|x l IH]; simpl; [constructor|now apply insert_sorted].
Qed.

Lemma same_not_lt (a x y : A) :
  same a x = true -> same a y = true -> lt (key y) (key x) = false.
Proof.
  unfold key_same. rewrite !andb_true_iff, !negb_true_iff.
  intros [Hax Hxa] [Hay Hya]. eapply le_trans; eassumption.
Qed.

Lemma filter_insert (a x : A) (l : list A) :
  filter (same a) (insert key lt x l) = filter (same a) (x :: l).
Proof.
  induction l as [|y l IH]; [reflexivity|].
  cbn [insert]. destruct (lt (key y) (key x)) eqn:E; [|reflexivity].
  cbn [filter] in *. rewrite IH.
  destruct (same a x) eqn:Hx, (same a y) eqn:Hy; try reflexivity.
  rewrite (same_not_lt a x y Hx Hy) in E. discriminate.
Qed.

(** Elements with identical keys keep their relative order. *)
Lemma list_sort_stable (a : A) (l : list A) :
  filter (same a) (sort l) = filter (same a) l.
Proof.
  induction l as [|x l IH]; [reflexivity|].
  cbn [list_sort]. rewrite filter_insert. cbn [filter]. now rewrite IH.
Qed.

Lemma same_refl (x : A) : same x x = true.
Proof.
  unfold key_same. now rewrite lt_irrefl.
Qed.

(** A sorted list is determined by its classes of identical keys. *)
Lemma sorted_stable_unique (l1 l2 : list A) :
  StronglySorted le l1 -> StronglySorted le l2 ->
  (forall a, filter (same a) l1 = filter (same a) l2) ->
  l1 = l2.
Proof.
  intros H1. revert l2. induction H1 as [|x l1 Hl1 IH Hx]; intros l2 H2 Hf.
  - destruct l2 as [|y l2]; [reflexivity|].
    specialize (Hf y). cbn [filter] in Hf. rewrite same_refl in Hf. discriminate.
  - destruct H2 as [|y l2 Hl2 Hy].
    { specialize (Hf x). cbn [filter] in Hf. rewrite same_refl in Hf. discriminate. }
    assert (Hxy : same x y = true).
    { (* [y] occurs in [x :: l1] and [x] in [y :: l2] *)
      assert (Hyin : In y (x :: l1)).
      { pose proof (Hf y) as H. cbn [filter] in H. rewrite (same_refl y) in H.
        assert (Hin : In y (filter (same y) (x :: l1)))
          by (cbn [filter]; rewrite H; now left).
        now apply filter_In in Hin. }
      assert (Hxin : In x (y :: l2)).
      { pose proof (Hf x) as H. cbn [filter] in H. rewrite (same_refl x) in H.
        assert (Hin : In x (filter (same x) (y :: l2)))
          by (cbn [filter]; rewrite <- H; now left).
        now apply filter_In in Hin. }
      unfold key_same. rewrite andb_true_iff, !negb_true_iff.
      rewrite Forall_forall in Hx, Hy. split.
      - destruct Hxin as [<-|Hxin]; [apply lt_irrefl|exact (Hy _ Hxin)].
      - destruct Hyin as [<-|Hyin]; [apply lt_irrefl|exact (Hx _ Hyin)]. }
    assert (Heq : x = y).
    { pose proof (Hf x) as H. cbn [filter] in H.
      rewrite (same_refl x), Hxy in H. now injection H. }
    subst y. f_equal. apply IH; [exact Hl2|].
    intros a. specialize (Hf a). cbn [filter] in Hf.
    destruct (same a x); [now injection Hf|exact Hf].
Qed.

End ListSortFacts.

(** ** The order of the ranker *)

Section RankerOrder.
Local Open Scope Q_scope.

Lemma Qeq_bool_false (a b : Q) : Qeq_bool a b = false <-> ~ a == b.
Proof.
  rewrite <- Qeq_bool_iff. destruct (Qeq_bool a b); split; congruence.
Qed.

Lemma Qlt_bool_iff (a b : Q) : Qlt_bool a b = true <-> a < b.
Proof.
  unfold Qlt_bool. rewrite negb_true_iff. apply Qle_bool_false.
Qed.

(** Comparison of tuples is the lexicographic order. *)
Lemma tuple_lt_iff (a1 a2 a3 b1 b2 b3 : Q) :
  tuple_lt (a1, a2, a3) (b1, b2, b3) = true
  <-> a1 < b1 \/ (a1 == b1 /\ (a2 < b2 \/ (a2 == b2 /\ a3 < b3))).
Proof.
  unfold tuple_lt.
  destruct (Qeq_bool a1 b1) eqn:E1; cbn [negb].
  - apply Qeq_bool_iff in E1.
    destruct (Qeq_bool a2 b2) eqn:E2; cbn [negb].
    + apply Qeq_bool_iff in E2.
      destruct (Qeq_bool a3 b3) eqn:E3; cbn [negb].
      * apply Qeq_bool_iff in E3. split; [discriminate|lra].
      * rewrite Qlt_bool_iff. lra.
    + apply Qeq_bool_false in E2. rewrite Qlt_bool_iff. lra.
  - apply Qeq_bool_false in E1. rewrite Qlt_bool_iff. lra.
Qed.

Lemma tuple_lt_false_iff (a1 a2 a3 b1 b2 b3 : Q) :
  tuple_lt (a1, a2, a3) (b1, b2, b3) = false
  <-> b1 < a1 \/ (a1 == b1 /\ (b2 < a2 \/ (a2 == b2 /\ b3 <= a3))).
Proof.
  rewrite <- not_true_iff_false, tuple_lt_iff. lra.
Qed.

Lemma tuple_lt_irrefl (a : Q * Q * Q) : tuple_lt a a = false.
Proof.
  destruct a as [[a1 a2] a3]. apply tuple_lt_false_iff. lra.
Qed.

Lemma tuple_lt_trans (a b c : Q * Q * Q) :
  tuple_lt a b = true -> tuple_lt b c = true -> tuple_lt a c = true.
Proof.
  destruct a as [[a1 a2] a3], b as [[b1 b2] b3], c as [[c1 c2] c3].
  rewrite !tuple_lt_iff. lra.
Qed.

Lemma tuple_le_trans (a b c : Q * Q * Q) :
  tuple_lt b a = false -> tuple_lt c b = false -> tuple_lt c a = false.
Proof.
  destruct a as [[a1 a2] a3], b as [[b1 b2] b3], c as [[c1 c2] c3].
  rewrite !tuple_lt_false_iff. lra.
Qed.

(** The components of the sort key. *)
Lemma sort_key_components (today : Z) (item : ranked_task) :
  exists k1 k2 k3 : Q,
    sort_key today item = (k1, k2, k3)
    /\ k1 == - score item
    /\ k2 == inject_Z (days_until_due today item)
    /\ k3 == - inject_Z (importance_or_zero item).
Proof.
  unfold sort_key, days_until_due, importance_or_zero.
  eexists _, _, _. split; [reflexivity|]. split; [|split].
  - destruct (Qeq_bool (score item) 0) eqn:E; [|reflexivity].
    apply Qeq_bool_iff in E. rewrite E. reflexivity.
  - destruct (out_due_date item); reflexivity.
  - destruct (out_importance item); reflexivity.
Qed.

Lemma Zlt_inject (a b : Z) : (a < b)%Z <-> inject_Z a < inject_Z b.
Proof. now rewrite Zlt_Qlt. Qed.

Lemma Zle_inject (a b : Z) : (a <= b)%Z <-> inject_Z a <= inject_Z b.
Proof. now rewrite Zle_Qle. Qed.

Lemma Zeq_inject (a b : Z) : a = b <-> inject_Z a == inject_Z b.
Proof. symmetry. apply inject_Z_injective. Qed.

(** The order of the keys is the order of the ranker in words. *)
Lemma key_le_ranks_before (today : Z) (a b : ranked_task) :
  key_le (sort_key today) tuple_lt a b <-> ranks_before today a b.
Proof.
  unfold key_le, ranks_before.
  destruct (sort_key_components today a) as (a1 & a2 & a3 & -> & Ha1 & Ha2 & Ha3).
  destruct (sort_key_components today b) as (b1 & b2 & b3 & -> & Hb1 & Hb2 & Hb3).
  rewrite tuple_lt_false_iff, Ha1, Ha2, Ha3, Hb1, Hb2, Hb3.
  rewrite Zlt_inject, Zle_inject, Zeq_inject. lra.
Qed.

Lemma key_same_same_key (today : Z) (a b : ranked_task) :
  key_same (sort_key today) tuple_lt a b = same_key today a b.
Proof.
  apply eq_true_iff_eq. unfold key_same, same_key.
  rewrite !andb_true_iff, !negb_true_iff, Qeq_bool_iff, !Z.eqb_eq.
  destruct (sort_key_components today a) as (a1 & a2 & a3 & -> & Ha1 & Ha2 & Ha3).
  destruct (sort_key_components today b) as (b1 & b2 & b3 & -> & Hb1 & Hb2 & Hb3).
  rewrite !tuple_lt_false_iff, Ha1, Ha2, Ha3, Hb1, Hb2, Hb3.
  rewrite !Zeq_inject. lra.
Qed.

End RankerOrder.

Lemma StronglySorted_impl {A : Type} (P Q : A -> A -> Prop) (l : list A) :
  (forall a b, P a b -> Q a b) -> StronglySorted P l -> StronglySorted Q l.
Proof.
  intros H. induction 1 as [|x l Hl IH Hx]; constructor; [exact IH|].
  rewrite Forall_forall in *. intros y Hy. now apply H, Hx.
Qed.

Lemma recognized_scores (u i e d : Q) (s : string) :
  recognized s = true -> exists c, _compute_score_for_strategy u i e d s = Ok c.
Proof.
  intros Hs. destruct (recognized_cases s Hs) as [-> | [-> | [-> | ->]]];
    eexists; reflexivity.
Qed.

Lemma mapM_total {A B : Type} (f : A -> result B) (l : list A) :
  (forall x, exists y, f x = Ok y) -> exists ys, mapM f l = Ok ys.
Proof.
  intros Hf. induction l as [|x l [ys IH]]; simpl; [eexists; reflexivity|].
  destruct (Hf x) as [y ->]. simpl. rewrite IH. simpl. eexists; reflexivity.
Qed.

Lemma score_tasks_recognized {R : PyRuntime} (today : Z) (raw : list raw_entry)
    (s : string) :
  recognized s = true -> exists results, score_tasks today raw s = Ok results.
Proof.
  intros Hs. unfold score_tasks.
  destruct (_build_graph (normalise_tasks raw)) as [g c].
  apply mapM_total. intros t. unfold score_task.
  destruct (recognized_scores (_urgency_score (due_date t) today)
              (_importance_score (importance t))
              (_effort_score (estimated_hours t))
              (_dependency_score t c (_detect_cycles g)) s Hs) as [x ->].
  simpl. eexists; reflexivity.
Qed.

(** C1: [rank_tasks] returns the scored tasks in the one order fixed by:
    higher score first; then fewer days until due, a task with no due date
    counting as due in 99999 days; then higher importance, missing
    importance counting as 0; tasks with identical keys in their order
    before the sort.  This holds of the sort whatever the scores of the
    list [results] are; a call that returns returns the sort of the list
    it scored, and a recognized strategy is never refused.  The order is a
    function of the scored list and the reference date. *)
Theorem rank_tasks_sorted_stable (today : Z) (results : list ranked_task) :
  let ranked := list_sort (sort_key today) tuple_lt results in
  Permutation results ranked
  /\ StronglySorted (ranks_before today) ranked
  /\ (forall a, filter (same_key today a) ranked
                = filter (same_key today a) results)
  /\ (forall a b, ranks_before today a b \/ ranks_before today b a)
  /\ (forall other : list ranked_task,
        StronglySorted (ranks_before today) other ->
        (forall a, filter (same_key today a) other
                   = filter (same_key today a) results) ->
        other = ranked)
  /\ (forall (R : PyRuntime) (raw : list raw_entry) (strategy : string)
             (out : list ranked_task),
        rank_tasks today raw strategy = Ok out ->
        exists scored : list ranked_task,
          score_tasks today raw strategy = Ok scored
          /\ out = list_sort (sort_key today) tuple_lt scored)
  /\ (forall (R : PyRuntime) (raw : list raw_entry) (strategy msg : string),
        recognized strategy = true ->
        rank_tasks today raw strategy <> Raise (StrategyError msg)).
Proof.
  intros ranked. subst ranked.
  pose proof (list_sort_sorted (sort_key today) tuple_lt
                tuple_lt_irrefl tuple_lt_trans tuple_le_trans results) as Hsorted.
  pose proof (fun a => list_sort_stable (sort_key today) tuple_lt
                tuple_le_trans a results) as Hstable.
  split; [apply list_sort_perm|].
  split; [eapply StronglySorted_impl; [|exact Hsorted];
          intros a b; apply key_le_ranks_before|].
  split; [intros a; rewrite <- !(filter_ext _ _ (key_same_same_key today a));
          apply Hstable|].
  split; [|split; [|split]].
  - intros a b. rewrite <- !key_le_ranks_before.
    apply (le_total _ _ tuple_lt_irrefl tuple_lt_trans).
  - intros other Ho Hf.
    apply (sorted_stable_unique (sort_key today) tuple_lt tuple_lt_irrefl).
    + eapply StronglySorted_impl; [|exact Ho].
      intros a b; apply key_le_ranks_before.
    + exact Hsorted.
    + intros a. rewrite Hstable.
      rewrite !(filter_ext _ _ (key_same_same_key today a)). apply Hf.
  - intros R raw strategy out. unfold rank_tasks.
    destruct (score_tasks today raw strategy) as [scored|e]; simpl;
      [|discriminate].
    intros [= <-]. now exists scored.
  - intros R raw strategy msg Hs. unfold rank_tasks.
    destruct (score_tasks_recognized today raw strategy Hs) as [scored ->].
    discriminate.
Qed.

Lemma rank_tasks_sorted_stable_witness :
  exists ranked : list ranked_task,
    rank_tasks (R := PlainRuntime.runtime) example_today example_raw "smart_balance"
    = Ok ranked
    /\ StronglySorted (ranks_before example_today) ranked.
Proof.
  destruct (rank_tasks (R := PlainRuntime.runtime) example_today example_raw
              "smart_balance") as [ranked|e] eqn:E;
    [|vm_compute in E; discriminate E].
  exists ranked. split; [reflexivity|].
  destruct (rank_tasks_sorted_stable example_today [])
    as (_ & _ & _ & _ & _ & Hcall & _).
  destruct (Hcall PlainRuntime.runtime example_raw "smart_balance" ranked E)
    as (scored & _ & ->).
  apply (rank_tasks_sorted_stable example_today scored).
Defined.

(** The worked example: the invoice comes first with 86.75, then the
    untitled record, whose default id is 4 and which is flagged for naming
    itself, then the book. *)
Lemma example_ranking :
  match rank_tasks (R := PlainRuntime.runtime) example_today example_raw "" with
  | Ok ranked =>
      map (fun r => (out_id r, out_title r, Qred (score r))) ranked
      = [(AInt 1, "Pay invoice", 347 # 4)%Q;
         (AInt 4, "Untitled task", 593 # 10)%Q;
         (AInt 2, "Read book", 33 # 1)%Q]
  | Raise _ => False
  end.
Proof.
  vm_compute. reflexivity.
Qed.

(** ** Cycles among the tasks of a ranking call *)

Lemma last_with_key_In (k : hkey) (tasks : list TaskInput) (t : TaskInput) :
  last_with_key k tasks = Some t ->
  In t tasks /\ is_None (id t) = false /\ key_of (id t) = k.
Proof.
  induction tasks as [|u ts IH]; simpl; [discriminate|].
  destruct (last_with_key k ts) as [w|].
  - intros [= ->]. destruct (IH eq_refl) as (H1 & H2 & H3). auto.
  - destruct (is_None (id u)) eqn:Hn; simpl; [discriminate|].
    destruct (hkey_eqb_spec (key_of (id u)) k) as [Hk|]; [|discriminate].
    intros [= ->]. auto.
Qed.

Lemma last_with_key_unique (tasks : list TaskInput) (t : TaskInput) :
  In t tasks -> is_None (id t) = false ->
  (forall u, In u tasks -> key_of (id u) = key_of (id t) -> u = t) ->
  last_with_key (key_of (id t)) tasks = Some t.
Proof.
  intros Hin Hn Huniq. induction tasks as [|u ts IH]; [destruct Hin|]. simpl.
  destruct (last_with_key (key_of (id t)) ts) as [w|] eqn:Hw.
  - destruct (last_with_key_In _ _ _ Hw) as (Hwin & _ & Hwk).
    f_equal. apply Huniq; [now right|exact Hwk].
  - destruct Hin as [->|Hin].
    + now rewrite Hn, hkey_eqb_refl.
    + specialize (IH Hin (fun v Hv => Huniq v (or_intror Hv))).
      discriminate IH.
Qed.

Lemma link_tasks_edges (tasks : list TaskInput) (g : graph) (c : counts) (k : hkey) :
  (forall t, In t tasks -> is_None (id t) = false -> has_key (key_of (id t)) g = true) ->
  assoc_get k (fst (link_tasks tasks g c))
  = match last_with_key k tasks with
    | Some u => Some (filter (fun d => has_key d g) (map key_of (dependencies u)))
    | None => assoc_get k g
    end.
Proof.
  revert g c. induction tasks as [|t ts IH]; intros g c Hnodes; simpl; [reflexivity|].
  destruct (is_None (id t)) eqn:Hn.
  - rewrite IH by (intros; apply Hnodes; [now right|assumption]).
    now destruct (last_with_key k ts).
  - pose proof (collect_deps_deps g (dependencies t) [] c) as Hd.
    destruct (collect_deps g (dependencies t) [] c) as [deps c'].
    simpl in Hd. subst deps.
    assert (Ht : has_key (key_of (id t)) g = true)
      by (apply Hnodes; [now left|assumption]).
    rewrite IH.
    + destruct (last_with_key k ts) as [u|].
      * f_equal. apply filter_ext. intros d.
        apply (has_key_set_present _ _ _ _ Ht).
      * rewrite assoc_get_set. simpl. now destruct (hkey_eqb (key_of (id t)) k).
    + intros u Hu Hun. rewrite (has_key_set_present _ _ _ _ Ht).
      apply Hnodes; [now right|assumption].
Qed.

(** The edges of a node are the dependencies of the last task that carries
    its identifier, without the entries that name no task. *)
Lemma build_graph_edges (tasks : list TaskInput) (t : TaskInput) :
  last_with_key (key_of (id t)) tasks = Some t ->
  forall d, In d (neighbours (fst (_build_graph tasks)) (key_of (id t)))
            <-> In d (map key_of (dependencies t)) /\ is_node tasks d.
Proof.
  intros Hlast d. unfold neighbours, _build_graph.
  pose proof (declare_nodes_keys tasks [] [] d) as Hkeys.
  assert (Hnodes : forall t, In t tasks -> is_None (id t) = false ->
            has_key (key_of (id t)) (fst (declare_nodes tasks [] [])) = true).
  { intros u Hu Hn. apply declare_nodes_keys. right. exists u. now repeat split. }
  destruct (declare_nodes tasks [] []) as [g c]. simpl in *.
  rewrite (link_tasks_edges tasks g c _ Hnodes), Hlast, filter_In, Hkeys.
  split; intros [H1 H2]; (split; [exact H1|]).
  - destruct H2 as [H2|H2]; [discriminate H2|exact H2].
  - now right.
Qed.

(** Within a ranking call: a task that names its own id is flagged, and
    so are two tasks that name each other, when each is the last task
    with its id (always so when the ids are distinct). *)
Lemma short_cycles_among_tasks (tasks : list TaskInput) (a b : TaskInput) :
  last_with_key (key_of (id a)) tasks = Some a ->
  last_with_key (key_of (id b)) tasks = Some b ->
  depends_on a b = true -> depends_on b a = true ->
  mem (key_of (id a)) (_detect_cycles (fst (_build_graph tasks))) = true
  /\ mem (key_of (id b)) (_detect_cycles (fst (_build_graph tasks))) = true.
Proof.
  intros Ha Hb Hab Hba. unfold depends_on in Hab, Hba. rewrite mem_In in Hab, Hba.
  destruct (last_with_key_In _ _ _ Ha) as (Hain & Han & _).
  destruct (last_with_key_In _ _ _ Hb) as (Hbin & Hbn & _).
  destruct (detect_cycles_fuel_enough (fst (_build_graph tasks)))
    as (s & _ & -> & Hs).
  rewrite !mem_In. apply Hs.
  - apply (build_graph_edges tasks a Ha). split; [exact Hab|].
    exists b. now repeat split.
  - apply (build_graph_edges tasks b Hb). split; [exact Hba|].
    exists a. now repeat split.
Qed.

(** With two tasks of the same id the later one decides the edges: the
    first names itself and is not flagged. *)
Lemma overwritten_self_dependency_not_flagged :
  _detect_cycles
    (fst (_build_graph
            [mkTaskInput (AInt 1) "A" None None None [AInt 1];
             mkTaskInput (AInt 1) "B" None None None []]))
  = [].
Proof. reflexivity. Qed.

(** ** More fuel does not change the traversal *)

Lemma for_each_ext_some {A S : Type} (f g : A -> S -> option S) :
  (forall x s s', f x s = Some s' -> g x s = Some s') ->
  forall l s s', for_each f l s = Some s' -> for_each g l s = Some s'.
Proof.
  intros H. induction l as [|x l IH]; intros s s' Hrun; simpl in *; [exact Hrun|].
  destruct (f x s) as [s1|] eqn:E; [|discriminate].
  rewrite (H _ _ _ E). now apply IH.
Qed.

Lemma visit_step (fuel : nat) (g : graph) (node : hkey) (st : dfs_state) :
  visit (S fuel) g node st
  = if mem node (stack st) then
      Some (mkDfs (visited st) (stack st) (set_update (in_cycle st) (stack st)))
    else if mem node (visited st) then Some st
    else
      match for_each (visit fuel g) (neighbours g node)
              (mkDfs (set_add node (visited st)) (set_add node (stack st))
                     (in_cycle st)) with
      | Some st2 =>
          Some (mkDfs (visited st2) (set_remove node (stack st2)) (in_cycle st2))
      | None => None
      end.
Proof. reflexivity. Qed.

Lemma visit_fuel_mono (fuel : nat) (g : graph) :
  forall node st st',
    visit fuel g node st = Some st' -> visit (S fuel) g node st = Some st'.
Proof.
  induction fuel as [|fuel IH]; intros node st st' Hrun; [discriminate|].
  rewrite visit_step in Hrun. rewrite visit_step.
  destruct (mem node (stack st)); [exact Hrun|].
  destruct (mem node (visited st)); [exact Hrun|].
  destruct (for_each (visit fuel g) _ _) as [st2|] eqn:E; [|discriminate].
  now rewrite (for_each_ext_some _ _ IH _ _ _ E).
Qed.

Lemma detect_cycles_fuel_mono (fuel : nat) (g : graph) (s : list hkey) :
  detect_cycles_fuel fuel g = Some s -> detect_cycles_fuel (S fuel) g = Some s.
Proof.
  unfold detect_cycles_fuel.
  destruct (for_each (visit_root fuel g) _ _) as [st|] eqn:E; [|discriminate].
  intros [= <-].
  rewrite (for_each_ext_some (visit_root fuel g) (visit_root (S fuel) g)) with (s' := st);
    [reflexivity| |exact E].
  intros x s0 s' H. unfold visit_root in *.
  destruct (mem x (visited s0)); [exact H|now apply visit_fuel_mono].
Qed.

(** Any bound above the number of nodes gives the result of
    [_detect_cycles]. *)
Lemma detect_cycles_any_fuel (g : graph) (extra : nat) :
  detect_cycles_fuel (extra + S (List.length (all_nodes g))) g
  = Some (_detect_cycles g).
Proof.
  induction extra as [|extra IH].
  - destruct (detect_cycles_fuel_enough g) as (s & Hs & -> & _). exact Hs.
  - now apply detect_cycles_fuel_mono.
Qed.

(** * Further properties *)

(** ** Factor scores *)

Section FactorBands.
Local Open Scope Q_scope.

Lemma py_max_spec (a b : Q) :
  (b <= a /\ py_max a b == a) \/ (a < b /\ py_max a b == b).
Proof.
  unfold py_max. destruct (Qle_bool b a) eqn:E.
  - left. apply Qle_bool_iff in E. split; [exact E|reflexivity].
  - right. apply Qle_bool_false in E. split; [exact E|reflexivity].
Qed.

Lemma clamp_cases (v lo hi : Q) :
  lo <= hi ->
  (v <= lo /\ _clamp v lo hi == lo)
  \/ (lo <= v <= hi /\ _clamp v lo hi == v)
  \/ (hi <= v /\ _clamp v lo hi == hi).
Proof.
  intros Hb. unfold _clamp.
  destruct (py_min_spec hi v) as [[H1 E1]|[H1 E1]];
  destruct (py_max_spec lo (py_min hi v)) as [[H2 E2]|[H2 E2]];
  rewrite E1 in H2; rewrite E2; try rewrite E1.
  - right; right. split; [exact H1|]. lra.
  - right; right. split; [exact H1|reflexivity].
  - left. split; [exact H2|reflexivity].
  - right; left. split; [lra|reflexivity].
Qed.

Lemma importance_by_value (i : Z) :
  ((i <= 1)%Z /\ _importance_score (Some i) == 10)
  \/ ((1 <= i <= 10)%Z /\ _importance_score (Some i) == 10 * inject_Z i)
  \/ ((10 <= i)%Z /\ _importance_score (Some i) == 100).
Proof.
  unfold _importance_score.
  destruct (clamp_cases (inject_Z i) 1.0 10.0) as [[H E]|[[H E]|[H E]]];
    [lra| | |].
  - left. split; [apply Zle_inject; change (inject_Z 1) with 1; lra|].
    rewrite E. field.
  - right; left. split;
      [split; apply Zle_inject;
       [change (inject_Z 1) with 1|change (inject_Z 10) with 10]; lra|].
    rewrite E. field.
  - right; right. split; [apply Zle_inject; change (inject_Z 10) with 10; lra|].
    rewrite E. field.
Qed.

Lemma urgency_band (due : option Z) (today : Z) :
  20 <= _urgency_score due today <= 100.
Proof.
  destruct due as [d|]; [|split; discriminate].
  destruct (urgency_by_delta d today) as [[C E]|[[C E]|[[C E]|[C E]]]];
    rewrite E; try lra.
  assert (1 <= inject_Z (d - today) <= 30).
  { split; [change 1 with (inject_Z 1)|change 30 with (inject_Z 30)];
      rewrite <- Zle_Qle; lia. }
  lra.
Qed.

Lemma importance_band (imp : option Z) : 10 <= _importance_score imp <= 100.
Proof.
  destruct imp as [i|]; [|split; discriminate].
  destruct (importance_by_value i) as [[C E]|[[C E]|[C E]]]; rewrite E; try lra.
  assert (1 <= inject_Z i <= 10).
  { split; [change 1 with (inject_Z 1)|change 10 with (inject_Z 10)];
      rewrite <- Zle_Qle; lia. }
  lra.
Qed.

Lemma effort_band (hours : option Q) : 20 <= _effort_score hours <= 100.
Proof.
  destruct hours as [h|]; [|split; discriminate].
  destruct (effort_by_hours h) as [[C E]|[[C E]|[[C E]|[[C E]|[C E]]]]];
    rewrite E; lra.
Qed.

Lemma build_graph_count_nonneg (tasks : list TaskInput) (k : hkey) :
  (0 <= count_get k (snd (_build_graph tasks)))%Z.
Proof.
  destruct (build_graph_counts tasks k) as [_ ->].
  destruct (has_key k (fst (_build_graph tasks)));
    [apply edge_occurrences_nonneg|lia].
Qed.

Lemma dependency_band (t : TaskInput) (c : counts) (s : list hkey) :
  (0 <= count_get (key_of (id t)) c)%Z ->
  30 <= _dependency_score t c s <= 85.
Proof.
  intros Hc. destruct (is_None (id t)) eqn:Hn.
  - unfold _dependency_score. rewrite Hn. split; discriminate.
  - destruct (dependency_score_cases t c s Hn) as [Hout Hin]. cbv zeta in *.
    pose proof (dependency_base_bounds _ Hc).
    destruct (mem (key_of (id t)) s);
      [rewrite (Hin eq_refl)|rewrite (Hout eq_refl)]; lra.
Qed.

End FactorBands.

(** X1: for bounds in order, [_clamp] returns the value itself when it lies
    between the bounds, the lower bound below them and the upper bound
    above them; the result always lies between the bounds. *)
Theorem clamp_between_bounds (v lo hi : Q) :
  (lo <= hi)%Q ->
  (lo <= _clamp v lo hi <= hi)%Q
  /\ ((lo <= v <= hi)%Q -> (_clamp v lo hi == v)%Q)
  /\ ((v <= lo)%Q -> (_clamp v lo hi == lo)%Q)
  /\ ((hi <= v)%Q -> (_clamp v lo hi == hi)%Q).
Proof.
  intros Hb.
  destruct (clamp_cases v lo hi Hb) as [[H E]|[[H E]|[H E]]]; rewrite E;
    repeat split; intros; try lra.
Qed.

Lemma clamp_between_bounds_witness :
  (1 <= _clamp 12 1 10 <= 10)%Q /\ (_clamp 12 1 10 == 10)%Q.
Proof.
  destruct (clamp_between_bounds 12 1 10) as (Hb & _ & _ & Hhi);
    [discriminate|].
  split; [exact Hb|]. apply Hhi. discriminate.
Defined.

(** The pieces of the importance scorer on the integers. *)
Lemma importance_score_pieces :
  (_importance_score None == 50)%Q
  /\ (forall i : Z, i <= 1 -> (_importance_score (Some i) == 10)%Q)
  /\ (forall i : Z, 1 <= i <= 10 ->
        (_importance_score (Some i) == 10 * inject_Z i)%Q)
  /\ (forall i : Z, 10 <= i -> (_importance_score (Some i) == 100)%Q)
  /\ (forall i j : Z, i <= j ->
        (_importance_score (Some i) <= _importance_score (Some j))%Q)
  /\ (forall i : Z, (10 <= _importance_score (Some i) <= 100)%Q).
Proof.
  assert (Hinj : forall a b : Z, a <= b -> (inject_Z a <= inject_Z b)%Q)
    by (intros; now rewrite <- Zle_Qle).
  split; [reflexivity|]. split; [|split; [|split; [|split]]].
  - intros i Hi.
    destruct (importance_by_value i) as [[C E]|[[C E]|[C E]]].
    + exact E.
    + rewrite E. replace i with 1 by lia. reflexivity.
    + exfalso. lia.
  - intros i Hi.
    destruct (importance_by_value i) as [[C E]|[[C E]|[C E]]].
    + rewrite E. replace i with 1 by lia. reflexivity.
    + exact E.
    + rewrite E. replace i with 10 by lia. reflexivity.
  - intros i Hi.
    destruct (importance_by_value i) as [[C E]|[[C E]|[C E]]].
    + exfalso. lia.
    + rewrite E. replace i with 10 by lia. reflexivity.
    + exact E.
  - intros i j Hij.
    pose proof (Hinj _ _ Hij) as Hq.
    assert (B1 : 1 <= i -> (1 <= inject_Z i)%Q) by (intros H; exact (Hinj 1 i H)).
    assert (B2 : i <= 10 -> (inject_Z i <= 10)%Q) by (intros H; exact (Hinj i 10 H)).
    assert (B3 : 1 <= j -> (1 <= inject_Z j)%Q) by (intros H; exact (Hinj 1 j H)).
    assert (B4 : j <= 10 -> (inject_Z j <= 10)%Q) by (intros H; exact (Hinj j 10 H)).
    assert (B5 : 10 <= i -> (10 <= inject_Z i)%Q) by (intros H; exact (Hinj 10 i H)).
    assert (B6 : j <= 1 -> (inject_Z j <= 1)%Q) by (intros H; exact (Hinj j 1 H)).
    destruct (importance_by_value i) as [[Ci Ei]|[[Ci Ei]|[Ci Ei]]];
    destruct (importance_by_value j) as [[Cj Ej]|[[Cj Ej]|[Cj Ej]]];
    rewrite Ei, Ej;
    first [ exfalso; lia
          | try (specialize (B1 ltac:(lia))); try (specialize (B2 ltac:(lia)));
            try (specialize (B3 ltac:(lia))); try (specialize (B4 ltac:(lia)));
            try (specialize (B5 ltac:(lia))); try (specialize (B6 ltac:(lia)));
            lra ].
  - intros i. apply importance_band.
Qed.

(** X2: for an importance that [float] accepts, the importance score is
    ten times the importance clamped into 1..10: 10 at or below 1, 100 at
    or above 10; it never decreases with the importance and lies in
    [10,100]; missing importance scores 50. *)
Theorem importance_score_clamped :
  (_importance_score None == 50)%Q
  /\ (forall i : Z, in_float_range i -> i <= 1 ->
        (_importance_score (Some i) == 10)%Q)
  /\ (forall i : Z, 1 <= i <= 10 ->
        in_float_range i /\ (_importance_score (Some i) == 10 * inject_Z i)%Q)
  /\ (forall i : Z, in_float_range i -> 10 <= i ->
        (_importance_score (Some i) == 100)%Q)
  /\ (forall i j : Z, in_float_range i -> in_float_range j -> i <= j ->
        (_importance_score (Some i) <= _importance_score (Some j))%Q)
  /\ (forall i : Z, in_float_range i ->
        (10 <= _importance_score (Some i) <= 100)%Q).
Proof.
  destruct importance_score_pieces as (H0 & H1 & H2 & H3 & H4 & H5).
  split; [exact H0|]. split; [intros i _; apply H1|].
  split; [|split; [intros i _; apply H3|split;
                   [intros i j _ _; apply H4|intros i _; apply H5]]].
  intros i Hi. split; [|now apply H2].
  unfold in_float_range, float_max_int.
  assert (10 < 2 ^ 1024 - 2 ^ 970) by (vm_compute; reflexivity). lia.
Qed.

Lemma importance_score_clamped_witness :
  (_importance_score (Some 7%Z) == 10 * inject_Z 7)%Q
  /\ (_importance_score (Some (2 ^ 100)%Z) == 100)%Q.
Proof.
  destruct importance_score_clamped as (_ & _ & Hmid & Hhigh & _).
  split; [apply Hmid; lia|].
  apply Hhigh; [|vm_compute; discriminate].
  split; vm_compute; reflexivity.
Defined.

Lemma dependency_band_in_ranking (tasks : list TaskInput) (t : TaskInput) :
  (30 <= ranking_dependency_score tasks t <= 85)%Q.
Proof.
  unfold ranking_dependency_score.
  pose proof (build_graph_count_nonneg tasks (key_of (id t))) as Hc.
  destruct (_build_graph tasks) as [g c]. now apply dependency_band.
Qed.

(** X3: within a ranking call every factor score lies in its band:
    urgency and effort in [20,100], importance in [10,100], dependency in
    [30,85]. *)
Theorem factor_scores_in_band (today : Z) (tasks : list TaskInput) (t : TaskInput) :
  (20 <= _urgency_score (due_date t) today <= 100)%Q
  /\ (10 <= _importance_score (importance t) <= 100)%Q
  /\ (20 <= _effort_score (estimated_hours t) <= 100)%Q
  /\ (30 <= ranking_dependency_score tasks t <= 85)%Q.
Proof.
  split; [apply urgency_band|]. split; [apply importance_band|].
  split; [apply effort_band|apply dependency_band_in_ranking].
Qed.

(** ** The combiner *)

Section CombinerFacts.
Local Open Scope Q_scope.

Lemma combiner_ok_cases (u i e d : Q) (s : string) (c : Q) :
  _compute_score_for_strategy u i e d s = Ok c ->
  c = 0.60 * e + 0.25 * i + 0.15 * u
  \/ c = 0.70 * i + 0.20 * u + 0.10 * d
  \/ c = 0.70 * u + 0.20 * i + 0.10 * d
  \/ c = 0.35 * i + 0.30 * u + 0.20 * d + 0.15 * e.
Proof.
  unfold _compute_score_for_strategy.
  destruct (String.eqb _ "fastest_wins"); [intros [= <-]; auto|].
  destruct (String.eqb _ "high_impact"); [intros [= <-]; auto|].
  destruct (String.eqb _ "deadline_driven"); [intros [= <-]; auto|].
  destruct (String.eqb _ "smart_balance"); [intros [= <-]; auto 6|discriminate].
Qed.

Lemma combiner_same_strategy (u i e d u' i' e' d' : Q) (s : string) (c : Q) :
  _compute_score_for_strategy u i e d s = Ok c ->
  exists c', _compute_score_for_strategy u' i' e' d' s = Ok c'.
Proof.
  unfold _compute_score_for_strategy.
  destruct (String.eqb _ "fastest_wins"); [eexists; reflexivity|].
  destruct (String.eqb _ "high_impact"); [eexists; reflexivity|].
  destruct (String.eqb _ "deadline_driven"); [eexists; reflexivity|].
  destruct (String.eqb _ "smart_balance"); [eexists; reflexivity|discriminate].
Qed.

End CombinerFacts.

(** X4: under any strategy the combiner accepts, raising a factor score
    never lowers the composite score. *)
Theorem composite_monotone (u i e d u' i' e' d' : Q) (s : string) (c c' : Q) :
  _compute_score_for_strategy u i e d s = Ok c ->
  _compute_score_for_strategy u' i' e' d' s = Ok c' ->
  (u <= u')%Q -> (i <= i')%Q -> (e <= e')%Q -> (d <= d')%Q ->
  (c <= c')%Q.
Proof.
  unfold _compute_score_for_strategy.
  destruct (String.eqb _ "fastest_wins"); [intros [= <-] [= <-]; intros; lra|].
  destruct (String.eqb _ "high_impact"); [intros [= <-] [= <-]; intros; lra|].
  destruct (String.eqb _ "deadline_driven"); [intros [= <-] [= <-]; intros; lra|].
  destruct (String.eqb _ "smart_balance"); [intros [= <-] [= <-]; intros; lra|].
  discriminate.
Qed.

Lemma composite_monotone_witness :
  (0.70 * 50 + 0.20 * 20 + 0.10 * 40 <= 0.70 * 90 + 0.20 * 20 + 0.10 * 40)%Q.
Proof.
  apply (composite_monotone 20 50 95 40 20 90 95 40 "high_impact");
    try reflexivity; discriminate.
Defined.

(** ** Rounding *)

Section Rounding.
Local Open Scope Q_scope.

Lemma round_half_even_between (x : Q) (lo hi : Z) :
  inject_Z lo <= x <= inject_Z hi ->
  (lo <= round_half_even x <= hi)%Z.
Proof.
  intros [Hlo Hhi].
  pose proof (Qfloor_le x) as Hf. pose proof (Qlt_floor x) as Hc.
  assert (Hlof : (lo <= Qfloor x)%Z).
  { apply Z.lt_succ_r. rewrite Zlt_Qlt. unfold Z.succ. lra. }
  unfold round_half_even.
  destruct (Qcompare (x - inject_Z (Qfloor x)) (1 # 2)) eqn:E.
  - apply Qeq_alt in E.
    assert ((Qfloor x < hi)%Z) by (rewrite Zlt_Qlt; lra).
    destruct (Z.even (Qfloor x)); lia.
  - assert ((Qfloor x <= hi)%Z) by (rewrite Zle_Qle; lra). lia.
  - apply Qgt_alt in E.
    assert ((Qfloor x < hi)%Z) by (rewrite Zlt_Qlt; lra). lia.
Qed.

Lemma round2_between (x : Q) (lo hi : Z) :
  inject_Z lo <= x <= inject_Z hi -> inject_Z lo <= round2 x <= inject_Z hi.
Proof.
  intros [Hlo Hhi]. unfold round2.
  destruct (round_half_even_between (x * 100) (lo * 100) (hi * 100)) as [H1 H2].
  { rewrite !inject_Z_mult. change (inject_Z 100) with 100. lra. }
  rewrite Zle_Qle in H1, H2. rewrite inject_Z_mult in H1, H2.
  change (inject_Z 100) with 100 in H1, H2.
  split.
  - apply Qle_shift_div_l; [reflexivity|exact H1].
  - apply Qle_shift_div_r; [reflexivity|exact H2].
Qed.

End Rounding.

(** ** The scoring loop *)

Lemma mapM_Forall2 {A B : Type} (f : A -> result B) (l : list A) (ys : list B) :
  mapM f l = Ok ys -> Forall2 (fun x y => f x = Ok y) l ys.
Proof.
  revert ys. induction l as [|x l IH]; intros ys; simpl.
  - intros [= <-]. constructor.
  - destruct (f x) as [y|e] eqn:Hx; [|discriminate]. simpl.
    destruct (mapM f l) as [ys'|e]; [|discriminate]. simpl.
    intros [= <-]. constructor; [exact Hx|now apply IH].
Qed.

Lemma mapM_raises {A B : Type} (f : A -> result B) (l : list A) (e : exn) :
  l <> [] -> (forall x, f x = Raise e) -> mapM f l = Raise e.
Proof.
  intros Hl Hf. destruct l as [|x l]; [congruence|]. simpl. now rewrite Hf.
Qed.

Lemma task_of_ranked_score_task (today : Z) (c : counts) (s : list hkey)
    (strategy : string) (t : TaskInput) (r : ranked_task) :
  score_task today c s strategy t = Ok r -> task_of_ranked r = t.
Proof.
  unfold score_task.
  destruct (_compute_score_for_strategy _ _ _ _ strategy); [|discriminate].
  simpl. intros [= <-]. now destruct t.
Qed.

Section ScoringLoop.
Context {R : PyRuntime}.

Lemma score_tasks_tasks (today : Z) (raw : list raw_entry) (strategy : string)
    (results : list ranked_task) :
  score_tasks today raw strategy = Ok results ->
  map task_of_ranked results = normalise_tasks raw.
Proof.
  unfold score_tasks. destruct (_build_graph (normalise_tasks raw)) as [g c].
  intros H. apply mapM_Forall2 in H.
  induction H as [|t r ts rs Hr _ IH]; [reflexivity|]. simpl.
  now rewrite (task_of_ranked_score_task _ _ _ _ _ _ Hr), IH.
Qed.

Lemma score_tasks_scores (today : Z) (raw : list raw_entry) (strategy : string)
    (results : list ranked_task) :
  score_tasks today raw strategy = Ok results ->
  Forall (fun r =>
            exists c, composite today (normalise_tasks raw) strategy
                        (task_of_ranked r) = Ok c
                      /\ score r = round2 c) results.
Proof.
  unfold score_tasks, composite, ranking_dependency_score.
  destruct (_build_graph (normalise_tasks raw)) as [g c].
  intros H. apply mapM_Forall2 in H.
  induction H as [|t r ts rs Hr _ IH]; constructor; [|exact IH].
  rewrite (task_of_ranked_score_task _ _ _ _ _ _ Hr).
  unfold score_task in Hr.
  destruct (_compute_score_for_strategy _ _ _ _ strategy) as [x|]; [|discriminate].
  simpl in Hr. injection Hr as <-. exists x. split; reflexivity.
Qed.

Lemma rank_tasks_inv (today : Z) (raw : list raw_entry) (strategy : string)
    (ranked : list ranked_task) :
  rank_tasks today raw strategy = Ok ranked ->
  exists results, score_tasks today raw strategy = Ok results
                  /\ ranked = list_sort (sort_key today) tuple_lt results.
Proof.
  unfold rank_tasks. destruct (score_tasks today raw strategy) as [results|];
    [|discriminate].
  simpl. intros [= <-]. now exists results.
Qed.

End ScoringLoop.

Lemma normalise_from_length {R : PyRuntime} (idx : Z) (raw : list raw_entry) :
  List.length (normalise_from idx raw) = count_records raw.
Proof.
  revert idx. unfold count_records.
  induction raw as [|[|r] raw IH]; intros idx; simpl; [reflexivity|apply IH|].
  now rewrite IH.
Qed.

(** X5: every score that [rank_tasks] reports lies between 14 and 100,
    whatever the tasks and the strategy. *)
Theorem ranked_scores_bounded {R : PyRuntime}
    (today : Z) (raw : list raw_entry) (strategy : string)
    (ranked : list ranked_task) (r : ranked_task) :
  rank_tasks today raw strategy = Ok ranked -> In r ranked ->
  (14 <= score r <= 100)%Q.
Proof.
  intros Hrank Hin.
  destruct (rank_tasks_inv _ _ _ _ Hrank) as (results & Hres & ->).
  apply (Permutation_in _ (Permutation_sym (list_sort_perm _ _ results))) in Hin.
  pose proof (score_tasks_scores _ _ _ _ Hres) as Hall.
  rewrite Forall_forall in Hall. destruct (Hall r Hin) as (c & Hc & Hs).
  rewrite Hs.
  apply (round2_between c 14 100).
  pose proof (urgency_band (due_date (task_of_ranked r)) today) as Hu.
  pose proof (importance_band (importance (task_of_ranked r))) as Hi.
  pose proof (effort_band (estimated_hours (task_of_ranked r))) as He.
  pose proof (dependency_band_in_ranking (normalise_tasks raw) (task_of_ranked r))
    as Hd.
  unfold composite in Hc.
  destruct (combiner_ok_cases _ _ _ _ _ _ Hc) as [-> | [-> | [-> | ->]]];
    change (inject_Z 14) with 14%Q; change (inject_Z 100) with 100%Q; lra.
Qed.

Lemma ranked_scores_bounded_witness :
  (14 <= score (mkRanked (AInt 1) "Untitled task" None None None []
                  (round2 (0.35 * 50.0 + 0.30 * 50.0 + 0.20 * 40.0 + 0.15 * 50.0)))
      <= 100)%Q.
Proof.
  apply (ranked_scores_bounded (R := PlainRuntime.runtime) example_today
           [IsDict (mkRaw None None None None None None)] "smart_balance"
           [mkRanked (AInt 1) "Untitled task" None None None []
              (round2 (0.35 * 50.0 + 0.30 * 50.0 + 0.20 * 40.0 + 0.15 * 50.0))]
           (mkRanked (AInt 1) "Untitled task" None None None []
              (round2 (0.35 * 50.0 + 0.30 * 50.0 + 0.20 * 40.0 + 0.15 * 50.0))));
    [reflexivity | left; reflexivity].
Defined.

(** X6: ranking neither drops, invents nor alters a task: without their
    scores, the ranked records are the normalised tasks in some order, one
    for each record of the raw input. *)
Theorem rank_tasks_keeps_tasks {R : PyRuntime}
    (today : Z) (raw : list raw_entry) (strategy : string)
    (ranked : list ranked_task) :
  rank_tasks today raw strategy = Ok ranked ->
  Permutation (map task_of_ranked ranked) (normalise_tasks raw)
  /\ List.length ranked = count_records raw.
Proof.
  intros Hrank.
  destruct (rank_tasks_inv _ _ _ _ Hrank) as (results & Hres & ->).
  pose proof (score_tasks_tasks _ _ _ _ Hres) as Htasks.
  assert (Hperm : Permutation
                    (map task_of_ranked (list_sort (sort_key today) tuple_lt results))
                    (normalise_tasks raw)).
  { rewrite <- Htasks. apply Permutation_map, Permutation_sym, list_sort_perm. }
  split; [exact Hperm|].
  apply Permutation_length in Hperm. rewrite length_map in Hperm.
  rewrite Hperm. apply normalise_from_length.
Qed.

Lemma rank_tasks_keeps_tasks_witness :
  exists ranked : list ranked_task,
    rank_tasks (R := PlainRuntime.runtime) example_today example_raw "high_impact"
    = Ok ranked
    /\ List.length ranked = 3%nat.
Proof.
  destruct (rank_tasks (R := PlainRuntime.runtime) example_today example_raw
              "high_impact") as [ranked|e] eqn:E; [|vm_compute in E; discriminate E].
  exists ranked. split; [reflexivity|].
  exact (proj2 (rank_tasks_keeps_tasks (R := PlainRuntime.runtime) _ _ _ _ E)).
Defined.

(** The outcome of [rank_tasks] by strategy name and number of records. *)
Lemma rank_tasks_outcome {R : PyRuntime}
    (today : Z) (raw : list raw_entry) (s : string) :
  (s = "" \/ recognized s = true \/ count_records raw = 0%nat ->
   exists ranked, rank_tasks today raw s = Ok ranked
                  /\ List.length ranked = count_records raw)
  /\ (s <> "" -> recognized s = false -> count_records raw <> 0%nat ->
      rank_tasks today raw s
      = Raise (StrategyError ("Unknown strategy: " ++ s)%string)).
Proof.
  split.
  - intros H.
    assert (Hok : exists results, score_tasks today raw s = Ok results).
    { destruct H as [->|[H|H]].
      - rewrite score_tasks_empty_strategy. now apply score_tasks_recognized.
      - now apply score_tasks_recognized.
      - unfold score_tasks.
        destruct (_build_graph (normalise_tasks raw)) as [g c].
        unfold normalise_tasks.
        pose proof (normalise_from_length 1 raw) as Hlen. rewrite H in Hlen.
        destruct (normalise_from 1 raw); [|discriminate Hlen].
        eexists; reflexivity. }
    destruct Hok as [results Hres].
    exists (list_sort (sort_key today) tuple_lt results).
    split; [unfold rank_tasks; now rewrite Hres|].
    rewrite <- (Permutation_length (list_sort_perm _ _ results)).
    rewrite <- (normalise_from_length 1 raw).
    fold (normalise_tasks raw). rewrite <- (score_tasks_tasks _ _ _ _ Hres).
    now rewrite length_map.
  - intros Hs Hr Hn. unfold rank_tasks.
    rewrite score_tasks_unrecognized; [reflexivity|assumption..|].
    intros Hnil. apply Hn. rewrite <- (normalise_from_length 1 raw).
    fold (normalise_tasks raw). now rewrite Hnil.
Qed.

(** X7: [rank_tasks] raises its StrategyError only for a strategy name
    that is non-empty and not one of the four, on an input that holds at
    least one record, and the message names the strategy; a call that
    returns was given the empty name, one of the four names, or no record,
    and returns one ranked task for each record; an input without records
    is ranked to the empty list under any name. *)
Theorem rank_tasks_strategy_error {R : PyRuntime}
    (today : Z) (raw : list raw_entry) (s : string) :
  (forall msg, rank_tasks today raw s = Raise (StrategyError msg) ->
     s <> "" /\ recognized s = false /\ count_records raw <> 0%nat
     /\ msg = ("Unknown strategy: " ++ s)%string)
  /\ (forall ranked, rank_tasks today raw s = Ok ranked ->
        (s = "" \/ recognized s = true \/ count_records raw = 0%nat)
        /\ List.length ranked = count_records raw)
  /\ (count_records raw = 0%nat -> rank_tasks today raw s = Ok []).
Proof.
  destruct (rank_tasks_outcome today raw s) as [Hok Hbad].
  assert (Hdec : (s = "" \/ recognized s = true \/ count_records raw = 0%nat)
                 \/ (s <> "" /\ recognized s = false
                     /\ count_records raw <> 0%nat)).
  { destruct (String.eqb_spec s "") as [->|Hs]; [left; now left|].
    destruct (recognized s) eqn:Hr; [left; right; now left|].
    destruct (count_records raw) as [|n]; [left; right; now right|].
    right. repeat split; [exact Hs|discriminate]. }
  split; [|split].
  - intros msg H. destruct Hdec as [Hd|(H1 & H2 & H3)].
    + destruct (Hok Hd) as (ranked & Hr & _). congruence.
    + rewrite (Hbad H1 H2 H3) in H. injection H as <-. now repeat split.
  - intros ranked H. destruct Hdec as [Hd|(H1 & H2 & H3)].
    + split; [exact Hd|]. destruct (Hok Hd) as (ranked' & Hr & Hlen).
      rewrite Hr in H. now injection H as <-.
    + rewrite (Hbad H1 H2 H3) in H. discriminate H.
  - intros H0. destruct (Hok (or_intror (or_intror H0))) as (ranked & Hr & Hlen).
    rewrite H0 in Hlen. destruct ranked; [exact Hr|discriminate Hlen].
Qed.

Lemma rank_tasks_strategy_error_witness :
  rank_tasks (R := PlainRuntime.runtime) example_today [NotDict; NotDict] "bogus"
  = Ok []
  /\ (count_records example_raw <> 0%nat /\ recognized "bogus" = false).
Proof.
  destruct (rank_tasks_strategy_error (R := PlainRuntime.runtime) example_today
              [NotDict; NotDict] "bogus") as (_ & _ & Hnone).
  destruct (rank_tasks_strategy_error (R := PlainRuntime.runtime) example_today
              example_raw "bogus") as (Hraise & _).
  split; [apply Hnone; reflexivity|].
  destruct (Hraise "Unknown strategy: bogus" eq_refl) as (_ & Hr & Hn & _).
  split; [exact Hn|exact Hr].
Defined.

(** ** Strings *)

Lemma lstrip_head (s : string) :
  lstrip s = EmptyString
  \/ exists c r, lstrip s = String c r /\ is_space c = false.
Proof.
  induction s as [|c s IH]; simpl; [now left|].
  destruct (is_space c) eqn:E; [exact IH|]. right. now exists c, s.
Qed.

Lemma rstrip_cons (c : ascii) (r : string) :
  rstrip (String c r)
  = match rstrip r with
    | EmptyString => if is_space c then EmptyString else String c EmptyString
    | String c' r' => String c (String c' r')
    end.
Proof. reflexivity. Qed.

Lemma rstrip_idempotent (s : string) : rstrip (rstrip s) = rstrip s.
Proof.
  induction s as [|c s IH]; [reflexivity|].
  rewrite rstrip_cons. destruct (rstrip s) as [|c' r'] eqn:E.
  - destruct (is_space c) eqn:Hc; [reflexivity|].
    rewrite rstrip_cons. simpl. now rewrite Hc.
  - rewrite rstrip_cons, IH. reflexivity.
Qed.

Lemma rstrip_head (c : ascii) (r : string) :
  is_space c = false -> exists r', rstrip (String c r) = String c r'.
Proof.
  intros Hc. cbn [rstrip]. destruct (rstrip r); [rewrite Hc|]; eexists; reflexivity.
Qed.

Lemma strip_idempotent (s : string) : strip (strip s) = strip s.
Proof.
  unfold strip. destruct (lstrip_head s) as [->|(c & r & -> & Hc)]; [reflexivity|].
  destruct (rstrip_head c r Hc) as [r' Hr]. rewrite Hr.
  cbn [lstrip]. rewrite Hc, <- Hr. apply rstrip_idempotent.
Qed.

Lemma occurs_lstrip (c : ascii) (s : string) :
  occurs c s = false -> occurs c (lstrip s) = false.
Proof.
  induction s as [|a s IH]; [reflexivity|]. simpl.
  intros H. apply orb_false_iff in H. destruct H as [Ha Hs].
  destruct (is_space a); [now apply IH|]. simpl. now rewrite Ha, Hs.
Qed.

Lemma occurs_rstrip (c : ascii) (s : string) :
  occurs c s = false -> occurs c (rstrip s) = false.
Proof.
  induction s as [|a s IH]; [reflexivity|]. simpl.
  intros H. apply orb_false_iff in H. destruct H as [Ha Hs].
  specialize (IH Hs). destruct (rstrip s) as [|a' r'].
  - destruct (is_space a); [reflexivity|]. simpl. now rewrite Ha.
  - simpl in *. now rewrite Ha, IH.
Qed.

Lemma occurs_strip (c : ascii) (s : string) :
  occurs c s = false -> occurs c (strip s) = false.
Proof.
  intros H. unfold strip. now apply occurs_rstrip, occurs_lstrip.
Qed.

Lemma split_not_nil (sep : ascii) (s : string) : split sep s <> [].
Proof.
  destruct s as [|c s]; simpl; [discriminate|].
  destruct (Ascii.eqb c sep); [discriminate|].
  destruct (split sep s); discriminate.
Qed.

(** The pieces of a split do not contain the separator. *)
Lemma split_pieces (sep : ascii) (s p : string) :
  In p (split sep s) -> occurs sep p = false.
Proof.
  revert p. induction s as [|c s IH]; intros p; simpl.
  - intros [<-|[]]. reflexivity.
  - destruct (Ascii.eqb c sep) eqn:E.
    + intros [<-|H]; [reflexivity|now apply IH].
    + destruct (split sep s) as [|q qs] eqn:Hq.
      * intros [<-|[]]. simpl. now rewrite E.
      * intros [<-|H]; [|apply IH; now right].
        simpl. rewrite E. apply IH. now left.
Qed.

Lemma split_no_sep (sep : ascii) (s : string) :
  occurs sep s = false -> split sep s = [s].
Proof.
  induction s as [|c s IH]; [reflexivity|]. simpl.
  intros H. apply orb_false_iff in H. destruct H as [Hc Hs].
  now rewrite Hc, (IH Hs).
Qed.

Lemma split_app (sep : ascii) (s t : string) :
  occurs sep s = false ->
  split sep (s ++ String sep t) = s :: split sep t.
Proof.
  induction s as [|c s IH]; simpl.
  - intros _. now rewrite Ascii.eqb_refl.
  - intros H. apply orb_false_iff in H. destruct H as [Hc Hs].
    now rewrite Hc, (IH Hs).
Qed.

(** Splitting undoes joining, when no piece contains the separator. *)
Lemma split_join (sep : ascii) (l : list string) :
  l <> [] -> (forall p, In p l -> occurs sep p = false) ->
  split sep (join sep l) = l.
Proof.
  induction l as [|p l IH]; [congruence|]. intros _ Hl.
  destruct l as [|q l].
  - simpl. apply split_no_sep. apply Hl. now left.
  - cbn [join]. rewrite split_app by (apply Hl; now left).
    f_equal. apply IH; [discriminate|]. intros r Hr. apply Hl. now right.
Qed.

Lemma join_split (sep : ascii) (s : string) : join sep (split sep s) = s.
Proof.
  induction s as [|c s IH]; [reflexivity|]. simpl.
  destruct (Ascii.eqb_spec c sep) as [->|Hne].
  - pose proof (split_not_nil sep s) as Hn.
    cbn [join]. destruct (split sep s) as [|q qs]; [congruence|].
    simpl. now rewrite <- IH.
  - destruct (split sep s) as [|q qs] eqn:Hq; [now apply split_not_nil in Hq|].
    rewrite <- IH. destruct qs; reflexivity.
Qed.

(** ** The normaliser *)

Section NormaliserShape.
Context {R : PyRuntime}.




Lemma normalise_deps_string (r : raw_record) (s : string) :
  raw_dependencies r = Some (DepsStr s) ->
  normalise_deps r
  = map AStr (filter (fun d => negb (String.eqb d "")) (map strip (split "," s))).
Proof.
  intros H. unfold normalise_deps. rewrite H.
  destruct (String.eqb_spec s "") as [->|_]; [reflexivity|].
  induction (split "," s) as [|p ps IH]; [reflexivity|]. simpl.
  destruct (String.eqb (strip p) ""); simpl; now rewrite IH.
Qed.

End NormaliserShape.



(** X9: dependencies given as a string become the pieces between its
    commas, trimmed, without the empty ones, in order: every entry is a
    non-empty string with no comma and no surrounding whitespace, and a
    comma-joined list of pieces gives back the trimmed non-empty pieces. *)
Theorem dependencies_from_string (r : raw_record) (s : string) :
  raw_dependencies r = Some (DepsStr s) ->
  (forall d, In d (normalise_deps r) ->
     exists p, d = AStr p /\ p <> "" /\ strip p = p /\ occurs "," p = false)
  /\ (forall pieces : list string,
        pieces <> [] -> (forall p, In p pieces -> occurs "," p = false) ->
        s = join "," pieces ->
        normalise_deps r
        = map AStr (filter (fun d => negb (String.eqb d "")) (map strip pieces))).
Proof.
  intros H. rewrite (normalise_deps_string r s H). split.
  - intros d Hd. apply in_map_iff in Hd. destruct Hd as (p & <- & Hp).
    apply filter_In in Hp. destruct Hp as [Hp Hne].
    apply in_map_iff in Hp. destruct Hp as (q & <- & Hq).
    exists (strip q). split; [reflexivity|].
    split; [destruct (String.eqb_spec (strip q) ""); [discriminate|assumption]|].
    split; [apply strip_idempotent|].
    apply occurs_strip. exact (split_pieces _ _ _ Hq).
  - intros pieces Hne Hp ->. now rewrite split_join.
Qed.

Lemma dependencies_from_string_witness :
  normalise_deps (mkRaw None None None None None (Some (DepsStr "2, 3,, 2")))
  = [AStr "2"; AStr "3"; AStr "2"].
Proof.
  destruct (dependencies_from_string
              (mkRaw None None None None None (Some (DepsStr "2, 3,, 2")))
              "2, 3,, 2" eq_refl) as [_ H].
  apply (H ["2"; " 3"; ""; " 2"]); [discriminate| |reflexivity].
  intros p [<-|[<-|[<-|[<-|[]]]]]; reflexivity.
Defined.

(** ** The shape of the built graph *)

Section AssocShape.
Context {V : Type}.
Implicit Types (m : list (hkey * V)) (k : hkey) (v : V).

Lemma has_key_In k m : has_key k m = true <-> In k (map fst m).
Proof.
  unfold has_key. induction m as [|[k0 v0] m IH]; simpl.
  - split; [discriminate|intros []].
  - destruct (hkey_eqb_spec k0 k) as [->|Hne].
    + split; [now left|reflexivity].
    + rewrite IH. split; [now right|]. intros [H|H]; [congruence|exact H].
Qed.

Lemma has_key_false k m : has_key k m = false <-> ~ In k (map fst m).
Proof.
  rewrite <- has_key_In. destruct (has_key k m); split; congruence.
Qed.

Lemma assoc_set_present_keys k v m :
  has_key k m = true -> map fst (assoc_set k v m) = map fst m.
Proof.
  unfold has_key. induction m as [|[k0 v0] m IH]; simpl; [discriminate|].
  destruct (hkey_eqb_spec k0 k) as [->|Hne]; [reflexivity|].
  intros H. simpl. now rewrite IH.
Qed.

Lemma assoc_set_absent k v m :
  has_key k m = false -> assoc_set k v m = m ++ [(k, v)].
Proof.
  unfold has_key. induction m as [|[k0 v0] m IH]; simpl; [reflexivity|].
  destruct (hkey_eqb_spec k0 k) as [->|Hne]; [discriminate|].
  intros H. now rewrite IH.
Qed.

Lemma setdefault_keys_NoDup k v m :
  NoDup (map fst m) -> NoDup (map fst (setdefault k v m)).
Proof.
  intros Hm. unfold setdefault. destruct (has_key k m) eqn:E; [exact Hm|].
  rewrite (assoc_set_absent _ _ _ E), map_app. simpl.
  apply NoDup_app; [exact Hm|constructor; [intros []|constructor]|].
  intros x Hx [<-|[]]. now apply has_key_false in E.
Qed.

(** A dictionary is its keys, in order, with their values. *)
Lemma assoc_ext m1 m2 :
  map fst m1 = map fst m2 -> NoDup (map fst m1) ->
  (forall k, In k (map fst m1) -> assoc_get k m1 = assoc_get k m2) ->
  m1 = m2.
Proof.
  revert m2. induction m1 as [|[k1 v1] m1 IH]; intros m2 Hk Hn Hg;
    destruct m2 as [|[k2 v2] m2]; try discriminate Hk; [reflexivity|].
  simpl in Hk. injection Hk as -> Hk. inversion Hn as [|? ? Hnot Hn']; subst.
  pose proof (Hg k2 (or_introl eq_refl)) as Hhead. simpl in Hhead.
  rewrite hkey_eqb_refl in Hhead. injection Hhead as ->.
  f_equal. apply IH; [exact Hk|exact Hn'|].
  intros k Hin. specialize (Hg k (or_intror Hin)). simpl in Hg.
  destruct (hkey_eqb_spec k2 k) as [->|_]; [contradiction|exact Hg].
Qed.

End AssocShape.

Lemma key_of_None (a : atom) : key_of a = KNone -> a = ANone.
Proof.
  destruct a as [|b|z|q|s]; try discriminate. reflexivity.
Qed.

Lemma is_task_key_node (tasks : list TaskInput) (k : hkey) :
  is_task_key tasks k = true <-> is_node tasks k.
Proof.
  unfold is_task_key, is_node, identified. rewrite existsb_exists.
  split; intros (t & Ht & H); exists t; (split; [exact Ht|]).
  - apply andb_true_iff in H. destruct H as [H1 H2].
    apply negb_true_iff in H1. apply hkey_eqb_eq in H2. now split.
  - destruct H as [H1 H2]. now rewrite H1, H2, hkey_eqb_refl.
Qed.

Lemma declare_nodes_NoDup (tasks : list TaskInput) (g : graph) (c : counts) :
  NoDup (map fst g) -> map fst c = map fst g ->
  NoDup (map fst (fst (declare_nodes tasks g c)))
  /\ map fst (snd (declare_nodes tasks g c))
     = map fst (fst (declare_nodes tasks g c)).
Proof.
  revert g c. induction tasks as [|t ts IH]; intros g c Hn Hc; simpl; [now split|].
  destruct (is_None (id t)); [now apply IH|].
  apply IH; [now apply setdefault_keys_NoDup|].
  unfold setdefault.
  assert (Hsame : has_key (key_of (id t)) c = has_key (key_of (id t)) g).
  { apply eq_true_iff_eq. now rewrite !has_key_In, Hc. }
  destruct (has_key (key_of (id t)) g) eqn:Eg; rewrite Hsame; [exact Hc|].
  rewrite (assoc_set_absent _ _ g Eg), (assoc_set_absent _ _ c Hsame).
  now rewrite !map_app, Hc.
Qed.

Lemma collect_deps_keys (g : graph) (ds : list atom) (deps : list hkey) (c : counts) :
  map fst c = map fst g ->
  map fst (snd (collect_deps g ds deps c)) = map fst g.
Proof.
  revert deps c. induction ds as [|dep ds IH]; intros deps c Hc; simpl; [exact Hc|].
  destruct (has_key (key_of dep) g) eqn:E; [|now apply IH].
  apply IH. rewrite assoc_set_present_keys; [exact Hc|].
  apply has_key_In. rewrite Hc. now apply has_key_In.
Qed.

Lemma link_tasks_shape (tasks : list TaskInput) (g : graph) (c : counts) :
  (forall t, In t tasks -> is_None (id t) = false -> has_key (key_of (id t)) g = true) ->
  map fst c = map fst g ->
  (forall k d, In d (neighbours g k) -> In d (map fst g)) ->
  map fst (fst (link_tasks tasks g c)) = map fst g
  /\ map fst (snd (link_tasks tasks g c)) = map fst g
  /\ (forall k d, In d (neighbours (fst (link_tasks tasks g c)) k) ->
                  In d (map fst g)).
Proof.
  revert g c. induction tasks as [|t ts IH]; intros g c Hnodes Hc Hedges; simpl;
    [now repeat split|].
  destruct (is_None (id t)) eqn:Hn.
  - apply IH; [|exact Hc|exact Hedges].
    intros; apply Hnodes; [now right|assumption].
  - pose proof (collect_deps_keys g (dependencies t) [] c Hc) as Hck.
    pose proof (collect_deps_deps g (dependencies t) [] c) as Hd.
    destruct (collect_deps g (dependencies t) [] c) as [deps c'].
    simpl in Hck, Hd. subst deps.
    assert (Ht : has_key (key_of (id t)) g = true)
      by (apply Hnodes; [now left|assumption]).
    pose proof (assoc_set_present_keys (key_of (id t))
                  (filter (fun d => has_key d g) (map key_of (dependencies t)))
                  g Ht) as Hkeys.
    destruct (IH (assoc_set (key_of (id t))
                    (filter (fun d => has_key d g) (map key_of (dependencies t))) g) c')
      as (H1 & H2 & H3).
    + intros u Hu Hun. rewrite (has_key_set_present _ _ _ _ Ht).
      apply Hnodes; [now right|assumption].
    + now rewrite Hkeys.
    + intros k d. unfold neighbours. rewrite assoc_get_set, Hkeys.
      destruct (hkey_eqb (key_of (id t)) k).
      * intros Hin. apply filter_In in Hin. destruct Hin as [_ Hin].
        now apply has_key_In.
      * apply Hedges.
    + rewrite Hkeys in H1, H2, H3. now repeat split.
Qed.

(** The graph and the counts after both loops. *)
Lemma build_graph_shape (tasks : list TaskInput) :
  let g := fst (_build_graph tasks) in
  let c := snd (_build_graph tasks) in
  NoDup (map fst g)
  /\ map fst c = map fst g
  /\ (forall k, In k (map fst g) <-> is_node tasks k)
  /\ (forall k d, In d (neighbours g k) -> In d (map fst g)).
Proof.
  cbv zeta.
  assert (Hk : forall k, has_key k (fst (_build_graph tasks)) = true
                         <-> is_node tasks k)
    by (intros k; apply build_graph_counts).
  unfold _build_graph in *.
  destruct (declare_nodes_NoDup tasks [] [] (NoDup_nil _) eq_refl) as [Hn Hc].
  assert (Hnodes : forall t, In t tasks -> is_None (id t) = false ->
            has_key (key_of (id t)) (fst (declare_nodes tasks [] [])) = true).
  { intros t Ht Hnone. apply declare_nodes_keys. right. exists t. now repeat split. }
  assert (Hempty : forall k d,
             In d (neighbours (fst (declare_nodes tasks [] [])) k) ->
             In d (map fst (fst (declare_nodes tasks [] [])))).
  { assert (Hall : forall ts g c,
               (forall k d, ~ In d (neighbours g k)) ->
               forall k d, ~ In d (neighbours (fst (declare_nodes ts g c)) k)).
    { induction ts as [|t ts IH]; intros g c Hg; simpl; [exact Hg|].
      destruct (is_None (id t)); [now apply IH|]. apply IH.
      intros k d. unfold neighbours, setdefault.
      destruct (has_key (key_of (id t)) g) eqn:E; [apply Hg|].
      rewrite assoc_get_set. destruct (hkey_eqb (key_of (id t)) k);
        [intros []|apply Hg]. }
    intros k d Hd. exfalso. apply (Hall tasks [] [] (fun _ _ H => H) k d Hd). }
  destruct (declare_nodes tasks [] []) as [g c]. simpl in *.
  destruct (link_tasks_shape tasks g c Hnodes Hc Hempty) as (H1 & H2 & H3).
  destruct (link_tasks tasks g c) as [g' c']. simpl in *.
  rewrite H1, H2. split; [exact Hn|]. split; [reflexivity|].
  split; [|exact H3].
  intros k. rewrite <- Hk, has_key_In, H1. reflexivity.
Qed.

(** X10: the built graph has one node for each distinct identifier of a
    task, the counts have the same keys, every dependency kept in the
    graph is itself a node, and an identifier of no task has neither
    edges nor a count. *)
Theorem built_graph_well_formed (tasks : list TaskInput) :
  let g := fst (_build_graph tasks) in
  let c := snd (_build_graph tasks) in
  NoDup (map fst g)
  /\ map fst c = map fst g
  /\ (forall k, In k (map fst g) <-> is_node tasks k)
  /\ (forall k d, In d (neighbours g k) -> In d (map fst g))
  /\ (forall k, ~ is_node tasks k -> neighbours g k = [] /\ count_get k c = 0).
Proof.
  cbv zeta. destruct (build_graph_shape tasks) as (Hn & Hc & Hk & He).
  split; [exact Hn|]. split; [exact Hc|]. split; [exact Hk|]. split; [exact He|].
  intros k Hnot.
  assert (Hkey : has_key k (fst (_build_graph tasks)) = false).
  { apply has_key_false. now rewrite Hk. }
  split.
  - unfold neighbours. unfold has_key in Hkey.
    now destruct (assoc_get k (fst (_build_graph tasks))).
  - destruct (build_graph_counts tasks k) as [_ ->]. now rewrite Hkey.
Qed.

Lemma built_graph_well_formed_witness :
  neighbours
    (fst (_build_graph
            [mkTaskInput (AInt 1) "A" None None None [AInt 2; AInt 9];
             mkTaskInput (AInt 2) "B" None None None [AInt 1]]))
    (KNum 9 1) = []
  /\ In (KNum 2 1)
       (map fst
          (fst (_build_graph
                  [mkTaskInput (AInt 1) "A" None None None [AInt 2; AInt 9];
                   mkTaskInput (AInt 2) "B" None None None [AInt 1]]))).
Proof.
  destruct (built_graph_well_formed
              [mkTaskInput (AInt 1) "A" None None None [AInt 2; AInt 9];
               mkTaskInput (AInt 2) "B" None None None [AInt 1]])
    as (_ & _ & _ & Hedge & Hout).
  split.
  - apply Hout. intros (t & Ht & _ & Hk).
    simpl in Ht. destruct Ht as [<-|[<-|[]]]; discriminate Hk.
  - apply (Hedge (KNum 1 1)). simpl. now left.
Defined.

(** ** Tasks with distinct identifiers *)

Lemma declare_nodes_distinct (tasks : list TaskInput) (g : graph) (c : counts) :
  NoDup (map fst g ++ map (fun t => key_of (id t)) (filter identified tasks)) ->
  fst (declare_nodes tasks g c)
  = g ++ map (fun t => (key_of (id t), [])) (filter identified tasks).
Proof.
  revert g c. induction tasks as [|t ts IH]; intros g c Hn;
    cbn [declare_nodes filter] in *.
  - simpl. now rewrite app_nil_r.
  - destruct (is_None (id t)) eqn:En;
      [replace (identified t) with false in * by (unfold identified; now rewrite En)
      |replace (identified t) with true in * by (unfold identified; now rewrite En)];
      [now apply IH|].
    cbn [map] in *.
    assert (Habs : has_key (key_of (id t)) g = false).
    { apply has_key_false. intros Hin.
      apply NoDup_remove_2 in Hn. apply Hn, in_or_app. now left. }
    unfold setdefault at 1. rewrite Habs, (assoc_set_absent _ _ _ Habs).
    rewrite IH.
    + now rewrite <- app_assoc.
    + rewrite map_app, <- app_assoc. exact Hn.
Qed.

Lemma assoc_get_map {V : Type} (f : TaskInput -> V) (ts : list TaskInput)
    (t : TaskInput) :
  NoDup (map (fun t => key_of (id t)) ts) -> In t ts ->
  assoc_get (key_of (id t)) (map (fun t => (key_of (id t), f t)) ts) = Some (f t).
Proof.
  induction ts as [|u ts IH]; intros Hn Hin; [destruct Hin|].
  simpl in *. inversion Hn as [|? ? Hnot Hn']; subst.
  destruct Hin as [->|Hin]; [now rewrite hkey_eqb_refl|].
  destruct (hkey_eqb_spec (key_of (id u)) (key_of (id t))) as [E|_];
    [|now apply IH].
  exfalso. apply Hnot. rewrite E. now apply (in_map (fun t => key_of (id t))).
Qed.

Lemma NoDup_map_In_eq {A B : Type} (f : A -> B) (l : list A) (x y : A) :
  NoDup (map f l) -> In x l -> In y l -> f x = f y -> x = y.
Proof.
  induction l as [|a l IH]; intros Hn Hx Hy E; [destruct Hx|].
  simpl in Hn. inversion Hn as [|? ? Hnot Hn']; subst.
  destruct Hx as [->|Hx], Hy as [->|Hy].
  - reflexivity.
  - exfalso. apply Hnot. rewrite E. now apply in_map.
  - exfalso. apply Hnot. rewrite <- E. now apply in_map.
  - now apply IH.
Qed.

Lemma count_key_filter (k : hkey) (p : hkey -> bool) (l : list hkey) :
  count_key k (filter p l) = if p k then count_key k l else 0.
Proof.
  induction l as [|x l IH]; simpl; [now destruct (p k)|].
  destruct (p x) eqn:Px; simpl; rewrite IH;
    destruct (hkey_eqb_spec x k) as [->|Hne];
    try rewrite Px; try reflexivity; destruct (p k); lia.
Qed.

Lemma in_degree_map (k : hkey) (p : hkey -> bool) (ts : list TaskInput) :
  in_degree k
    (map (fun t => (key_of (id t), filter p (map key_of (dependencies t)))) ts)
  = if p k
    then fold_right (fun t acc => count_key k (map key_of (dependencies t)) + acc)
           0 ts
    else 0.
Proof.
  induction ts as [|t ts IH]; simpl; [now destruct (p k)|].
  rewrite IH, count_key_filter. destruct (p k); lia.
Qed.

Lemma edge_occurrences_identified (k : hkey) (tasks : list TaskInput) :
  edge_occurrences k tasks
  = fold_right (fun t acc => count_key k (map key_of (dependencies t)) + acc)
      0 (filter identified tasks).
Proof.
  induction tasks as [|t ts IH]; simpl; [reflexivity|].
  unfold identified at 1. destruct (is_None (id t)); simpl; rewrite IH; lia.
Qed.

Lemma neighbours_no_edges (ts : list TaskInput) (k d : hkey) :
  ~ In d (neighbours (map (fun t => (key_of (id t), [])) ts) k).
Proof.
  unfold neighbours. induction ts as [|u us IH]; simpl; [intros []|].
  destruct (hkey_eqb (key_of (id u)) k); [intros []|exact IH].
Qed.

(** With distinct identifiers the graph is the list of the identified
    tasks, each with its dependencies that name a task. *)
Lemma build_graph_distinct (tasks : list TaskInput) :
  NoDup (map (fun t => key_of (id t)) (filter identified tasks)) ->
  fst (_build_graph tasks)
  = map (fun t => (key_of (id t),
                   filter (is_task_key tasks) (map key_of (dependencies t))))
      (filter identified tasks).
Proof.
  intros Hn.
  destruct (build_graph_shape tasks) as (Hnd & _ & _ & _).
  assert (Hkeys : map fst (fst (_build_graph tasks))
                  = map (fun t => key_of (id t)) (filter identified tasks)).
  { unfold _build_graph.
    pose proof (declare_nodes_distinct tasks [] [] Hn) as Hg0.
    assert (Hnodes : forall t, In t tasks -> is_None (id t) = false ->
              has_key (key_of (id t)) (fst (declare_nodes tasks [] [])) = true).
    { intros t Ht Hnone. apply declare_nodes_keys. right. exists t.
      now repeat split. }
    destruct (declare_nodes_NoDup tasks [] [] (NoDup_nil _) eq_refl) as [_ Hc].
    destruct (declare_nodes tasks [] []) as [g c]. simpl in *.
    assert (Hnone : forall k d, In d (neighbours g k) -> In d (map fst g)).
    { intros k d Hd. exfalso. subst g.
      exact (neighbours_no_edges _ k d Hd). }
    destruct (link_tasks_shape tasks g c Hnodes Hc Hnone) as (H1 & _).
    rewrite H1. subst g. rewrite map_map. reflexivity. }
  apply assoc_ext; [rewrite Hkeys, map_map; reflexivity|exact Hnd|].
  intros k Hk. rewrite Hkeys in Hk. apply in_map_iff in Hk.
  destruct Hk as (t & <- & Ht).
  rewrite (assoc_get_map _ _ t Hn Ht).
  apply filter_In in Ht. destruct Ht as [Hin Hid].
  assert (Hnone : is_None (id t) = false)
    by (unfold identified in Hid; now apply negb_true_iff in Hid).
  assert (Hlast : last_with_key (key_of (id t)) tasks = Some t).
  { apply last_with_key_unique; [exact Hin|exact Hnone|].
    intros u Hu E.
    assert (Hu' : identified u = true).
    { unfold identified. destruct (is_None (id u)) eqn:En; [|reflexivity].
      destruct (id u); try discriminate En. simpl in E. symmetry in E.
      apply key_of_None in E. rewrite E in Hnone. discriminate Hnone. }
    apply (NoDup_map_In_eq (fun t => key_of (id t)) (filter identified tasks));
      [exact Hn| | |exact E]; apply filter_In; now split. }
  unfold _build_graph.
  pose proof (fun d => declare_nodes_keys tasks [] [] d) as Hdk.
  assert (Hnodes : forall t, In t tasks -> is_None (id t) = false ->
            has_key (key_of (id t)) (fst (declare_nodes tasks [] [])) = true).
  { intros u Hu Hun. apply declare_nodes_keys. right. exists u. now repeat split. }
  destruct (declare_nodes tasks [] []) as [g c]. simpl in *.
  rewrite (link_tasks_edges tasks g c _ Hnodes), Hlast. f_equal.
  apply filter_ext. intros d. apply eq_true_iff_eq.
  rewrite Hdk, is_task_key_node. split; [intros [H|H]; [discriminate H|exact H]|].
  now right.
Qed.

(** X11: when the identified tasks have distinct identifiers, the graph
    lists them in input order, each with those of its dependencies that
    name a task, and the count of every identifier is the number of edges
    of the graph that end in it. *)
Theorem distinct_ids_graph_and_in_degree (tasks : list TaskInput) :
  NoDup (map (fun t => key_of (id t)) (filter identified tasks)) ->
  fst (_build_graph tasks)
  = map (fun t => (key_of (id t),
                   filter (is_task_key tasks) (map key_of (dependencies t))))
      (filter identified tasks)
  /\ forall k, count_get k (snd (_build_graph tasks))
               = in_degree k (fst (_build_graph tasks)).
Proof.
  intros Hn. pose proof (build_graph_distinct tasks Hn) as Hg.
  split; [exact Hg|]. intros k.
  destruct (build_graph_counts tasks k) as [Hnode ->].
  assert (Hsame : has_key k (fst (_build_graph tasks)) = is_task_key tasks k).
  { apply eq_true_iff_eq. now rewrite Hnode, is_task_key_node. }
  rewrite Hsame, Hg, in_degree_map, <- edge_occurrences_identified.
  reflexivity.
Qed.

Lemma distinct_ids_graph_and_in_degree_witness :
  fst (_build_graph
         [mkTaskInput (AInt 1) "A" None None None [AInt 2; AInt 2; AInt 9];
          mkTaskInput ANone "B" None None None [AInt 1];
          mkTaskInput (AInt 2) "C" None None None [AInt 1]])
  = [(KNum 1 1, [KNum 2 1; KNum 2 1]); (KNum 2 1, [KNum 1 1])].
Proof.
  apply (distinct_ids_graph_and_in_degree
           [mkTaskInput (AInt 1) "A" None None None [AInt 2; AInt 2; AInt 9];
            mkTaskInput ANone "B" None None None [AInt 1];
            mkTaskInput (AInt 2) "C" None None None [AInt 1]]).
  repeat constructor; simpl; intuition discriminate.
Defined.

(** With a repeated identifier the later task overwrites the edges of the
    earlier one while both are counted: the count of 2 is 1, and no edge
    of the graph ends in 2. *)
Lemma repeated_id_count_exceeds_in_degree :
  let tasks := [mkTaskInput (AInt 1) "A" None None None [AInt 2];
                mkTaskInput (AInt 1) "B" None None None [];
                mkTaskInput (AInt 2) "C" None None None []] in
  count_get (KNum 2 1) (snd (_build_graph tasks)) = 1
  /\ in_degree (KNum 2 1) (fst (_build_graph tasks)) = 0.
Proof. split; reflexivity. Qed.

(** ** What the cycle detector flags *)

Lemma tc_first_step (g : graph) (x z : hkey) :
  clos_trans hkey (edge g) x z ->
  exists y, edge g x y /\ clos_refl_trans hkey (edge g) y z.
Proof.
  intros H. apply clos_trans_t1n in H. destruct H as [y H|y z H Ht].
  - exists y. split; [exact H|apply rt_refl].
  - exists y. split; [exact H|]. apply clos_t1n_trans in Ht.
    now apply clos_t_clos_rt.
Qed.

Lemma rt_then_step (g : graph) (x y z : hkey) :
  clos_refl_trans hkey (edge g) x y -> edge g y z ->
  clos_trans hkey (edge g) x z.
Proof.
  intros H E. eapply clos_rt_t; [exact H|now apply t_step].
Qed.

Lemma edge_key (g : graph) (x y : hkey) : edge g x y -> In x (map fst g).
Proof. apply neighbours_key. Qed.

Lemma reaches_cycle_key (g : graph) (x : hkey) :
  reaches_cycle g x -> In x (map fst g).
Proof.
  intros (c & Hrt & Htc). apply clos_rt_rt1n in Hrt. destruct Hrt as [|y z E _].
  - destruct (tc_first_step _ _ _ Htc) as (y & E & _). exact (edge_key _ _ _ E).
  - exact (edge_key _ _ _ E).
Qed.

Lemma chain_reaches_top (g : graph) (rest : list hkey) :
  forall top x, is_chain g (top :: rest) -> In x (top :: rest) ->
                clos_refl_trans hkey (edge g) x top.
Proof.
  induction rest as [|y rest IH]; intros top x Hc Hin.
  - destruct Hin as [<-|[]]. apply rt_refl.
  - destruct Hin as [<-|Hin]; [apply rt_refl|].
    destruct Hc as [E Hc]. eapply rt_trans; [apply (IH y x Hc Hin)|].
    now apply rt_step.
Qed.

Lemma for_each_invariant {A S : Type} (P : S -> Prop)
    (body : A -> S -> option S) (l : list A) :
  (forall x s s', In x l -> body x s = Some s' -> P s -> P s') ->
  forall s s', for_each body l s = Some s' -> P s -> P s'.
Proof.
  induction l as [|x l IH]; intros Hbody s s' Hrun Hs; simpl in Hrun.
  - now injection Hrun as <-.
  - destruct (body x s) as [s1|] eqn:Hx; [|discriminate].
    apply (IH (fun y a b Hy => Hbody y a b (or_intror Hy)) s1 s' Hrun).
    exact (Hbody x s s1 (or_introl eq_refl) Hx Hs).
Qed.

Lemma visit_sound (fuel : nat) (g : graph) :
  forall node st st',
    visit fuel g node st = Some st' ->
    is_chain g (stack st) -> called_from g (stack st) node ->
    flags_sound g st -> flags_sound g st'.
Proof.
  induction fuel as [|fuel IH]; intros node st st' Hrun Hchain Hcall Hs;
    [discriminate|].
  rewrite visit_step in Hrun.
  destruct (mem node (stack st)) eqn:Hstack.
  { injection Hrun as <-. intros x Hx. cbn [in_cycle] in Hx.
    apply set_update_In in Hx. destruct Hx as [Hx|Hx]; [now apply Hs|].
    apply mem_In in Hstack.
    destruct (stack st) as [|top rest] eqn:Hst; [destruct Hx|].
    cbn [called_from] in Hcall.
    exists node. split.
    - eapply rt_trans; [apply (chain_reaches_top g rest top x Hchain Hx)|].
      now apply rt_step.
    - eapply rt_then_step; [|exact Hcall].
      exact (chain_reaches_top g rest top node Hchain Hstack). }
  destruct (mem node (visited st)) eqn:Hvis; [now injection Hrun as <-|].
  apply mem_false in Hstack, Hvis.
  set (st1 := mkDfs (set_add node (visited st)) (set_add node (stack st))
                    (in_cycle st)) in Hrun.
  destruct (for_each (visit fuel g) (neighbours g node) st1) as [st2|] eqn:Hloop;
    [|discriminate].
  injection Hrun as <-. intros x Hx. cbn [in_cycle] in Hx. revert x Hx.
  assert (Hst1 : stack st1 = node :: stack st).
  { cbn [st1 stack]. unfold set_add. now rewrite (proj2 (mem_false _ _) Hstack). }
  apply (for_each_invariant
           (fun s => stack s = node :: stack st /\ flags_sound g s)
           (visit fuel g) (neighbours g node)) with (s := st1) (s' := st2).
  - intros y s s' Hy Hbody [Hstk Hfs].
    destruct (visit_spec _ _ _ _ _ Hbody) as (Hsame & _).
    split; [congruence|].
    apply (IH y s s' Hbody); [| |exact Hfs]; rewrite Hstk.
    + cbn [is_chain]. destruct (stack st) as [|top rest]; [exact I|].
      split; [exact Hcall|exact Hchain].
    + exact Hy.
  - exact Hloop.
  - split; [exact Hst1|exact Hs].
Qed.

Lemma visit_acyclic (fuel : nat) (g : graph) :
  forall node st st',
    visit fuel g node st = Some st' ->
    acyclic_so_far g st -> acyclic_so_far g st'.
Proof.
  induction fuel as [|fuel IH]; intros node st st' Hrun Hinv; [discriminate|].
  pose proof (visit_spec _ _ _ _ _ Hrun) as Hpost.
  rewrite visit_step in Hrun.
  destruct (mem node (stack st)) eqn:Hstack.
  { injection Hrun as <-. intros Hnil. cbn [in_cycle] in Hnil.
    apply mem_In in Hstack.
    assert (Hin : In node (set_update (in_cycle st) (stack st)))
      by (apply set_update_In; now right).
    rewrite Hnil in Hin. destruct Hin. }
  destruct (mem node (visited st)) eqn:Hvis; [now injection Hrun as <-|].
  apply mem_false in Hstack, Hvis.
  set (st1 := mkDfs (set_add node (visited st)) (set_add node (stack st))
                    (in_cycle st)) in Hrun.
  destruct (for_each (visit fuel g) (neighbours g node) st1) as [st2|] eqn:Hloop;
    [|discriminate].
  injection Hrun as <-.
  destruct (for_each_post g (visit fuel g) (visit_spec fuel g) _ _ _ Hloop)
    as (Hs2 & Hv2 & Hc2 & Hl2 & _).
  cbn [stack visited in_cycle st1] in Hs2, Hv2, Hc2.
  assert (Hinv1 : acyclic_so_far g st1).
  { intros Hnil. cbn [st1 in_cycle] in Hnil. destruct (Hinv Hnil) as [Hcl Hac].
    assert (Hfin : forall x, finished st1 x -> finished st x).
    { intros x [Hxv Hxs]. cbn [st1 visited stack] in Hxv, Hxs.
      rewrite set_add_In in Hxv, Hxs. split; [|tauto].
      destruct Hxv as [->|H]; [exfalso; apply Hxs; now left|exact H]. }
    split.
    - intros x y Hx E. destruct (Hcl x y (Hfin x Hx) E) as [Hyv Hys].
      split; cbn [st1 visited stack]; rewrite set_add_In; [now right|].
      intros [->|H]; contradiction.
    - intros x Hx. exact (Hac x (Hfin x Hx)). }
  assert (Hinv2 : acyclic_so_far g st2).
  { apply (for_each_invariant (acyclic_so_far g) (visit fuel g)
             (neighbours g node)) with (s := st1); [|exact Hloop|exact Hinv1].
    intros y s s' _ Hbody. exact (IH y s s' Hbody). }
  intros Hnil. cbn [in_cycle] in Hnil. destruct (Hinv2 Hnil) as [Hcl Hac].
  assert (Hstack' : set_remove node (stack st2) = stack st)
    by (rewrite Hs2; now apply set_remove_add).
  assert (Hold : forall x, finished st2 x ->
                           finished (mkDfs (visited st2)
                                      (set_remove node (stack st2)) (in_cycle st2)) x).
  { intros x [Hxv Hxs]. split; [exact Hxv|]. cbn [stack].
    rewrite set_remove_In. tauto. }
  assert (Hnb : forall y, edge g node y -> finished st2 y).
  { intros y E. destruct (Hl2 y E) as [Hon Hoff]. cbn [st1 stack] in Hon, Hoff.
    destruct (mem y (set_add node (stack st))) eqn:Hy.
    - apply mem_In in Hy. specialize (Hon Hy). rewrite Hnil in Hon.
      destruct (Hon node). apply set_add_In. now left.
    - apply mem_false in Hy. split; [now apply Hoff|now rewrite Hs2]. }
  assert (Hclosed : forall a b, finished st2 a ->
                                clos_refl_trans hkey (edge g) a b -> finished st2 b).
  { intros a b Ha Hrt. apply clos_rt_rt1n in Hrt.
    induction Hrt as [|a y b E _ IHrt]; [exact Ha|].
    apply IHrt. exact (Hcl a y Ha E). }
  assert (Hcase : forall x,
             finished (mkDfs (visited st2) (set_remove node (stack st2))
                         (in_cycle st2)) x ->
             finished st2 x \/ x = node).
  { intros x [Hxv Hxs]. cbn [visited stack] in Hxv, Hxs.
    destruct (hkey_eqb_spec x node) as [->|Hne]; [now right|left].
    split; [exact Hxv|]. intros H. apply Hxs, set_remove_In. now split. }
  split.
  - intros x y Hx E. apply Hold. destruct (Hcase x Hx) as [Hx2| ->].
    + exact (Hcl x y Hx2 E).
    + exact (Hnb y E).
  - intros x Hx Htc. destruct (Hcase x Hx) as [Hx2| ->]; [exact (Hac x Hx2 Htc)|].
    destruct (tc_first_step _ _ _ Htc) as (y & E & Hrt).
    destruct (Hclosed y node (Hnb y E) Hrt) as [_ Hns].
    apply Hns. rewrite Hs2. apply set_add_In. now left.
Qed.

Lemma visit_roots_invariants (fuel : nat) (g : graph) (l : list hkey)
    (st st' : dfs_state) :
  for_each (visit_root fuel g) l st = Some st' ->
  stack st = [] -> flags_sound g st -> acyclic_so_far g st ->
  flags_sound g st' /\ acyclic_so_far g st'.
Proof.
  intros Hrun Hstk Hfs Hac.
  apply (for_each_invariant
           (fun s => stack s = [] /\ flags_sound g s /\ acyclic_so_far g s)
           (visit_root fuel g) l) with (s := st) (s' := st');
    [|exact Hrun|split; [exact Hstk|split; [exact Hfs|exact Hac]]].
  intros x s s' _ Hbody (Hs & Hf & Ha). unfold visit_root in Hbody.
  destruct (mem x (visited s));
    [injection Hbody as <-; split; [exact Hs|split; [exact Hf|exact Ha]]|].
  destruct (visit_spec _ _ _ _ _ Hbody) as (Hsame & _).
  split; [congruence|]. split.
  - apply (visit_sound _ _ _ _ _ Hbody); [| |exact Hf]; now rewrite Hs.
  - exact (visit_acyclic _ _ _ _ _ Hbody Ha).
Qed.

(** The final state of the traversal that [_detect_cycles] runs. *)
Lemma detect_cycles_final (g : graph) :
  exists st,
    for_each (visit_root (S (List.length (all_nodes g))) g) (map fst g)
      (mkDfs [] [] []) = Some st
    /\ _detect_cycles g = in_cycle st
    /\ stack st = []
    /\ (forall k, In k (map fst g) -> In k (visited st))
    /\ flags_sound g st /\ acyclic_so_far g st.
Proof.
  destruct (visit_roots_total (S (List.length (all_nodes g))) g
              (Nat.lt_succ_diag_r _) (map fst g) (mkDfs [] [] []))
    as [st Hrun].
  { intros y Hy. apply in_or_app. now left. }
  exists st. split; [exact Hrun|].
  split; [unfold _detect_cycles, detect_cycles_fuel; now rewrite Hrun|].
  destruct (visit_roots_spec _ _ _ (mkDfs [] [] []) _ eq_refl Hrun)
    as (Hs & _ & Hall & _).
  split; [exact Hs|]. split; [exact Hall|].
  apply (visit_roots_invariants _ _ _ _ _ Hrun eq_refl).
  - intros x [].
  - intros _. split; [intros x y [[] _]|intros x [[] _]].
Qed.

Lemma detect_cycles_sound (g : graph) (x : hkey) :
  In x (_detect_cycles g) -> reaches_cycle g x.
Proof.
  destruct (detect_cycles_final g) as (st & _ & -> & _ & _ & Hf & _). apply Hf.
Qed.

Lemma detect_cycles_empty_iff (g : graph) : _detect_cycles g = [] <-> acyclic g.
Proof.
  split.
  - destruct (detect_cycles_final g) as (st & _ & -> & Hs & Hall & _ & Ha).
    intros Hnil x Htc. destruct (Ha Hnil) as [_ Hac]. apply (Hac x); [|exact Htc].
    destruct (tc_first_step _ _ _ Htc) as (y & E & _).
    split; [apply Hall; exact (edge_key _ _ _ E)|]. rewrite Hs. intros [].
  - intros Hac. destruct (_detect_cycles g) as [|x l] eqn:E; [reflexivity|].
    destruct (detect_cycles_sound g x) as (c & _ & Htc); [rewrite E; now left|].
    destruct (Hac c Htc).
Qed.

(** X12: the cycle detector only flags nodes of the graph from which the
    dependencies lead to a directed cycle: the nodes of a cycle or nodes
    that depend, directly or not, on one of them. *)
Theorem flagged_nodes_reach_a_cycle (g : graph) (x : hkey) :
  mem x (_detect_cycles g) = true ->
  In x (map fst g)
  /\ exists c, clos_refl_trans hkey (edge g) x c
               /\ clos_trans hkey (edge g) c c.
Proof.
  intros H. apply mem_In, detect_cycles_sound in H.
  split; [now apply reaches_cycle_key|exact H].
Qed.

Lemma flagged_nodes_reach_a_cycle_witness :
  exists c,
    clos_refl_trans hkey
      (edge [(KStr "A", [KStr "B"]); (KStr "B", [KStr "C"]); (KStr "C", [KStr "B"])])
      (KStr "A") c
    /\ clos_trans hkey
         (edge [(KStr "A", [KStr "B"]); (KStr "B", [KStr "C"]); (KStr "C", [KStr "B"])])
         c c.
Proof.
  apply (flagged_nodes_reach_a_cycle
           [(KStr "A", [KStr "B"]); (KStr "B", [KStr "C"]); (KStr "C", [KStr "B"])]
           (KStr "A")).
  reflexivity.
Defined.

(** X13: the cycle detector flags nothing exactly when the graph has no
    directed cycle. *)
Theorem nothing_flagged_iff_acyclic (g : graph) :
  _detect_cycles g = [] <-> acyclic g.
Proof. apply detect_cycles_empty_iff. Qed.

Lemma nothing_flagged_iff_acyclic_witness :
  acyclic [(KNum 1 1, [KNum 2 1]); (KNum 2 1, [KNum 3 1]); (KNum 3 1, [])].
Proof.
  apply (nothing_flagged_iff_acyclic
           [(KNum 1 1, [KNum 2 1]); (KNum 2 1, [KNum 3 1]); (KNum 3 1, [])]).
  reflexivity.
Defined.

(** X14: in a ranking call whose dependency graph has no directed cycle no
    task is penalised: the dependency score of a task with an id is
    40 + min(15 n, 45) for the count [n] of its id. *)
Theorem acyclic_ranking_has_no_penalty (tasks : list TaskInput) (t : TaskInput) :
  acyclic (fst (_build_graph tasks)) -> is_None (id t) = false ->
  (ranking_dependency_score tasks t
   == 40.0 + py_min (inject_Z (count_get (key_of (id t)) (snd (_build_graph tasks)))
                     * 15.0) 45.0)%Q.
Proof.
  intros Hac Hn. apply detect_cycles_empty_iff in Hac.
  unfold ranking_dependency_score.
  destruct (_build_graph tasks) as [g c]. simpl in *.
  destruct (dependency_score_cases t c (_detect_cycles g) Hn) as [Hout _].
  apply Hout. now rewrite Hac.
Qed.

Lemma acyclic_ranking_has_no_penalty_witness :
  (ranking_dependency_score
     [mkTaskInput (AInt 1) "A" None None None [AInt 2];
      mkTaskInput (AInt 2) "B" None None None []]
     (mkTaskInput (AInt 2) "B" None None None [])
   == 40.0 + py_min (inject_Z 1 * 15.0) 45.0)%Q.
Proof.
  apply (acyclic_ranking_has_no_penalty
           [mkTaskInput (AInt 1) "A" None None None [AInt 2];
            mkTaskInput (AInt 2) "B" None None None []]
           (mkTaskInput (AInt 2) "B" None None None []));
    [apply detect_cycles_empty_iff; reflexivity|reflexivity].
Defined.

(** ** Payload extraction *)

Lemma value_or_cases (v d : value) :
  (truthy v = true /\ value_or v d = v) \/ (truthy v = false /\ value_or v d = d).
Proof.
  unfold value_or. destruct (truthy v); [left|right]; now split.
Qed.

Lemma strip_smart_balance : strip "smart_balance" = "smart_balance".
Proof. reflexivity. Qed.

(** The strategy an object payload yields, or [None] when [.strip()] is
    called on a value that has no such method. *)
Lemma extract_dict_strategy (d : list (string * value)) :
  (truthy (get (dict_get "strategy" d)) = false
   /\ value_or (get (dict_get "strategy" d)) (VAtom (AStr "smart_balance"))
      = VAtom (AStr "smart_balance"))
  \/ (truthy (get (dict_get "strategy" d)) = true
      /\ value_or (get (dict_get "strategy" d)) (VAtom (AStr "smart_balance"))
         = get (dict_get "strategy" d)).
Proof.
  destruct (value_or_cases (get (dict_get "strategy" d))
              (VAtom (AStr "smart_balance"))) as [[H E]|[H E]]; [right|left];
    now split.
Qed.

(** X15: when extraction succeeds the strategy has no leading or trailing
    whitespace, and it is "smart_balance" for a bare list and for an object
    whose strategy is missing, null or empty; the tasks are the payload's
    own list, or the empty list when the object has no (or an empty or
    null) [tasks] member. *)
Theorem extraction_result (payload : value) (l : list value) (s : string) :
  extract_tasks_and_strategy payload = Extracted l s ->
  strip s = s
  /\ ((payload = VList l /\ s = "smart_balance")
      \/ exists d, payload = VDict d
           /\ (dict_get "tasks" d = Some (VList l)
               \/ (l = [] /\ truthy (get (dict_get "tasks" d)) = false))
           /\ ((s = "smart_balance"
                /\ truthy (get (dict_get "strategy" d)) = false)
               \/ exists s0, dict_get "strategy" d = Some (VAtom (AStr s0))
                             /\ s = strip s0)).
Proof.
  destruct payload as [a|l0|d]; cbn [extract_tasks_and_strategy];
    [discriminate| |].
  - intros [= <- <-]. split; [reflexivity|]. left. now split.
  - destruct (extract_dict_strategy d) as [[Hs ->]|[Hs ->]].
    + destruct (value_or_cases (get (dict_get "tasks" d)) (VList []))
        as [[Ht ->]|[Ht ->]].
      * destruct (dict_get "tasks" d) as [[a|l0|d0]|] eqn:E; cbn [get] in *;
          try discriminate.
        intros [= <- <-]. split; [reflexivity|]. right. exists d.
        split; [reflexivity|]. split; [now left|]. left. now split.
      * intros [= <- <-]. split; [reflexivity|]. right. exists d.
        split; [reflexivity|]. split; [right; now split|]. left. now split.
    + destruct (dict_get "strategy" d) as [[[| | | |s0]|l0|d0]|] eqn:Es;
        cbn [get] in *; try discriminate.
      destruct (value_or_cases (get (dict_get "tasks" d)) (VList []))
        as [[Ht ->]|[Ht ->]].
      * destruct (dict_get "tasks" d) as [[a|l0|d0]|] eqn:E; cbn [get] in *;
          try discriminate.
        intros [= <- <-]. split; [apply strip_idempotent|]. right. exists d.
        split; [reflexivity|]. split; [now left|]. right. now exists s0.
      * intros [= <- <-]. split; [apply strip_idempotent|]. right. exists d.
        split; [reflexivity|]. split; [right; now split|]. right. now exists s0.
Qed.

Lemma extraction_result_witness :
  strip "high_impact" = "high_impact".
Proof.
  apply (extraction_result
           (VDict [("strategy", VAtom (AStr "  high_impact "));
                   ("tasks", VList [])])
           [] "high_impact").
  reflexivity.
Defined.

(** X16: extraction raises a PayloadError only for a payload that is
    neither an object nor a list, or for an object whose [tasks] member is
    a non-empty value other than a list (and whose strategy is a string or
    empty); it fails with the uncaught AttributeError exactly for an
    object whose strategy is a non-empty value other than a string. *)
Theorem extraction_failures (payload : value) :
  (forall msg, extract_tasks_and_strategy payload = PayloadError msg ->
     (exists a, payload = VAtom a
                /\ msg = "Payload must be a JSON object or array")
     \/ (exists d v, payload = VDict d /\ dict_get "tasks" d = Some v
                     /\ truthy v = true /\ (forall l, v <> VList l)
                     /\ msg = "`tasks` must be a JSON array of task objects"))
  /\ (extract_tasks_and_strategy payload = AttributeError <->
      exists d v, payload = VDict d /\ dict_get "strategy" d = Some v
                  /\ truthy v = true /\ (forall s, v <> VAtom (AStr s))).
Proof.
  split.
  - intros msg. destruct payload as [a|l0|d]; cbn [extract_tasks_and_strategy].
    + intros [= <-]. left. now exists a.
    + discriminate.
    + destruct (value_or (get (dict_get "strategy" d)) _) as [[| | | |s]|?|?];
        try discriminate.
      destruct (value_or_cases (get (dict_get "tasks" d)) (VList []))
        as [[Ht ->]|[Ht ->]]; [|discriminate].
      destruct (dict_get "tasks" d) as [v|] eqn:E; cbn [get] in *;
        [|discriminate Ht].
      destruct v as [a|l0|d0]; [|discriminate|]; intros [= <-]; right;
        eexists d, _; (split; [reflexivity|]); (split; [exact E|]);
        (split; [exact Ht|]); (split; [discriminate|reflexivity]).
  - split.
    + destruct payload as [a|l0|d]; cbn [extract_tasks_and_strategy];
        try discriminate.
      destruct (extract_dict_strategy d) as [[Hs ->]|[Hs ->]].
      * destruct (value_or (get (dict_get "tasks" d)) (VList []));
          discriminate.
      * destruct (dict_get "strategy" d) as [v|] eqn:E; cbn [get] in *;
          [|discriminate Hs].
        intros H. exists d, v. split; [reflexivity|]. split; [exact E|].
        split; [exact Hs|]. intros s ->.
        destruct (value_or (get (dict_get "tasks" d)) (VList []));
          discriminate H.
    + intros (d & v & -> & E & Ht & Hv). cbn [extract_tasks_and_strategy].
      rewrite E. cbn [get]. unfold value_or. rewrite Ht.
      destruct v as [[| | | |s]|?|?]; try reflexivity.
      now destruct (Hv s).
Qed.

Lemma extraction_failures_witness :
  exists d v, VDict [("strategy", VAtom (AInt 5))] = VDict d
              /\ dict_get "strategy" d = Some v
              /\ truthy v = true /\ (forall s, v <> VAtom (AStr s)).
Proof.
  apply (extraction_failures (VDict [("strategy", VAtom (AInt 5))])).
  reflexivity.
Defined.

(** X17: a bare list is extracted like an object that holds the list
    under [tasks] and names no strategy, and members other than [tasks]
    and [strategy] do not matter. *)
Theorem extraction_reads_two_members :
  (forall (l : list value) (d : list (string * value)),
     dict_get "tasks" d = Some (VList l) -> dict_get "strategy" d = None ->
     extract_tasks_and_strategy (VDict d) = extract_tasks_and_strategy (VList l))
  /\ (forall d d' : list (string * value),
        dict_get "tasks" d = dict_get "tasks" d' ->
        dict_get "strategy" d = dict_get "strategy" d' ->
        extract_tasks_and_strategy (VDict d)
        = extract_tasks_and_strategy (VDict d')).
Proof.
  split.
  - intros l d Ht Hs. cbn [extract_tasks_and_strategy]. rewrite Ht, Hs.
    cbn [get]. unfold value_or. cbn [truthy]. destruct l; reflexivity.
  - intros d d' Ht Hs. cbn [extract_tasks_and_strategy]. now rewrite Ht, Hs.
Qed.

Lemma extraction_reads_two_members_witness :
  extract_tasks_and_strategy
    (VDict [("note", VAtom (AInt 1)); ("tasks", VList [VAtom ANone])])
  = extract_tasks_and_strategy (VList [VAtom ANone]).
Proof.
  apply (proj1 extraction_reads_two_members); reflexivity.
Defined.

(** ** The HTTP views *)

Lemma param_get_set_same (k v : string) (l : list (string * string)) :
  param_get k (header_set k v l) = Some v.
Proof.
  induction l as [|[k' v'] l IH]; simpl; [now rewrite String.eqb_refl|].
  destruct (String.eqb k' k) eqn:E; simpl; rewrite E; [reflexivity|exact IH].
Qed.

Lemma param_get_set_other (k k' v : string) (l : list (string * string)) :
  k <> k' -> param_get k' (header_set k v l) = param_get k' l.
Proof.
  intros Hne. induction l as [|[k0 v0] l IH]; simpl.
  - destruct (String.eqb_spec k k'); [contradiction|reflexivity].
  - destruct (String.eqb_spec k0 k) as [->|Hk]; simpl.
    + destruct (String.eqb_spec k k'); [contradiction|reflexivity].
    + destruct (String.eqb k0 k'); [reflexivity|exact IH].
Qed.

(** The headers of a response that went through [_add_cors_headers]. *)
Lemma cors_headers (response : http_response) :
  let h := headers (_add_cors_headers response) in
  param_get "Access-Control-Allow-Origin" h = Some "*"
  /\ param_get "Access-Control-Allow-Methods" h = Some "GET, POST, OPTIONS"
  /\ param_get "Access-Control-Allow-Headers" h = Some "Content-Type"
  /\ param_get "Content-Type" h = param_get "Content-Type" (headers response).
Proof.
  cbv zeta. unfold _add_cors_headers. cbn [headers].
  repeat split;
    repeat first [ apply param_get_set_same
                 | rewrite param_get_set_other by discriminate ];
    reflexivity.
Qed.

Section ViewFacts.
Context {R : PyRuntime}.
Variable json_loads : string -> option value.
Variable read_record : list (string * value) -> raw_record.
Variable today : Z.

Local Abbreviation analyze := (analyze_tasks json_loads read_record today).
Local Abbreviation suggest := (suggest_tasks json_loads read_record today).
Local Abbreviation answer := (answer_ranking read_record today).

Lemma answer_ranking_cases (tasks_raw : list value) (strategy : string)
    (finish : list ranked_task -> list ranked_task) :
  (exists ranked,
     rank_tasks today (map (read_entry read_record) tasks_raw) strategy = Ok ranked
     /\ answer tasks_raw strategy finish
        = Responds (_add_cors_headers
                      (JsonResponse (RankedList (finish ranked)) 200)))
  \/ (exists msg,
        rank_tasks today (map (read_entry read_record) tasks_raw) strategy
        = Raise (StrategyError msg)
        /\ answer tasks_raw strategy finish = Responds (_json_error msg 400)).
Proof.
  unfold answer_ranking.
  destruct (rank_tasks today (map (read_entry read_record) tasks_raw) strategy)
    as [ranked|[msg]]; [left; now exists ranked|right; now exists msg].
Qed.

Lemma answer_ranking_answer (tasks_raw : list value) (strategy : string)
    (finish : list ranked_task -> list ranked_task) (r : http_response) :
  answer tasks_raw strategy finish = Responds r -> view_answer r.
Proof.
  destruct (answer_ranking_cases tasks_raw strategy finish)
    as [(ranked & _ & ->)|(msg & _ & ->)]; intros [= <-]; constructor.
Qed.

Lemma analyze_answer (request : http_request) (r : http_response) :
  analyze request = Responds r -> view_answer r.
Proof.
  unfold analyze_tasks.
  destruct (String.eqb (method request) "OPTIONS"); [intros [= <-]; constructor|].
  destruct (String.eqb (method request) "POST"); cbn [negb];
    [|intros [= <-]; constructor].
  destruct (body request) as [text|]; [|discriminate].
  cbv zeta. destruct (json_loads (str_or text "{}")) as [payload|];
    [|intros [= <-]; constructor].
  destruct (extract_tasks_and_strategy payload) as [l s|msg|];
    [apply answer_ranking_answer|intros [= <-]; constructor|discriminate].
Qed.

Lemma suggest_answer (request : http_request) :
  exists r, suggest request = Responds r /\ view_answer r.
Proof.
  unfold suggest_tasks.
  destruct (String.eqb (method request) "OPTIONS");
    [eexists; split; [reflexivity|constructor]|].
  destruct (String.eqb (method request) "GET"); cbn [negb];
    [|eexists; split; [reflexivity|constructor]].
  cbv zeta.
  destruct (param_get "tasks" (query request)) as [[|c p]|];
    try (eexists; split; [reflexivity|constructor]).
  destruct (json_loads (String c p)) as [[a|l|d]|];
    try (eexists; split; [reflexivity|constructor]).
  match goal with
  | |- context [answer_ranking _ _ ?l ?s ?f] =>
      destruct (answer_ranking_cases l s f) as [(ranked & _ & ->)|(msg & _ & ->)]
  end; eexists; split; try reflexivity; constructor.
Qed.

Lemma view_answer_shape (r : http_response) :
  view_answer r ->
  param_get "Access-Control-Allow-Origin" (headers r) = Some "*"
  /\ param_get "Access-Control-Allow-Methods" (headers r)
     = Some "GET, POST, OPTIONS"
  /\ param_get "Access-Control-Allow-Headers" (headers r) = Some "Content-Type"
  /\ param_get "Content-Type" (headers r) = Some "application/json"
  /\ ((status r = 200 /\ (data r = EmptyObject \/ exists l, data r = RankedList l))
      \/ ((status r = 400 \/ status r = 405) /\ exists m, data r = Detail m)).
Proof.
  intros H.
  destruct H as [|items|message|];
    (split; [reflexivity|]); (split; [reflexivity|]); (split; [reflexivity|]);
    (split; [reflexivity|]); cbn.
  - left. split; [reflexivity|now left].
  - left. split; [reflexivity|right; now exists items].
  - right. split; [now left|now exists message].
  - right. split; [now right|now eexists].
Qed.

End ViewFacts.

(** X18: whatever the request, a response of either view carries the three
    CORS headers and the JSON content type; its status is 200 with an
    empty object or a list of ranked tasks, or 400 or 405 with a [detail]
    message. *)
Theorem views_answer_shape {R : PyRuntime}
    (json_loads : string -> option value)
    (read_record : list (string * value) -> raw_record) (today : Z)
    (request : http_request) (r : http_response) :
  analyze_tasks json_loads read_record today request = Responds r
  \/ suggest_tasks json_loads read_record today request = Responds r ->
  param_get "Access-Control-Allow-Origin" (headers r) = Some "*"
  /\ param_get "Access-Control-Allow-Methods" (headers r)
     = Some "GET, POST, OPTIONS"
  /\ param_get "Access-Control-Allow-Headers" (headers r) = Some "Content-Type"
  /\ param_get "Content-Type" (headers r) = Some "application/json"
  /\ ((status r = 200 /\ (data r = EmptyObject \/ exists l, data r = RankedList l))
      \/ ((status r = 400 \/ status r = 405) /\ exists m, data r = Detail m)).
Proof.
  intros H. apply view_answer_shape.
  destruct H as [H|H]; [exact (analyze_answer _ _ _ _ _ H)|].
  destruct (suggest_answer json_loads read_record today request)
    as (r' & Hr' & Hv).
  rewrite Hr' in H. now injection H as <-.
Qed.

Lemma views_answer_shape_witness :
  param_get "Access-Control-Allow-Origin"
    (headers (_json_error "Invalid JSON payload" 400)) = Some "*".
Proof.
  apply (views_answer_shape (R := PlainRuntime.runtime)
           PlainReading.loads PlainReading.read_record example_today
           (mkRequest "POST" (Some "{oops") [])
           (_json_error "Invalid JSON payload" 400)).
  left. reflexivity.
Defined.

(** X19: the views look at the method first: OPTIONS is answered 200 with
    an empty object by both, whatever the body and the query; any method
    other than OPTIONS and POST gets 405 from [analyze_tasks], any other
    than OPTIONS and GET gets 405 from [suggest_tasks]; 405 is given for no
    other reason; and an exception escapes [analyze_tasks] for a POST whose
    body cannot be decoded or whose strategy is not a string. *)
Theorem views_method_gate {R : PyRuntime}
    (json_loads : string -> option value)
    (read_record : list (string * value) -> raw_record) (today : Z)
    (request : http_request) :
  (method request = "OPTIONS" ->
   analyze_tasks json_loads read_record today request
   = Responds (_add_cors_headers (JsonResponse EmptyObject 200))
   /\ suggest_tasks json_loads read_record today request
      = Responds (_add_cors_headers (JsonResponse EmptyObject 200)))
  /\ (method request <> "OPTIONS" -> method request <> "POST" ->
      analyze_tasks json_loads read_record today request
      = Responds (_json_error "Method not allowed" 405))
  /\ (method request <> "OPTIONS" -> method request <> "GET" ->
      suggest_tasks json_loads read_record today request
      = Responds (_json_error "Method not allowed" 405))
  /\ (forall r, analyze_tasks json_loads read_record today request = Responds r ->
                status r = 405 ->
                method request <> "OPTIONS" /\ method request <> "POST")
  /\ (forall r, suggest_tasks json_loads read_record today request = Responds r ->
                status r = 405 ->
                method request <> "OPTIONS" /\ method request <> "GET")
  /\ (method request = "POST" -> body request = None ->
      analyze_tasks json_loads read_record today request = Escapes)
  /\ (forall text payload,
        method request = "POST" -> body request = Some text ->
        json_loads (str_or text "{}") = Some payload ->
        extract_tasks_and_strategy payload = AttributeError ->
        analyze_tasks json_loads read_record today request = Escapes).
Proof.
  unfold analyze_tasks, suggest_tasks.
  split; [intros ->; now split|].
  split; [intros H1 H2;
          destruct (String.eqb_spec (method request) "OPTIONS"); [contradiction|];
          destruct (String.eqb_spec (method request) "POST"); [contradiction|];
          reflexivity|].
  split; [intros H1 H2;
          destruct (String.eqb_spec (method request) "OPTIONS"); [contradiction|];
          destruct (String.eqb_spec (method request) "GET"); [contradiction|];
          reflexivity|].
  split; [|split; [|split]].
  - intros r.
    destruct (String.eqb_spec (method request) "OPTIONS");
      [intros [= <-]; discriminate|].
    destruct (String.eqb_spec (method request) "POST"); cbn [negb];
      [|intros _ _; now split].
    destruct (body request) as [text|]; [|discriminate]. cbv zeta.
    destruct (json_loads (str_or text "{}")) as [payload|];
      [|intros [= <-]; discriminate].
    destruct (extract_tasks_and_strategy payload) as [l s|msg|];
      [|intros [= <-]; discriminate|discriminate].
    destruct (answer_ranking_cases read_record today l s (fun ranked => ranked))
      as [(ranked & _ & ->)|(msg & _ & ->)]; intros [= <-]; discriminate.
  - intros r.
    destruct (String.eqb_spec (method request) "OPTIONS");
      [intros [= <-]; discriminate|].
    destruct (String.eqb_spec (method request) "GET"); cbn [negb];
      [|intros _ _; now split].
    cbv zeta.
    destruct (param_get "tasks" (query request)) as [[|c p]|];
      try (intros [= <-]; discriminate).
    destruct (json_loads (String c p)) as [[a|l|d]|];
      try (intros [= <-]; discriminate).
    match goal with
    | |- context [answer_ranking _ _ ?l ?s ?f] =>
        destruct (answer_ranking_cases read_record today l s f)
          as [(ranked & _ & ->)|(msg & _ & ->)]
    end; intros [= <-]; discriminate.
  - intros Hm Hb. rewrite Hm, Hb. reflexivity.
  - intros text payload Hm Hb Hl He. rewrite Hm, Hb. cbn.
    now rewrite Hl, He.
Qed.

Lemma views_method_gate_witness :
  suggest_tasks (R := PlainRuntime.runtime) PlainReading.loads
    PlainReading.read_record example_today (mkRequest "POST" None [])
  = Responds (_json_error "Method not allowed" 405).
Proof.
  apply (views_method_gate (R := PlainRuntime.runtime) PlainReading.loads
           PlainReading.read_record example_today (mkRequest "POST" None []));
    discriminate.
Defined.

Lemma rank_tasks_sorted {R : PyRuntime} (today : Z) (raw : list raw_entry)
    (s : string) (ranked : list ranked_task) :
  rank_tasks today raw s = Ok ranked ->
  StronglySorted (ranks_before today) ranked.
Proof.
  intros H. destruct (rank_tasks_inv _ _ _ _ H) as (results & _ & ->).
  eapply StronglySorted_impl; [intros a b; apply key_le_ranks_before|].
  apply list_sort_sorted;
    [apply tuple_lt_irrefl|apply tuple_lt_trans|apply tuple_le_trans].
Qed.

Lemma sorted_app_order {A : Type} (P : A -> A -> Prop) (l1 l2 : list A) :
  StronglySorted P (l1 ++ l2) ->
  forall a b, In a l1 -> In b l2 -> P a b.
Proof.
  induction l1 as [|x l1 IH]; intros Hs a b Ha Hb; [destruct Ha|].
  simpl in Hs. inversion Hs as [|? ? Hs' Hx]; subst.
  destruct Ha as [->|Ha]; [|now apply IH].
  rewrite Forall_forall in Hx. apply Hx, in_or_app. now right.
Qed.

(** X20: when [analyze_tasks] answers with ranked tasks, the request is a
    POST whose body decodes to a payload with tasks [l] and strategy [s],
    the status is 200 and the tasks are the whole ranking of [l] under
    [s]: one ranked task for each object of [l], in ranking order; when it
    answers a decoded payload with a [detail] message, the message is
    that of the extraction or names the unknown strategy. *)
Theorem analyze_answers_with_ranking {R : PyRuntime}
    (json_loads : string -> option value)
    (read_record : list (string * value) -> raw_record) (today : Z)
    (request : http_request) (r : http_response) :
  analyze_tasks json_loads read_record today request = Responds r ->
  (forall items, data r = RankedList items ->
     exists (text : string) (payload : value) (l : list value) (s : string),
       method request = "POST" /\ body request = Some text
       /\ json_loads (str_or text "{}") = Some payload
       /\ extract_tasks_and_strategy payload = Extracted l s
       /\ rank_tasks today (map (read_entry read_record) l) s = Ok items
       /\ status r = 200
       /\ List.length items = count_records (map (read_entry read_record) l)
       /\ StronglySorted (ranks_before today) items)
  /\ (forall (text : string) (payload : value) (m : string),
        method request = "POST" -> body request = Some text ->
        json_loads (str_or text "{}") = Some payload ->
        data r = Detail m ->
        status r = 400
        /\ (extract_tasks_and_strategy payload = PayloadError m
            \/ exists l s,
                 extract_tasks_and_strategy payload = Extracted l s
                 /\ rank_tasks today (map (read_entry read_record) l) s
                    = Raise (StrategyError m)
                 /\ m = ("Unknown strategy: " ++ s)%string)).
Proof.
  unfold analyze_tasks. intros H. split.
  - intros items Hd.
    destruct (String.eqb_spec (method request) "OPTIONS");
      [injection H as <-; discriminate Hd|].
    destruct (String.eqb_spec (method request) "POST") as [Hm|]; cbn [negb] in H;
      [|injection H as <-; discriminate Hd].
    destruct (body request) as [text|]; [|discriminate H]. cbv zeta in H.
    destruct (json_loads (str_or text "{}")) as [payload|] eqn:El;
      [|injection H as <-; discriminate Hd].
    destruct (extract_tasks_and_strategy payload) as [l s|msg|] eqn:Ee;
      [|injection H as <-; discriminate Hd|discriminate H].
    destruct (answer_ranking_cases read_record today l s (fun ranked => ranked))
      as [(ranked & Hr & E)|(msg & _ & E)]; rewrite E in H; injection H as <-;
      [|discriminate Hd].
    cbn [data _add_cors_headers JsonResponse] in Hd. injection Hd as <-.
    exists text, payload, l, s.
    split; [exact Hm|]. split; [reflexivity|]. split; [exact El|].
    split; [exact Ee|]. split; [exact Hr|]. split; [reflexivity|].
    split; [|exact (rank_tasks_sorted _ _ _ _ Hr)].
    destruct (rank_tasks_inv _ _ _ _ Hr) as (results & Hres & ->).
    rewrite <- (Permutation_length (list_sort_perm _ _ results)).
    rewrite <- (normalise_from_length 1).
    fold (normalise_tasks (map (read_entry read_record) l)).
    rewrite <- (score_tasks_tasks _ _ _ _ Hres). now rewrite length_map.
  - intros text payload m Hm Hb Hl Hd. rewrite Hm, Hb in H. cbn in H.
    rewrite Hl in H.
    destruct (extract_tasks_and_strategy payload) as [l s|msg|] eqn:Ee;
      [|injection H as <-; cbn in Hd; injection Hd as <-; split;
        [reflexivity|now left]|discriminate H].
    destruct (answer_ranking_cases read_record today l s (fun ranked => ranked))
      as [(ranked & Hr & E)|(msg & Hr & E)]; rewrite E in H; injection H as <-;
      [discriminate Hd|].
    cbn in Hd. injection Hd as <-. split; [reflexivity|].
    right. exists l, s. split; [reflexivity|]. split; [exact Hr|].
    destruct (rank_tasks_outcome today (map (read_entry read_record) l) s)
      as [Hok Hbad].
    destruct (String.eqb_spec s "") as [->|Hs];
      [destruct (Hok (or_introl eq_refl)) as (x & Hx & _); congruence|].
    destruct (recognized s) eqn:Hrec;
      [destruct (Hok (or_intror (or_introl eq_refl))) as (x & Hx & _);
       congruence|].
    destruct (count_records (map (read_entry read_record) l)) eqn:Hc;
      [destruct (Hok (or_intror (or_intror eq_refl))) as (x & Hx & _);
       congruence|].
    rewrite (Hbad Hs eq_refl) in Hr by discriminate. now injection Hr as <-.
Qed.

Lemma analyze_answers_with_ranking_witness :
  exists items : list ranked_task,
    rank_tasks (R := PlainRuntime.runtime) example_today
      (map (read_entry PlainReading.read_record)
         [VDict []; VDict []; VDict []; VDict []])
      "smart_balance" = Ok items
    /\ List.length items = 4%nat.
Proof.
  eassert (E : analyze_tasks (R := PlainRuntime.runtime) PlainReading.loads
                 PlainReading.read_record example_today
                 (mkRequest "POST" (Some "[{}, {}, {}, {}]") [])
               = Responds _) by (vm_compute; reflexivity).
  destruct (analyze_answers_with_ranking (R := PlainRuntime.runtime)
              PlainReading.loads PlainReading.read_record example_today
              _ _ E) as [Hitems _].
  destruct (Hitems _ eq_refl)
    as (text & payload & l & s & _ & Hb & Hl & He & Hr & _ & Hlen & _).
  injection Hb as <-. cbn in Hl. injection Hl as <-. cbn in He.
  injection He as <- <-.
  eexists. split; [exact Hr|exact Hlen].
Defined.

(** X21: when [suggest_tasks] answers with ranked tasks, they are the
    first three of the ranking of the given tasks under the given
    strategy (trimmed, "smart_balance" when missing or empty): at most
    three, and each of them ranks before every task that is left out. *)
Theorem suggest_returns_top_three {R : PyRuntime}
    (json_loads : string -> option value)
    (read_record : list (string * value) -> raw_record) (today : Z)
    (request : http_request) (r : http_response) (items : list ranked_task) :
  suggest_tasks json_loads read_record today request = Responds r ->
  data r = RankedList items ->
  exists (text : string) (l : list value) (ranked : list ranked_task),
    param_get "tasks" (query request) = Some text
    /\ json_loads text = Some (VList l)
    /\ rank_tasks today (map (read_entry read_record) l)
         (strip (match param_get "strategy" (query request) with
                 | Some s => str_or s "smart_balance"
                 | None => "smart_balance"
                 end))
       = Ok ranked
    /\ items = firstn 3 ranked
    /\ (List.length items <= 3)%nat
    /\ (forall a b, In a items -> In b (skipn 3 ranked) -> ranks_before today a b).
Proof.
  unfold suggest_tasks.
  destruct (String.eqb (method request) "OPTIONS");
    [intros [= <-]; discriminate|].
  destruct (String.eqb (method request) "GET"); cbn [negb];
    [|intros [= <-]; discriminate].
  cbv zeta.
  destruct (param_get "tasks" (query request)) as [[|c p]|];
    try (intros [= <-]; discriminate).
  destruct (json_loads (String c p)) as [[a|l|d]|] eqn:El;
    try (intros [= <-]; discriminate).
  match goal with
  | |- context [answer_ranking _ _ ?l ?s ?f] =>
      destruct (answer_ranking_cases read_record today l s f)
        as [(ranked & Hr & ->)|(msg & _ & ->)]
  end; intros [= <-]; [|discriminate].
  cbn [data _add_cors_headers JsonResponse]. intros [= <-].
  exists (String c p), l, ranked.
  split; [reflexivity|]. split; [exact El|]. split; [exact Hr|].
  split; [reflexivity|].
  change (List.length (firstn 3 ranked) <= 3
          /\ (forall a b, In a (firstn 3 ranked) -> In b (skipn 3 ranked) ->
                          ranks_before today a b))%nat.
  split; [apply firstn_le_length|].
  apply sorted_app_order. rewrite firstn_skipn.
  exact (rank_tasks_sorted _ _ _ _ Hr).
Qed.

Lemma suggest_returns_top_three_witness :
  exists ranked : list ranked_task,
    rank_tasks (R := PlainRuntime.runtime) example_today
      (map (read_entry PlainReading.read_record)
         [VDict []; VDict []; VDict []; VDict []])
      "smart_balance" = Ok ranked
    /\ map out_id (firstn 3 ranked) = [AInt 1; AInt 2; AInt 3].
Proof.
  eassert (E : suggest_tasks (R := PlainRuntime.runtime) PlainReading.loads
                 PlainReading.read_record example_today
                 (mkRequest "GET" None [("tasks", "[{}, {}, {}, {}]")])
               = Responds _) by (vm_compute; reflexivity).
  destruct (suggest_returns_top_three (R := PlainRuntime.runtime)
              PlainReading.loads PlainReading.read_record example_today
              _ _ _ E eq_refl)
    as (text & l & ranked & Ht & Hl & Hr & Hi & _).
  injection Ht as <-. injection Hl as <-.
  exists ranked. split; [exact Hr|].
  vm_compute in Hr. injection Hr as <-. reflexivity.
Defined.

(** X22: requests without tasks: a POST with an empty body is read as the
    empty object and answered 200 with an empty list; a GET whose [tasks]
    parameter is missing or empty is answered 400, whatever strategy it
    names. *)
Theorem requests_without_tasks {R : PyRuntime}
    (json_loads : string -> option value)
    (read_record : list (string * value) -> raw_record) (today : Z)
    (q : list (string * string)) :
  (json_loads "{}" = Some (VDict []) ->
   analyze_tasks json_loads read_record today (mkRequest "POST" (Some "") q)
   = Responds (_add_cors_headers (JsonResponse (RankedList []) 200)))
  /\ (param_get "tasks" q = None \/ param_get "tasks" q = Some "" ->
      suggest_tasks json_loads read_record today (mkRequest "GET" None q)
      = Responds
          (_json_error
             "No tasks provided. Pass a `tasks` query parameter containing a JSON array."
             400)).
Proof.
  split.
  - intros H. unfold analyze_tasks. cbn. rewrite H. reflexivity.
  - intros [H|H]; unfold suggest_tasks; cbn; rewrite H; reflexivity.
Qed.

Lemma requests_without_tasks_witness :
  analyze_tasks (R := PlainRuntime.runtime) PlainReading.loads
    PlainReading.read_record example_today (mkRequest "POST" (Some "") [])
  = Responds (_add_cors_headers (JsonResponse (RankedList []) 200)).
Proof.
  apply (requests_without_tasks (R := PlainRuntime.runtime) PlainReading.loads
           PlainReading.read_record example_today []).
  reflexivity.
Defined.
